(** * Authentication core of the NestJS template: a shallow embedding

    The development follows the TypeScript sources:

    - [AuthService] (core/services/auth.service.ts): one-time passwords,
      two-factor enrolment and the refresh-token ledger;
    - [PermissionRepository] (the Prisma-backed permission catalog);
    - [JwtStrategy] (the per-request liveness check of the token subject).

    Asynchronous methods that may throw are functions in a state-and-exception
    monad over a [World] holding the clock, the tables and the configuration
    read through [ConfigService].  The [speakeasy] calls are embedded down to
    HMAC-SHA-1, so that one-time codes can be evaluated on concrete inputs. *)

From Stdlib Require Import ZArith List String Ascii Bool Lia.
Import ListNotations.

Local Open Scope string_scope.
Local Open Scope Z_scope.

(** ** JavaScript primitives used by the sources *)

Module Js.

(** A JavaScript number restricted to what the sources compute with:
    an integer, or [NaN]. *)
Inductive number : Type :=
| NaN
| Num (z : Z).

Definition is_digit (c : ascii) : bool :=
  let n := nat_of_ascii c in (48 <=? n)%nat && (n <=? 57)%nat.

Definition digit_value (c : ascii) : Z := Z.of_nat (nat_of_ascii c) - 48.

(** A string holds the UTF-8 bytes of a JavaScript string.  [s.length]
    counts UTF-16 code units: one for a character written on one, two or
    three bytes, two for a character written on four; the bytes that
    continue a character count for nothing. *)
Definition code_units (c : ascii) : nat :=
  let n := nat_of_ascii c in
  if (n <? 128)%nat then 1%nat
  else if (n <? 192)%nat then 0%nat
  else if (n <? 240)%nat then 1%nat
  else 2%nat.

Fixpoint length (s : string) : nat :=
  match s with
  | String c s' => (code_units c + length s')%nat
  | EmptyString => 0%nat
  end.

(** White space and line terminators written on one byte: U+0009 to U+000D
    and U+0020. *)
Definition is_space (c : ascii) : bool :=
  let n := nat_of_ascii c in
  (n =? 32)%nat || ((9 <=? n)%nat && (n <=? 13)%nat).

(** On two bytes: U+00A0. *)
Definition is_space2 (c1 c2 : ascii) : bool :=
  (nat_of_ascii c1 =? 194)%nat && (nat_of_ascii c2 =? 160)%nat.

(** On three bytes: U+1680, U+2000 to U+200A, U+2028, U+2029, U+202F,
    U+205F, U+3000 and U+FEFF. *)
Definition is_space3 (c1 c2 c3 : ascii) : bool :=
  let n1 := nat_of_ascii c1 in
  let n2 := nat_of_ascii c2 in
  let n3 := nat_of_ascii c3 in
  ((n1 =? 225) && (n2 =? 154) && (n3 =? 128))%nat
  || ((n1 =? 226) && (n2 =? 128)
      && (((128 <=? n3) && (n3 <=? 138)) || (n3 =? 168) || (n3 =? 169)
          || (n3 =? 175)))%nat
  || ((n1 =? 226) && (n2 =? 129) && (n3 =? 159))%nat
  || ((n1 =? 227) && (n2 =? 128) && (n3 =? 128))%nat
  || ((n1 =? 239) && (n2 =? 187) && (n3 =? 191))%nat.

(** The string after the white space [parseInt] skips at its start. *)
Fixpoint skip_spaces (s : string) : string :=
  match s with
  | String c1 s1 =>
      if is_space c1 then skip_spaces s1
      else if (nat_of_ascii c1 <? 128)%nat then s
      else
        match s1 with
        | String c2 s2 =>
            if is_space2 c1 c2 then skip_spaces s2
            else
              match s2 with
              | String c3 s3 =>
                  if is_space3 c1 c2 c3 then skip_spaces s3 else s
              | EmptyString => s
              end
        | EmptyString => s
        end
  | EmptyString => s
  end.

(** The longest prefix of decimal digits, folded into its value;
    [None] when the prefix is empty. *)
Fixpoint digits_prefix (acc : option Z) (s : string) : option Z :=
  match s with
  | String c s' =>
      if is_digit c
      then digits_prefix
             (Some (10 * match acc with Some a => a | None => 0 end
                    + digit_value c)) s'
      else acc
  | EmptyString => acc
  end.

(** [parseInt(s, 10)]. *)
Definition parseInt (s : string) : number :=
  match skip_spaces s with
  | String "-" s' =>
      match digits_prefix None s' with Some v => Num (- v) | None => NaN end
  | String "+" s' =>
      match digits_prefix None s' with Some v => Num v | None => NaN end
  | s' =>
      match digits_prefix None s' with Some v => Num v | None => NaN end
  end.

Definition isNaN (n : number) : bool :=
  match n with NaN => true | Num _ => false end.

(** [a === b] on numbers: [NaN] equals nothing. *)
Definition strict_eq (a b : number) : bool :=
  match a, b with
  | Num x, Num y => x =? y
  | _, _ => false
  end.

(** [n || d] on numbers: [0] and [NaN] are falsy. *)
Definition or_default (n : number) (d : Z) : Z :=
  match n with
  | NaN => d
  | Num z => if z =? 0 then d else z
  end.

(** [s.replace(pat, '')] for a one-character pattern: the first
    occurrence only. *)
Fixpoint remove_first (pat : ascii) (s : string) : string :=
  match s with
  | String c s' => if Ascii.eqb c pat then s' else String c (remove_first pat s')
  | EmptyString => EmptyString
  end.

(** [!s] for an optional string: [undefined], [null] and [''] are falsy. *)
Definition falsy (s : option string) : bool :=
  match s with
  | None => true
  | Some EmptyString => true
  | Some _ => false
  end.

(** The value of an optional string; [undefined] reads as ['']. *)
Definition string_of (s : option string) : string :=
  match s with
  | Some v => v
  | None => EmptyString
  end.

(** [n.toString(10)] for [0 <= n]. *)
Fixpoint to_decimal_aux (fuel : nat) (n : Z) (acc : string) : string :=
  let acc' := String (ascii_of_nat (Z.to_nat (48 + n mod 10))) acc in
  match fuel with
  | O => acc'
  | S fuel' => if n <? 10 then acc' else to_decimal_aux fuel' (n / 10) acc'
  end.

Definition to_decimal (n : Z) : string :=
  to_decimal_aux (Z.to_nat (Z.log2 n)) n EmptyString.

(** [new Array(n + 1).join('0')]: [n] zeros. *)
Fixpoint zeros (n : nat) : string :=
  match n with
  | O => EmptyString
  | S n' => String "0" (zeros n')
  end.

Fixpoint drop (n : nat) (s : string) : string :=
  match n, s with
  | S n', String _ s' => drop n' s'
  | _, _ => s
  end.

(** [s.substr(-k)] for [0 < k]: the last [k] characters. *)
Definition last_chars (k : nat) (s : string) : string :=
  drop (String.length s - k) s.

Definition upper (c : ascii) : ascii :=
  let n := nat_of_ascii c in
  if (97 <=? n)%nat && (n <=? 122)%nat then ascii_of_nat (n - 32) else c.

(** [ToInt32], applied by the bit operators. *)
Definition to_int32 (z : Z) : Z := (z + 2 ^ 31) mod 2 ^ 32 - 2 ^ 31.

End Js.

(** ** SHA-1 and HMAC, as [crypto.createHmac('sha1', key)] computes them

    Buffers are lists of bytes, each byte a [Z] in [0, 255]; words are [Z]
    in [0, 2^32) with the wrap-around written out. *)

Module Sha1.

Local Open Scope list_scope.

Definition w32 (x : Z) : Z := x mod 2 ^ 32.

Definition add32 (x y : Z) : Z := w32 (x + y).

Definition rotl (n x : Z) : Z :=
  Z.lor (w32 (Z.shiftl x n)) (Z.shiftr x (32 - n)).

Definition not32 (x : Z) : Z := 2 ^ 32 - 1 - x.

(** Big-endian bytes of a word, most significant first. *)
Fixpoint be_bytes (n : nat) (x : Z) : list Z :=
  match n with
  | O => []
  | S n' => Z.land (Z.shiftr x (8 * Z.of_nat n')) 255 :: be_bytes n' x
  end.

Fixpoint be_word (acc : Z) (bs : list Z) : Z :=
  match bs with
  | [] => acc
  | b :: bs' => be_word (acc * 256 + b) bs'
  end.

(** The message followed by [0x80], zeros up to 56 modulo 64, and the
    bit length on eight bytes. *)
Definition pad (msg : list Z) : list Z :=
  let len := Z.of_nat (List.length msg) in
  let k := (55 - len) mod 64 in
  msg ++ [128] ++ repeat 0 (Z.to_nat k) ++ be_bytes 8 (8 * len).

Fixpoint words (n : nat) (bs : list Z) : list Z :=
  match n with
  | O => []
  | S n' => be_word 0 (firstn 4 bs) :: words n' (skipn 4 bs)
  end.

(** The schedule, newest word first: [sched] holds W(t-1), W(t-2), ... *)
Fixpoint schedule (n : nat) (sched : list Z) : list Z :=
  match n with
  | O => sched
  | S n' =>
      let x := Z.lxor (Z.lxor (nth 2 sched 0) (nth 7 sched 0))
                      (Z.lxor (nth 13 sched 0) (nth 15 sched 0)) in
      schedule n' (rotl 1 x :: sched)
  end.

Definition f (t : nat) (b c d : Z) : Z :=
  if (t <? 20)%nat then Z.lor (Z.land b c) (Z.land (not32 b) d)
  else if (t <? 40)%nat then Z.lxor (Z.lxor b c) d
  else if (t <? 60)%nat
       then Z.lor (Z.lor (Z.land b c) (Z.land b d)) (Z.land c d)
  else Z.lxor (Z.lxor b c) d.

Definition K (t : nat) : Z :=
  if (t <? 20)%nat then 0x5A827999
  else if (t <? 40)%nat then 0x6ED9EBA1
  else if (t <? 60)%nat then 0x8F1BBCDC
  else 0xCA62C1D6.

Definition state : Type := (Z * Z * Z * Z * Z)%type.

Fixpoint rounds (t : nat) (ws : list Z) (s : state) : state :=
  match ws with
  | [] => s
  | w :: ws' =>
      let '(a, b, c, d, e) := s in
      let tmp := add32 (add32 (add32 (add32 (rotl 5 a) (f t b c d)) e) (K t)) w in
      rounds (S t) ws' (tmp, a, rotl 30 b, c, d)
  end.

Definition compress (h : state) (block : list Z) : state :=
  let ws := rev (schedule 64 (rev (words 16 block))) in
  let '(a, b, c, d, e) := rounds 0 ws h in
  let '(h0, h1, h2, h3, h4) := h in
  (add32 h0 a, add32 h1 b, add32 h2 c, add32 h3 d, add32 h4 e).

Fixpoint blocks (n : nat) (h : state) (bs : list Z) : state :=
  match n with
  | O => h
  | S n' => blocks n' (compress h (firstn 64 bs)) (skipn 64 bs)
  end.

Definition init : state :=
  (0x67452301, 0xEFCDAB89, 0x98BADCFE, 0x10325476, 0xC3D2E1F0).

Definition sha1 (msg : list Z) : list Z :=
  let p := pad msg in
  let '(h0, h1, h2, h3, h4) := blocks (List.length p / 64) init p in
  be_bytes 4 h0 ++ be_bytes 4 h1 ++ be_bytes 4 h2 ++ be_bytes 4 h3
    ++ be_bytes 4 h4.

(** RFC 2104: a key longer than a block is hashed, then padded with
    zeros to the block length. *)
Definition hmac (key msg : list Z) : list Z :=
  let k := if (64 <? List.length key)%nat then sha1 key else key in
  let k := k ++ repeat 0 (64 - List.length k) in
  let inner := sha1 (map (Z.lxor 0x36) k ++ msg) in
  sha1 (map (Z.lxor 0x5c) k ++ inner).

End Sha1.

(** ** The [speakeasy] calls of [AuthService]

    [speakeasy.totp.verify(options)] as the library evaluates it: the
    options object, the counter derived from the clock, the window scanned
    by [hotp.verifyDelta], and the RFC 4226 code under it. *)

Module Speakeasy.

Local Open Scope list_scope.

Inductive encoding : Type := EncAscii | EncBase32.

(** The fields of the options object that [totp.verify] reads.  A field
    the caller leaves out is [None] ([undefined]). *)
Record options : Type := mkOptions {
  secret : string;
  enc : option encoding;
  token : string;
  step : option Z;
  digits : option Z;
  window : option Z
}.

(** The RFC 4648 alphabet of the decoder, with its two aliases
    ([0] for [O], [1] for [I]); a character outside it reads as [0]. *)
Definition symbol (c : ascii) : Z :=
  let n := Z.of_nat (nat_of_ascii (Js.upper c)) in
  if (65 <=? n) && (n <=? 90) then n - 65
  else if (50 <=? n) && (n <=? 55) then n - 24
  else if n =? 48 then 14
  else if n =? 49 then 8
  else 0.

(** The decoder's loop: five bits per character, [shift] bits still free
    in the byte being assembled in [carry]. *)
Fixpoint base32_write (s : string) (shift carry : Z) (buf : list Z)
  : Z * Z * list Z :=
  match s with
  | EmptyString => (shift, carry, buf)
  | String c s' =>
      if Ascii.eqb c "=" then base32_write s' shift carry buf
      else
        let sym := symbol c in
        let shift := shift - 5 in
        if 0 <? shift
        then base32_write s' shift (Z.lor carry (Z.shiftl sym shift)) buf
        else if shift <? 0
        then base32_write s' (shift + 8)
               (Z.land (Z.shiftl sym (shift + 8)) 255)
               (buf ++ [Z.lor carry (Z.shiftr sym (- shift))])
        else base32_write s' 8 0 (buf ++ [Z.lor carry sym])
  end.

Definition base32_decode (s : string) : list Z :=
  let '(shift, carry, buf) := base32_write s 8 0 [] in
  if negb (shift =? 8) && negb (carry =? 0) then buf ++ [carry] else buf.

Definition ascii_bytes (s : string) : list Z :=
  map (fun c => Z.of_nat (nat_of_ascii c)) (list_ascii_of_string s).

Definition secret_bytes (o : options) : list Z :=
  match enc o with
  | Some EncBase32 => base32_decode (secret o)
  | _ => ascii_bytes (secret o)
  end.

(** The counter on eight bytes: [buf[7 - i] = tmp & 0xff; tmp = tmp >> 8],
    both operators working on 32-bit integers. *)
Fixpoint counter_bytes (n : nat) (tmp : Z) (buf : list Z) : list Z :=
  match n with
  | O => buf
  | S n' =>
      counter_bytes n' (Z.shiftr (Js.to_int32 tmp) 8)
                    (Z.land (Js.to_int32 tmp) 255 :: buf)
  end.

Definition digest (o : options) (counter : Z) : list Z :=
  Sha1.hmac (secret_bytes o) (counter_bytes 8 counter []).

(** [hotp]'s number of digits: [options.digits || 6]. *)
Definition hotp_digits (o : options) : Z :=
  match digits o with
  | Some d => Js.or_default (Js.Num d) 6
  | None => 6
  end.

(** Dynamic truncation (RFC 4226, 5.4). *)
Definition truncate (d : list Z) : Z :=
  let offset := Z.to_nat (Z.land (nth (List.length d - 1) d 0) 15) in
  Z.lor (Z.lor (Z.shiftl (Z.land (nth offset d 0) 127) 24)
               (Z.shiftl (Z.land (nth (offset + 1) d 0) 255) 16))
        (Z.lor (Z.shiftl (Z.land (nth (offset + 2) d 0) 255) 8)
               (Z.land (nth (offset + 3) d 0) 255)).

(** [speakeasy.hotp]: the truncated code, left-padded with zeros and cut
    to its last [digits] characters ([0 < digits]: a verification never
    asks for a code otherwise, the token having no such length). *)
Definition hotp (o : options) (counter : Z) : string :=
  let n := Z.to_nat (hotp_digits o) in
  Js.last_chars n (Js.zeros n ++ Js.to_decimal (truncate (digest o counter))).

(** The loop of [hotp.verifyDelta]: counters [i], [i + 1], ... are tried,
    [n] of them, against the parsed token. *)
Fixpoint scan (o : options) (tok : Js.number) (counter : Z) (n : nat) (i : Z)
  : option Z :=
  match n with
  | O => None
  | S n' =>
      if Js.strict_eq (Js.parseInt (hotp o i)) tok
      then Some (i - counter)
      else scan o tok counter n' (i + 1)
  end.

(** [hotp.verifyDelta] with [options.counter] and [options.window] as
    [totp.verifyDelta] left them.  [None] is [undefined]. *)
Definition hotp_verifyDelta (o : options) (counter : Z) (win : Js.number)
  : option Z :=
  let digits :=
    Js.or_default (match digits o with Some d => Js.Num d | None => Js.NaN end) 6 in
  let window := Js.or_default win 0 in
  if negb (Z.of_nat (Js.length (token o)) =? digits) then None
  else
    let tok := Js.parseInt (token o) in
    if Js.isNaN tok then None
    else scan o tok counter (Z.to_nat (window + 1)) counter.

(** [totp._counter]: [Math.floor(Date.now() / step / 1000)] with
    [step = options.step || 30]. *)
Definition totp_counter (o : options) (now : Z) : Z :=
  let step :=
    Js.or_default (match step o with Some s => Js.Num s | None => Js.NaN end) 30 in
  now / (step * 1000).

(** [totp.verifyDelta]: the window is made two-sided by starting [window]
    steps back and scanning twice as far.  [options.window += window] turns
    a missing window into [NaN]. *)
Definition totp_verifyDelta (o : options) (now : Z) : option Z :=
  let w :=
    Js.or_default (match window o with Some x => Js.Num x | None => Js.NaN end) 0 in
  let counter := totp_counter o now - w in
  let win := match window o with Some x => Js.Num (x + w) | None => Js.NaN end in
  match hotp_verifyDelta o counter win with
  | Some delta => Some (delta - w)
  | None => None
  end.

(** [totp.verify]: [totp.verifyDelta(options) != null]. *)
Definition totp_verify (o : options) (now : Z) : bool :=
  match totp_verifyDelta o now with
  | Some _ => true
  | None => false
  end.

(** [speakeasy.totp(options)]: the code of the current step. *)
Definition totp (o : options) (now : Z) : string :=
  hotp o (totp_counter o now).

End Speakeasy.

(** ** Entities

    The entity classes are imported by the services ([../entities/...]) but
    their files are not part of the sources at hand; each is a record with the
    fields and methods the data model of the specification gives it. *)

Module User.

(** Modelled from the spec: the [User] entity (core/entities/user.entity.ts
    is missing): identity, email, [otpEnabled], optional [otpSecret],
    [isActive], [lastLoginAt]. *)
Record t : Type := mk {
  id : string;
  email : string;
  otpEnabled : bool;
  otpSecret : option string;
  isActive : bool;
  lastLoginAt : option Z
}.

(** Modelled from the spec: [enableOtp(secret)] of the missing entity sets
    [otpEnabled = true] and [otpSecret = secret]. *)
Definition enableOtp (secret : string) (u : t) : t :=
  mk (id u) (email u) true (Some secret) (isActive u) (lastLoginAt u).

(** Modelled from the spec: [disableOtp()] of the missing entity clears the
    secret and the flag. *)
Definition disableOtp (u : t) : t :=
  mk (id u) (email u) false None (isActive u) (lastLoginAt u).

(** Modelled from the spec: [updateLastLogin()] of the missing entity
    writes [lastLoginAt]. *)
Definition updateLastLogin (now : Z) (u : t) : t :=
  mk (id u) (email u) (otpEnabled u) (otpSecret u) (isActive u) (Some now).

End User.

Module Otp.

(** Modelled from the spec: the [Otp] entity (core/entities/otp.entity.ts is
    missing): id, owning user id, base32 secret, creation time, expiry time,
    [verified] flag.  Times are milliseconds since the epoch. *)
Record t : Type := mk {
  id : string;
  userId : string;
  secret : string;
  createdAt : Z;
  expiresAt : Z;
  verified : bool
}.

(** Modelled from the spec: the constructor of the missing entity,
    [expiresAt = now + expirationMinutes]. *)
Definition new (id' : string) (now : Z) (userId' secret' : string)
           (expirationMinutes : Z) : t :=
  mk id' userId' secret' now (now + expirationMinutes * 60 * 1000) false.

(** Modelled from the spec: [isExpired()] of the missing entity,
    [now > expiresAt]. *)
Definition isExpired (now : Z) (o : t) : bool := expiresAt o <? now.

(** Modelled from the spec: [markAsVerified()] of the missing entity sets
    the [verified] flag. *)
Definition markAsVerified (o : t) : t :=
  mk (id o) (userId o) (secret o) (createdAt o) (expiresAt o) true.

End Otp.

Module RefreshToken.

(** Modelled from the spec: the [RefreshToken] entity
    (core/entities/refresh-token.entity.ts is missing): id, owning user id,
    opaque token value, expiry time, [revoked] flag, creation time.  The
    expiry is a JavaScript date, whose time value is [NaN] when the lifetime
    it was computed from is. *)
Record t : Type := mk {
  id : string;
  userId : string;
  token : string;
  expiresAt : Js.number;
  revoked : bool;
  createdAt : Z
}.

(** Modelled from the spec: the constructor of the missing entity,
    [expiresAt = now + refreshExpirationDays]. *)
Definition new (id' : string) (now : Z) (userId' token' : string)
           (expirationDays : Js.number) : t :=
  mk id' userId' token'
     match expirationDays with
     | Js.Num d => Js.Num (now + d * 24 * 60 * 60 * 1000)
     | Js.NaN => Js.NaN
     end
     false now.

(** Modelled from the spec: [isExpired()] of the missing entity, past
    expiry; a comparison with an invalid date is false. *)
Definition isExpired (now : Z) (r : t) : bool :=
  match expiresAt r with
  | Js.Num e => e <? now
  | Js.NaN => false
  end.

(** Modelled from the spec: [isRevoked()] of the missing entity reads the
    [revoked] flag. *)
Definition isRevoked (r : t) : bool := revoked r.

(** Modelled from the spec: [revoke()] of the missing entity sets the
    [revoked] flag. *)
Definition revoke (r : t) : t :=
  mk (id r) (userId r) (token r) (expiresAt r) true (createdAt r).

End RefreshToken.

Module Permission.

(** Modelled from the spec: the [Permission] entity
    (core/entities/permission.entity.ts is missing): id, unique name,
    description, resource, action, with the two time stamps
    [mapToModel] assigns. *)
Record t : Type := mk {
  id : string;
  name : string;
  description : string;
  resource : string;
  action : string;
  createdAt : Z;
  updatedAt : Z
}.

(** Modelled from the spec: the constructor of the missing entity; the id
    and time stamps it starts from are overwritten by [mapToModel]. *)
Definition new (name' description' resource' action' : string) : t :=
  mk "" name' description' resource' action' 0 0.

Definition set_id (v : string) (p : t) : t :=
  mk v (name p) (description p) (resource p) (action p) (createdAt p)
     (updatedAt p).

Definition set_createdAt (v : Z) (p : t) : t :=
  mk (id p) (name p) (description p) (resource p) (action p) v (updatedAt p).

Definition set_updatedAt (v : Z) (p : t) : t :=
  mk (id p) (name p) (description p) (resource p) (action p) (createdAt p) v.

End Permission.

(** The row [prisma.permission] stores and returns ([record: any] in
    [mapToModel]), with the fields the repository reads from it. *)
Module PermissionRecord.

Record t : Type := mk {
  id : string;
  name : string;
  description : string;
  resource : string;
  action : string;
  createdAt : Z;
  updatedAt : Z
}.

End PermissionRecord.

(** ** The world, exceptions and the monad of asynchronous methods *)

(** The exceptions the sources throw, with the arguments they are built from.
    [StoreFailure] stands for an error of the persistence layer, which the
    services let through. *)
Inductive exn : Type :=
| EntityNotFoundException (entity : string) (id : option string)
| OtpExpiredException
| OtpInvalidException
| AuthenticationException (message : string)
| UnauthorizedException (message : string)
| StoreFailure (code : string).

(** The configuration keys read through [ConfigService.get]; [None] is a key
    that is not set. *)
Record Config : Type := mkConfig {
  OTP_SECRET : option string;
  OTP_EXPIRATION : option Z;
  OTP_STEP : option Z;
  OTP_DIGITS : option Z;
  JWT_REFRESH_EXPIRATION : option string
}.

(** [configService.get(key, defaultValue)]. *)
Definition get {A : Type} (key : option A) (defaultValue : A) : A :=
  match key with
  | Some v => v
  | None => defaultValue
  end.

(** The clock in milliseconds, the configuration, one table per repository
    (rows in insertion order for the ledger and the catalog, newest first
    for one-time passwords), and the supply identifiers are drawn from. *)
Record World : Type := mkWorld {
  clock : Z;
  config : Config;
  users : list User.t;
  otps : list Otp.t;
  refreshTokens : list RefreshToken.t;
  permissions : list PermissionRecord.t;
  nextId : Z
}.

Definition set_clock (now : Z) (w : World) : World :=
  mkWorld now (config w) (users w) (otps w) (refreshTokens w) (permissions w)
          (nextId w).

Definition set_users (us : list User.t) (w : World) : World :=
  mkWorld (clock w) (config w) us (otps w) (refreshTokens w) (permissions w)
          (nextId w).

Definition set_otps (os : list Otp.t) (w : World) : World :=
  mkWorld (clock w) (config w) (users w) os (refreshTokens w) (permissions w)
          (nextId w).

Definition set_refreshTokens (rs : list RefreshToken.t) (w : World) : World :=
  mkWorld (clock w) (config w) (users w) (otps w) rs (permissions w)
          (nextId w).

Definition set_permissions (ps : list PermissionRecord.t) (w : World)
  : World :=
  mkWorld (clock w) (config w) (users w) (otps w) (refreshTokens w) ps
          (nextId w).

Definition set_nextId (n : Z) (w : World) : World :=
  mkWorld (clock w) (config w) (users w) (otps w) (refreshTokens w)
          (permissions w) n.

Inductive result (A : Type) : Type :=
| Ok (a : A)
| Throw (e : exn).

Arguments Ok {A} a.
Arguments Throw {A} e.

(** An asynchronous method: from the world before the call to its outcome
    and the world after it.  What was written before a [throw] stays
    written. *)
Definition M (A : Type) : Type := World -> result A * World.

Definition ret {A : Type} (a : A) : M A := fun w => (Ok a, w).

Definition throw {A : Type} (e : exn) : M A := fun w => (Throw e, w).

Definition bind {A B : Type} (m : M A) (k : A -> M B) : M B :=
  fun w =>
    match m w with
    | (Ok a, w') => k a w'
    | (Throw e, w') => (Throw e, w')
    end.

(** [try { m } catch (error) { h }]. *)
Definition try_catch {A : Type} (m : M A) (h : exn -> M A) : M A :=
  fun w =>
    match m w with
    | (Ok a, w') => (Ok a, w')
    | (Throw e, w') => h e w'
    end.

Definition gets {A : Type} (f : World -> A) : M A := fun w => (Ok (f w), w).

Definition modify (f : World -> World) : M unit := fun w => (Ok tt, f w).

Declare Scope async_scope.
Delimit Scope async_scope with async.

Notation "x <- m ;; k" := (bind m (fun x => k))
  (at level 100, m at next level, right associativity) : async_scope.
Notation "m ;; k" := (bind m (fun _ => k))
  (at level 100, right associativity) : async_scope.

Local Open Scope async_scope.

(** [new Date()]. *)
Definition now : M Z := gets clock.

(** Modelled from the spec: the [id] a new entity is given by its (missing)
    constructor, drawn from the world's supply. *)
Definition newId : M string :=
  n <- gets nextId ;;
  modify (set_nextId (n + 1)) ;;
  ret (Js.to_decimal n).

(** ** Repositories

    The services reach the stores through [IUserRepository],
    [IOtpRepository] and [IRefreshTokenRepository]; their implementations are
    not part of the sources at hand.  Each is a table of rows with the
    read/write contract of the specification. *)

(** Modelled from the spec: the write of an [update] in the missing
    repositories; every row with the identity of [a] becomes [a]. *)
Definition replace_where {A : Type} (same : A -> bool) (a : A) (l : list A)
  : list A :=
  map (fun x => if same x then a else x) l.

Module UserRepository.

(** Modelled from the spec: [findById(id) -> User?] of the missing user
    repository. *)
Definition findById (id : string) : M (option User.t) :=
  gets (fun w => find (fun u => String.eqb (User.id u) id) (users w)).

(** Modelled from the spec: [update(User) -> User] of the missing user
    repository. *)
Definition update (u : User.t) : M User.t :=
  modify (fun w =>
    set_users
      (replace_where (fun x => String.eqb (User.id x) (User.id u)) u (users w))
      w) ;;
  ret u.

End UserRepository.

Module OtpRepository.

(** Modelled from the spec: [create(Otp)] of the missing one-time-password
    repository; the newest row comes first. *)
Definition create (o : Otp.t) : M Otp.t :=
  modify (fun w => set_otps (o :: otps w) w) ;;
  ret o.

(** Modelled from the spec: [findByUserId(id) -> Otp?] of the missing
    repository; among several rows of a user the last written wins. *)
Definition findByUserId (userId : string) : M (option Otp.t) :=
  gets (fun w => find (fun o => String.eqb (Otp.userId o) userId) (otps w)).

(** Modelled from the spec: [update(Otp)] of the missing repository. *)
Definition update (o : Otp.t) : M Otp.t :=
  modify (fun w =>
    set_otps
      (replace_where (fun x => String.eqb (Otp.id x) (Otp.id o)) o (otps w))
      w) ;;
  ret o.

End OtpRepository.

Module RefreshTokenRepository.

Definition has_token (token : string) (r : RefreshToken.t) : bool :=
  String.eqb (RefreshToken.token r) token.

Definition owned_by (userId : string) (r : RefreshToken.t) : bool :=
  String.eqb (RefreshToken.userId r) userId.

(** Modelled from the spec: [create(RefreshToken)] of the missing ledger
    repository.  Token values are globally unique: a second row with a
    value already stored is refused by the store. *)
Definition create (r : RefreshToken.t) : M RefreshToken.t :=
  rows <- gets refreshTokens ;;
  if existsb (has_token (RefreshToken.token r)) rows
  then throw (StoreFailure "unique:token")
  else
    modify (set_refreshTokens (rows ++ [r])%list) ;;
    ret r.

(** Modelled from the spec: [findByToken(value) -> RefreshToken?] of the
    missing repository. *)
Definition findByToken (token : string) : M (option RefreshToken.t) :=
  gets (fun w => find (has_token token) (refreshTokens w)).

(** Modelled from the spec: [deleteByUserId(id)] of the missing repository
    deletes every row the user owns. *)
Definition deleteByUserId (userId : string) : M unit :=
  modify (fun w =>
    set_refreshTokens
      (filter (fun r => negb (owned_by userId r)) (refreshTokens w)) w).

(** Modelled from the spec: [update(RefreshToken)] of the missing
    repository. *)
Definition update (r : RefreshToken.t) : M RefreshToken.t :=
  modify (fun w =>
    set_refreshTokens
      (replace_where
         (fun x => String.eqb (RefreshToken.id x) (RefreshToken.id r)) r
         (refreshTokens w))
      w) ;;
  ret r.

End RefreshTokenRepository.

(** ** [AuthService] *)

Module AuthService.

Record OtpConfig : Type := mkOtpConfig {
  secret : option string;
  expiration : Z;
  step : Z;
  digits : Z
}.

(** The getter [otpConfig], over the configuration it reads. *)
Definition otpConfig (configService : Config) : OtpConfig :=
  mkOtpConfig (OTP_SECRET configService)
              (get (OTP_EXPIRATION configService) 5)
              (get (OTP_STEP configService) 30)
              (get (OTP_DIGITS configService) 6).

Record TokenConfig : Type := mkTokenConfig {
  refreshExpiration : Js.number
}.

(** The getter [tokenConfig]. *)
Definition tokenConfig (configService : Config) : TokenConfig :=
  mkTokenConfig
    (Js.parseInt
       (Js.remove_first "d" (get (JWT_REFRESH_EXPIRATION configService) "7d"))).

(** The options object both verifications hand to [speakeasy.totp.verify]:
    secret, encoding, token, step and digits, and no window. *)
Definition verify_options (secret' token : string) (c : OtpConfig)
  : Speakeasy.options :=
  Speakeasy.mkOptions secret' (Some Speakeasy.EncBase32) token
                      (Some (step c)) (Some (digits c)) None.

Definition verifyOtp (userId token : string) : M bool :=
  user <- UserRepository.findById userId ;;
  match user with
  | None => throw (EntityNotFoundException "User" (Some userId))
  | Some _ =>
      otp <- OtpRepository.findByUserId userId ;;
      match otp with
      | None => throw (EntityNotFoundException "OTP" None)
      | Some otp =>
          t <- now ;;
          if Otp.isExpired t otp then throw OtpExpiredException
          else
            configService <- gets config ;;
            t <- now ;;
            let isValid :=
              Speakeasy.totp_verify
                (verify_options (Otp.secret otp) token (otpConfig configService))
                t in
            if isValid then
              let otp := Otp.markAsVerified otp in
              OtpRepository.update otp ;;
              ret true
            else throw OtpInvalidException
      end
  end.

Definition verifyTwoFactorToken (userId token : string) : M bool :=
  user <- UserRepository.findById userId ;;
  match user with
  | None => throw (EntityNotFoundException "User" (Some userId))
  | Some user =>
      if negb (User.otpEnabled user) || Js.falsy (User.otpSecret user)
      then throw (AuthenticationException
                    "Two-factor authentication is not enabled for this user")
      else
        configService <- gets config ;;
        t <- now ;;
        let isValid :=
          Speakeasy.totp_verify
            (verify_options (Js.string_of (User.otpSecret user)) token
                            (otpConfig configService))
            t in
        if negb isValid then throw OtpInvalidException
        else ret true
  end.

Definition disableTwoFactorAuth (userId : string) : M User.t :=
  user <- UserRepository.findById userId ;;
  match user with
  | None => throw (EntityNotFoundException "User" (Some userId))
  | Some user =>
      let user := User.disableOtp user in
      UserRepository.update user
  end.

Definition createRefreshToken (userId token : string) : M RefreshToken.t :=
  RefreshTokenRepository.deleteByUserId userId ;;
  configService <- gets config ;;
  id <- newId ;;
  t <- now ;;
  let refreshToken :=
    RefreshToken.new id t userId token
                     (refreshExpiration (tokenConfig configService)) in
  RefreshTokenRepository.create refreshToken.

Definition validateRefreshToken (token : string) : M RefreshToken.t :=
  refreshToken <- RefreshTokenRepository.findByToken token ;;
  match refreshToken with
  | None => throw (AuthenticationException "Invalid refresh token")
  | Some refreshToken =>
      t <- now ;;
      if RefreshToken.isExpired t refreshToken
      then throw (AuthenticationException "Refresh token has expired")
      else if RefreshToken.isRevoked refreshToken
      then throw (AuthenticationException "Refresh token has been revoked")
      else ret refreshToken
  end.

Definition revokeRefreshToken (token : string) : M unit :=
  refreshToken <- RefreshTokenRepository.findByToken token ;;
  match refreshToken with
  | None => throw (AuthenticationException "Invalid refresh token")
  | Some refreshToken =>
      if RefreshToken.isRevoked refreshToken then ret tt
      else
        let refreshToken := RefreshToken.revoke refreshToken in
        RefreshTokenRepository.update refreshToken ;;
        ret tt
  end.

Definition revokeAllRefreshTokens (userId : string) : M unit :=
  user <- UserRepository.findById userId ;;
  match user with
  | None => throw (EntityNotFoundException "User" (Some userId))
  | Some _ => RefreshTokenRepository.deleteByUserId userId
  end.

Definition updateLastLogin (userId : string) : M User.t :=
  user <- UserRepository.findById userId ;;
  match user with
  | None => throw (EntityNotFoundException "User" (Some userId))
  | Some user =>
      t <- now ;;
      let user := User.updateLastLogin t user in
      UserRepository.update user
  end.

End AuthService.

(** ** [PermissionRepository] over the Prisma client *)

(** The [prisma.permission] delegate: the calls the repository makes, on the
    table of the world.  A query that finds no row answers [null] or the
    empty list; [create], [update] and [delete] throw a known request error
    (its code kept in [StoreFailure]) when a unique field is taken or the row
    to change does not exist. *)
Module PrismaPermission.

Definition has_id (id : string) (r : PermissionRecord.t) : bool :=
  String.eqb (PermissionRecord.id r) id.

Definition has_name (name : string) (r : PermissionRecord.t) : bool :=
  String.eqb (PermissionRecord.name r) name.

Definition has_resource (resource : string) (r : PermissionRecord.t) : bool :=
  String.eqb (PermissionRecord.resource r) resource.

(** [findUnique({ where: { id } })]. *)
Definition findUnique_id (id : string) : M (option PermissionRecord.t) :=
  gets (fun w => find (has_id id) (permissions w)).

(** [findUnique({ where: { name } })]. *)
Definition findUnique_name (name : string) : M (option PermissionRecord.t) :=
  gets (fun w => find (has_name name) (permissions w)).

(** [findMany()]. *)
Definition findMany : M (list PermissionRecord.t) := gets permissions.

(** [findMany({ where: { resource } })]. *)
Definition findMany_resource (resource : string)
  : M (list PermissionRecord.t) :=
  gets (fun w => filter (has_resource resource) (permissions w)).

(** [create({ data })]: the row is stamped with the clock. *)
Definition create (id name description resource action : string)
  : M PermissionRecord.t :=
  rows <- gets permissions ;;
  if existsb (has_id id) rows || existsb (has_name name) rows
  then throw (StoreFailure "P2002")
  else
    t <- now ;;
    let row := PermissionRecord.mk id name description resource action t t in
    modify (set_permissions (rows ++ [row])%list) ;;
    ret row.

(** [update({ where: { id }, data })]. *)
Definition update (id name description resource action : string)
  : M PermissionRecord.t :=
  rows <- gets permissions ;;
  match find (has_id id) rows with
  | None => throw (StoreFailure "P2025")
  | Some old =>
      if existsb (fun r => has_name name r && negb (has_id id r)) rows
      then throw (StoreFailure "P2002")
      else
        t <- now ;;
        let row :=
          PermissionRecord.mk id name description resource action
                              (PermissionRecord.createdAt old) t in
        modify (set_permissions (replace_where (has_id id) row rows)) ;;
        ret row
  end.

(** [delete({ where: { id } })]. *)
Definition delete (id : string) : M PermissionRecord.t :=
  rows <- gets permissions ;;
  match find (has_id id) rows with
  | None => throw (StoreFailure "P2025")
  | Some old =>
      modify (set_permissions (filter (fun r => negb (has_id id r)) rows)) ;;
      ret old
  end.

End PrismaPermission.

Module PermissionRepository.

Definition mapToModel (record : PermissionRecord.t) : Permission.t :=
  let permission :=
    Permission.new (PermissionRecord.name record)
                   (PermissionRecord.description record)
                   (PermissionRecord.resource record)
                   (PermissionRecord.action record) in
  let permission := Permission.set_id (PermissionRecord.id record) permission in
  let permission :=
    Permission.set_createdAt (PermissionRecord.createdAt record) permission in
  let permission :=
    Permission.set_updatedAt (PermissionRecord.updatedAt record) permission in
  permission.

Definition findById (id : string) : M (option Permission.t) :=
  permissionRecord <- PrismaPermission.findUnique_id id ;;
  match permissionRecord with
  | None => ret None
  | Some permissionRecord => ret (Some (mapToModel permissionRecord))
  end.

Definition findByName (name : string) : M (option Permission.t) :=
  permissionRecord <- PrismaPermission.findUnique_name name ;;
  match permissionRecord with
  | None => ret None
  | Some permissionRecord => ret (Some (mapToModel permissionRecord))
  end.

Definition findAll : M (list Permission.t) :=
  permissionRecords <- PrismaPermission.findMany ;;
  ret (map mapToModel permissionRecords).

Definition findByResource (resource : string) : M (list Permission.t) :=
  permissionRecords <- PrismaPermission.findMany_resource resource ;;
  ret (map mapToModel permissionRecords).

Definition create (permission : Permission.t) : M Permission.t :=
  createdPermission <-
    PrismaPermission.create (Permission.id permission)
      (Permission.name permission) (Permission.description permission)
      (Permission.resource permission) (Permission.action permission) ;;
  ret (mapToModel createdPermission).

Definition update (permission : Permission.t) : M Permission.t :=
  updatedPermission <-
    PrismaPermission.update (Permission.id permission)
      (Permission.name permission) (Permission.description permission)
      (Permission.resource permission) (Permission.action permission) ;;
  ret (mapToModel updatedPermission).

Definition delete (id : string) : M bool :=
  try_catch
    (PrismaPermission.delete id ;;
     ret true)
    (fun error => ret false).

End PermissionRepository.

(** ** [JwtStrategy] *)

Module JwtStrategy.

(** The decoded token handed to [validate] ([payload: any]): its subject
    and whatever other claims it carries. *)
Record Payload : Type := mkPayload {
  sub : string;
  claims : list (string * string)
}.

Definition validate (payload : Payload) : M Payload :=
  user <- UserRepository.findById (sub payload) ;;
  match user with
  | None =>
      throw (UnauthorizedException "User no longer active or not found")
  | Some user =>
      if negb (User.isActive user)
      then throw (UnauthorizedException "User no longer active or not found")
      else ret payload
  end.

End JwtStrategy.

(** ** Running a method *)

(** What a call answers, and the world it leaves. *)
Definition outcome {A : Type} (m : M A) (w : World) : result A := fst (m w).

Definition after {A : Type} (m : M A) (w : World) : World := snd (m w).

(** The rows of the ledger a user owns. *)
Definition owned (userId : string) (w : World) : list RefreshToken.t :=
  filter (RefreshTokenRepository.owned_by userId) (refreshTokens w).

(** At most one refresh token per user. *)
Definition single_session (w : World) : Prop :=
  forall userId, (List.length (owned userId w) <= 1)%nat.

(** The local [isValid] of both verifications: what [speakeasy.totp.verify]
    answers for a secret and a presented token, under the configuration and
    at the clock of the world. *)
Definition isValid (w : World) (secret token : string) : bool :=
  Speakeasy.totp_verify
    (AuthService.verify_options secret token (AuthService.otpConfig (config w)))
    (clock w).

(** The code of a counter for a secret, under the configuration of the
    world: what [speakeasy.hotp] computes with the options of the
    verification. *)
Definition code_at (w : World) (secret : string) (counter : Z) : string :=
  Speakeasy.hotp
    (AuthService.verify_options secret "" (AuthService.otpConfig (config w)))
    counter.

(** The counter of the time step the clock of the world is in. *)
Definition current_counter (w : World) : Z :=
  Speakeasy.totp_counter
    (AuthService.verify_options "" "" (AuthService.otpConfig (config w)))
    (clock w).

(** A string of decimal digits. *)
Fixpoint all_digits (s : string) : bool :=
  match s with
  | EmptyString => true
  | String c s' => Js.is_digit c && all_digits s'
  end.

(** The value of a string of decimal digits read after the value [a]. *)
Fixpoint decimal_value (a : Z) (s : string) : Z :=
  match s with
  | EmptyString => a
  | String c s' => decimal_value (10 * a + Js.digit_value c) s'
  end.

(** *** The ledger over time

    What may happen to the ledger between two instants: one of the methods
    of [AuthService] that write it, or anything else, which leaves its rows
    and the supply of identifiers alone (the other methods, the clock, the
    other tables). *)
Inductive ledger_step : World -> World -> Prop :=
| step_create (userId token : string) (w : World) :
    ledger_step w (after (AuthService.createRefreshToken userId token) w)
| step_revoke (token : string) (w : World) :
    ledger_step w (after (AuthService.revokeRefreshToken token) w)
| step_revoke_all (userId : string) (w : World) :
    ledger_step w (after (AuthService.revokeAllRefreshTokens userId) w)
| step_other (w w' : World) :
    refreshTokens w' = refreshTokens w ->
    nextId w' = nextId w ->
    ledger_step w w'.

(** The worlds reached from an empty ledger. *)
Inductive ledger_reachable : World -> Prop :=
| reachable_empty (w : World) :
    refreshTokens w = [] -> 0 <= nextId w -> ledger_reachable w
| reachable_step (w w' : World) :
    ledger_reachable w -> ledger_step w w' -> ledger_reachable w'.

(** What the ledger keeps besides the single session: identifiers name one
    owner, and were all drawn from the supply. *)
Definition ledger_ok (w : World) : Prop :=
  single_session w
  /\ (forall x y,
        In x (refreshTokens w) -> In y (refreshTokens w) ->
        RefreshToken.id x = RefreshToken.id y ->
        RefreshToken.userId x = RefreshToken.userId y)
  /\ 0 <= nextId w
  /\ (forall x,
        In x (refreshTokens w) ->
        exists n, 0 <= n < nextId w /\ RefreshToken.id x = Js.to_decimal n).

(** ** Sample worlds

    Concrete worlds on which the methods are evaluated.  The secret is the
    key of the test vectors of RFC 4226 ("12345678901234567890" in base32),
    whose codes for the counters 0, 1 and 2 are 755224, 287082 and 359152. *)

Definition default_config : Config := mkConfig None None None None None.

Definition rfc_secret : string := "GEZDGNBVGY3TQOJQGEZDGNBVGY3TQOJQ".

Definition alice : User.t :=
  User.mk "u1" "alice@example.com" true (Some rfc_secret) true None.

Definition bob : User.t :=
  User.mk "u2" "bob@example.com" false None false None.

(** A one-time password issued to [alice] at time 0, good for five
    minutes. *)
Definition alice_otp : Otp.t := Otp.mk "o1" "u1" rfc_secret 0 300000 false.

(** 59 seconds after the epoch: the second time step of thirty seconds
    (counter 1), well before the one-time password expires. *)
Definition skew_world : World :=
  mkWorld 59000 default_config [alice; bob] [alice_otp] [] [] 2.

(** Six minutes after the epoch: the one-time password has expired. *)
Definition late_world : World := set_clock 360000 skew_world.

Definition token_1 : RefreshToken.t :=
  RefreshToken.mk "r1" "u1" "tok-1" (Js.Num 5000) false 0.

Definition token_2 : RefreshToken.t :=
  RefreshToken.mk "r2" "u1" "tok-2" (Js.Num 2000) true 0.

Definition token_b : RefreshToken.t :=
  RefreshToken.mk "r3" "u2" "tok-b" (Js.Num 604800000) false 0.

(** A ledger in which [u1] owns two tokens and [u2] one, and a users table
    that is empty. *)
Definition ledger_world : World :=
  mkWorld 1000 default_config [] [] [token_1; token_2; token_b] [] 7.

(** A world whose ledger is still empty. *)
Definition fresh_world : World :=
  mkWorld 0 default_config [alice; bob] [] [] [] 0.

Definition token_3 : RefreshToken.t :=
  RefreshToken.mk "7" "u1" "tok-3" (Js.Num 604801000) false 1000.

Definition token_4 : RefreshToken.t :=
  RefreshToken.mk "8" "u1" "tok-4" (Js.Num 604802000) false 2000.

Definition ledger_world_3 : World :=
  mkWorld 1000 default_config [] [] [token_b; token_3] [] 8.

Definition ledger_world_4 : World :=
  mkWorld 2000 default_config [] [] [token_b; token_4] [] 9.

Definition read_users : PermissionRecord.t :=
  PermissionRecord.mk "p1" "users:read" "Read users" "users" "read" 10 10.

Definition write_users : PermissionRecord.t :=
  PermissionRecord.mk "p2" "users:write" "Write users" "users" "write" 20 20.

Definition catalog_world : World :=
  mkWorld 1000 default_config [] [] [] [read_users; write_users] 0.

Definition alice_payload : JwtStrategy.Payload :=
  JwtStrategy.mkPayload "u1" [("email", "alice@example.com")].

Definition bob_payload : JwtStrategy.Payload :=
  JwtStrategy.mkPayload "u2" [("email", "bob@example.com")].

Definition ghost_payload : JwtStrategy.Payload :=
  JwtStrategy.mkPayload "u9" [].

(** ** The rest of the sources

    The methods of [AuthService] that draw a secret, the command handler
    that calls the service, and the [Password] value object. *)

(** *** Calls into libraries that may throw an error of their own *)

(** What a method answers when a library under it can throw: a value, one
    of the exceptions of the sources, or the library's own error. *)
Inductive reply (A : Type) : Type :=
| Returned (a : A)
| Rejected (e : exn)
| Crashed (error : string).

Arguments Returned {A} a.
Arguments Rejected {A} e.
Arguments Crashed {A} error.

Definition Task (A : Type) : Type := World -> reply A * World.

Definition lift {A : Type} (m : M A) : Task A :=
  fun w =>
    match m w with
    | (Ok a, w') => (Returned a, w')
    | (Throw e, w') => (Rejected e, w')
    end.

Definition task_ret {A : Type} (a : A) : Task A := fun w => (Returned a, w).

Definition task_reject {A : Type} (e : exn) : Task A :=
  fun w => (Rejected e, w).

Definition task_crash {A : Type} (error : string) : Task A :=
  fun w => (Crashed error, w).

Definition task_bind {A B : Type} (m : Task A) (k : A -> Task B) : Task B :=
  fun w =>
    match m w with
    | (Returned a, w') => k a w'
    | (Rejected e, w') => (Rejected e, w')
    | (Crashed error, w') => (Crashed error, w')
    end.

Declare Scope task_scope.
Delimit Scope task_scope with task.

Notation "x <- m ;; k" := (task_bind m (fun x => k))
  (at level 100, m at next level, right associativity) : task_scope.
Notation "m ;; k" := (task_bind m (fun _ => k))
  (at level 100, right associativity) : task_scope.

(** What a task answers, and the world it leaves. *)
Definition answer {A : Type} (m : Task A) (w : World) : reply A := fst (m w).

Definition left_by {A : Type} (m : Task A) (w : World) : World := snd (m w).

(** *** Code generation by [speakeasy] *)

Module SpeakeasyCodes.

(** [s.substr(1)]: the string without its first character. *)
Definition tail (s : string) : string :=
  match s with
  | EmptyString => EmptyString
  | String _ s' => s'
  end.

(** [speakeasy.hotp] on every number of digits: [new Array(digits + 1)]
    throws a [RangeError] when [digits + 1] is negative ([None]); with
    [digits = -1] nothing is padded and [substr(1)] drops the first digit;
    otherwise the code is [Speakeasy.hotp]. *)
Definition hotp (o : Speakeasy.options) (counter : Z) : option string :=
  let digits := Speakeasy.hotp_digits o in
  if digits + 1 <? 0 then None
  else if digits =? -1
  then Some (tail (Js.to_decimal
                     (Speakeasy.truncate (Speakeasy.digest o counter))))
  else Some (Speakeasy.hotp o counter).

(** [speakeasy.totp(options)]: the code of the step the clock is in. *)
Definition totp (o : Speakeasy.options) (now : Z) : option string :=
  hotp o (Speakeasy.totp_counter o now).

(** What [speakeasy.generateSecret] hands back, of which the service reads
    the base32 secret and the provisioning URI.  The secret is drawn at
    random: to the caller it is an input. *)
Record GeneratedSecret : Type := mkGeneratedSecret {
  base32 : string;
  otpauth_url : string
}.

End SpeakeasyCodes.

(** *** [AuthService], the methods that draw a secret *)

Module AuthServiceIssuance.

Import AuthService.

(** The options [generateOtp] hands to [speakeasy.totp]: secret, encoding,
    step and digits; there is no token. *)
Definition totp_options (secret' : string) (c : OtpConfig) : Speakeasy.options :=
  Speakeasy.mkOptions secret' (Some Speakeasy.EncBase32) ""
                      (Some (step c)) (Some (digits c)) None.

(** [generateOtp], given what [speakeasy.generateSecret] drew. *)
Definition generateOtp (generated : SpeakeasyCodes.GeneratedSecret)
           (userId : string) : Task string :=
  (user <- lift (UserRepository.findById userId) ;;
   match user with
   | None => task_reject (EntityNotFoundException "User" (Some userId))
   | Some user =>
       let secret := SpeakeasyCodes.base32 generated in
       configService <- lift (gets config) ;;
       id <- lift newId ;;
       t <- lift now ;;
       let otp :=
         Otp.new id t userId secret (expiration (otpConfig configService)) in
       lift (OtpRepository.create otp) ;;
       t <- lift now ;;
       match SpeakeasyCodes.totp (totp_options secret (otpConfig configService)) t
       with
       | Some code => task_ret code
       | None => task_crash "RangeError"
       end
   end)%task.

Record TwoFactorSetup : Type := mkTwoFactorSetup {
  setup_secret : string;
  qrCodeUrl : string
}.

(** [setupTwoFactorAuth], given what [speakeasy.generateSecret] drew and
    the renderer [QRCode.toDataURL], which answers [None] when it rejects
    its input. *)
Definition setupTwoFactorAuth (generated : SpeakeasyCodes.GeneratedSecret)
           (toDataURL : string -> option string) (userId : string)
  : Task TwoFactorSetup :=
  (user <- lift (UserRepository.findById userId) ;;
   match user with
   | None => task_reject (EntityNotFoundException "User" (Some userId))
   | Some user =>
       let secret := generated in
       let user := User.enableOtp (SpeakeasyCodes.base32 secret) user in
       lift (UserRepository.update user) ;;
       match toDataURL (SpeakeasyCodes.otpauth_url secret) with
       | Some qrCodeUrl =>
           task_ret (mkTwoFactorSetup (SpeakeasyCodes.base32 secret) qrCodeUrl)
       | None => task_crash "QRCode"
       end
   end)%task.

End AuthServiceIssuance.

(** *** [Disable2FACommandHandler] *)

Module Disable2FACommandHandler.

Record Disable2FACommand : Type := mkDisable2FACommand {
  userId : string
}.

(** [execute], over the mapper [UserMapper.toBaseResponse], whose file and
    response type are not part of the sources. *)
Definition execute {UserBaseResponse : Type}
           (toBaseResponse : User.t -> UserBaseResponse)
           (command : Disable2FACommand) : M UserBaseResponse :=
  let userId := userId command in
  user <- AuthService.disableTwoFactorAuth userId ;;
  ret (toBaseResponse user).

End Disable2FACommandHandler.

(** *** [Password] *)

Module Password.

Definition code (c : ascii) : nat := nat_of_ascii c.

(** The character classes of the regular expression. *)
Definition lower (c : ascii) : bool :=
  (97 <=? code c)%nat && (code c <=? 122)%nat.

Definition upper (c : ascii) : bool :=
  (65 <=? code c)%nat && (code c <=? 90)%nat.

Definition digit (c : ascii) : bool :=
  (48 <=? code c)%nat && (code c <=? 57)%nat.

(** [[@$!%*?&]]. *)
Definition special (c : ascii) : bool :=
  existsb (Ascii.eqb c) ["@"; "$"; "!"; "%"; "*"; "?"; "&"]%char.

(** [[A-Za-z\d@$!%*?&]]. *)
Definition allowed (c : ascii) : bool :=
  upper c || lower c || digit c || special c.

(** What [.] does not match: a line terminator. *)
Definition line_terminator (c : ascii) : bool :=
  (code c =? 10)%nat || (code c =? 13)%nat.

(** [(?=.*[class])] at the start of the input: some run of characters that
    are not line terminators, then a character of the class. *)
Fixpoint lookahead (class : ascii -> bool) (s : string) : bool :=
  match s with
  | EmptyString => false
  | String c s' =>
      class c || (negb (line_terminator c) && lookahead class s')
  end.

(** [[A-Za-z\d@$!%*?&]{n,}$] from the start of the input: allowed
    characters up to the end, at least [n] of them. *)
Fixpoint body (n : nat) (s : string) : bool :=
  match s with
  | EmptyString => (n =? 0)%nat
  | String c s' => allowed c && body (Nat.pred n) s'
  end.

(** [passwordRegex.test(password)]. *)
Definition isValid (password : string) : bool :=
  lookahead lower password
  && lookahead upper password
  && lookahead digit password
  && lookahead special password
  && body 8 password.

Record t : Type := mk {
  value : string
}.

Definition message : string :=
  "Password must be at least 8 characters long and include at least one uppercase letter, one lowercase letter, one number, and one special character".

(** The constructor: [inl] is the [Error] it throws. *)
Definition new (password : string) : string + t :=
  if negb (isValid password) then inl message
  else inr (mk password).

Definition getValue (p : t) : string := value p.

End Password.

(** A character of a class occurs in the string. *)
Fixpoint occurs (class : ascii -> bool) (s : string) : bool :=
  match s with
  | EmptyString => false
  | String c s' => class c || occurs class s'
  end.

(** Every character of the string is of the class. *)
Fixpoint every (class : ascii -> bool) (s : string) : bool :=
  match s with
  | EmptyString => true
  | String c s' => class c && every class s'
  end.

(** *** The catalog over time *)

(** The row [create] writes for a permission, stamped at a time. *)
Definition row_of (p : Permission.t) (t : Z) : PermissionRecord.t :=
  PermissionRecord.mk (Permission.id p) (Permission.name p)
                      (Permission.description p) (Permission.resource p)
                      (Permission.action p) t t.

(** What the repository may do to the catalog between two instants. *)
Inductive catalog_step : World -> World -> Prop :=
| catalog_create (p : Permission.t) (w : World) :
    catalog_step w (after (PermissionRepository.create p) w)
| catalog_update (p : Permission.t) (w : World) :
    catalog_step w (after (PermissionRepository.update p) w)
| catalog_delete (id : string) (w : World) :
    catalog_step w (after (PermissionRepository.delete id) w)
| catalog_other (w w' : World) :
    permissions w' = permissions w -> catalog_step w w'.

Inductive catalog_reachable : World -> Prop :=
| catalog_empty (w : World) : permissions w = [] -> catalog_reachable w
| catalog_next (w w' : World) :
    catalog_reachable w -> catalog_step w w' -> catalog_reachable w'.

(** No two rows of the catalog share an id, and no two share a name. *)
Definition catalog_unique (w : World) : Prop :=
  NoDup (map PermissionRecord.id (permissions w))
  /\ NoDup (map PermissionRecord.name (permissions w)).

(** *** More sample data *)

Definition generated_secret : SpeakeasyCodes.GeneratedSecret :=
  SpeakeasyCodes.mkGeneratedSecret rfc_secret
    "otpauth://totp/App%3Aalice%40example.com?secret=GEZDGNBVGY3TQOJQGEZDGNBVGY3TQOJQ".

(** A renderer that answers a data URL for every input. *)
Definition sample_renderer (text : string) : option string :=
  Some ("data:image/png;base64," ++ text)%string.

(** A world in which [alice] has not enrolled and holds no one-time
    password. *)
Definition plain_alice : User.t :=
  User.mk "u1" "alice@example.com" false None true None.

Definition plain_world : World :=
  mkWorld 59000 default_config [plain_alice; bob] [] [] [] 0.

Definition manage_roles : Permission.t :=
  Permission.mk "p3" "roles:manage" "Manage roles" "roles" "manage" 0 0.

(** Fifteen minutes after the epoch, in the step of counter 30, whose code
    for the RFC key is 026920; [alice] holds a one-time password issued
    then. *)
Definition late_otp : Otp.t :=
  Otp.mk "o2" "u1" rfc_secret 900000 1200000 false.

Definition padded_world : World :=
  mkWorld 900000 default_config [alice; bob] [late_otp] [] [] 3.

(** The five digits 26920 after U+00A0 (no-break space, two bytes) and after
    U+3000 (ideographic space, three bytes). *)
Definition nbsp_token : string :=
  String (ascii_of_nat 194) (String (ascii_of_nat 160) "26920").

Definition ideographic_space_token : string :=
  String (ascii_of_nat 227)
    (String (ascii_of_nat 128) (String (ascii_of_nat 128) "26920")).

(** Unfolding one step of a method at a given world. *)
Ltac step :=
  unfold outcome, after, bind, gets, modify, ret, throw, try_catch, now; simpl.

(** * Properties *)

(** ** Tables *)

Section Tables.

Context {A : Type}.
Variables (p same : A -> bool).

(** After an update by identity, a query that found the old row finds the
    new one, whenever the new row still answers the query. *)
Lemma find_replace_where (old new : A) (l : list A) :
  find p l = Some old ->
  same old = true ->
  p new = true ->
  find p (replace_where same new l) = Some new.
Proof.
  intros Hfind Hsame Hnew.
  induction l as [|a l IH]; simpl in *.
  - discriminate.
  - destruct (p a) eqn:Hpa.
    + injection Hfind as ->. rewrite Hsame, Hnew. reflexivity.
    + destruct (same a).
      * rewrite Hnew. reflexivity.
      * rewrite Hpa. auto.
Qed.

Lemma find_none_existsb (l : list A) :
  find p l = None <-> existsb p l = false.
Proof.
  induction l as [|a l IH]; simpl.
  - split; reflexivity.
  - destruct (p a); simpl.
    + split; discriminate.
    + exact IH.
Qed.

Lemma find_some_holds (l : list A) (a : A) :
  find p l = Some a -> p a = true.
Proof.
  intros H. apply find_some in H. exact (proj2 H).
Qed.

Lemma existsb_filter_negb (l : list A) :
  existsb p (filter (fun x => negb (p x)) l) = false.
Proof.
  induction l as [|a l IH]; simpl.
  - reflexivity.
  - destruct (p a) eqn:Hpa; simpl.
    + exact IH.
    + rewrite Hpa. exact IH.
Qed.

End Tables.

(** ** One-time codes *)

Section Codes.

Lemma all_digits_append (s1 s2 : string) :
  all_digits s1 = true -> all_digits s2 = true ->
  all_digits (s1 ++ s2)%string = true.
Proof.
  induction s1 as [|c s1 IH]; simpl.
  - auto.
  - intros H1 H2. apply andb_true_iff in H1. destruct H1 as [Hc H1].
    rewrite Hc. simpl. auto.
Qed.

Lemma all_digits_zeros (n : nat) : all_digits (Js.zeros n) = true.
Proof.
  induction n as [|n IH]; simpl; auto.
Qed.

Lemma is_digit_of_mod (n : Z) :
  Js.is_digit (ascii_of_nat (Z.to_nat (48 + n mod 10))) = true.
Proof.
  assert (H : 0 <= n mod 10 < 10) by (apply Z.mod_pos_bound; lia).
  unfold Js.is_digit.
  rewrite nat_ascii_embedding by lia.
  apply andb_true_iff. split; apply Nat.leb_le; lia.
Qed.

Lemma all_digits_to_decimal_aux (fuel : nat) (n : Z) (acc : string) :
  all_digits acc = true ->
  all_digits (Js.to_decimal_aux fuel n acc) = true.
Proof.
  assert (Hcons : forall m s,
    all_digits s = true ->
    all_digits (String (ascii_of_nat (Z.to_nat (48 + m mod 10))) s) = true).
  { intros m s Hs. cbn [all_digits]. rewrite is_digit_of_mod. exact Hs. }
  revert n acc.
  induction fuel as [|fuel IH]; intros n acc Hacc; cbn [Js.to_decimal_aux].
  - apply Hcons. exact Hacc.
  - destruct (n <? 10).
    + apply Hcons. exact Hacc.
    + apply IH. apply Hcons. exact Hacc.
Qed.

Lemma all_digits_to_decimal (n : Z) : all_digits (Js.to_decimal n) = true.
Proof.
  unfold Js.to_decimal. apply all_digits_to_decimal_aux. reflexivity.
Qed.

Lemma all_digits_drop (k : nat) (s : string) :
  all_digits s = true -> all_digits (Js.drop k s) = true.
Proof.
  revert s.
  induction k as [|k IH]; intros s H; simpl.
  - exact H.
  - destruct s as [|c s]; simpl in *.
    + reflexivity.
    + apply andb_true_iff in H. apply IH. tauto.
Qed.

Lemma length_drop (k : nat) (s : string) :
  String.length (Js.drop k s) = (String.length s - k)%nat.
Proof.
  revert s.
  induction k as [|k IH]; intros s; simpl.
  - lia.
  - destruct s as [|c s]; simpl.
    + reflexivity.
    + apply IH.
Qed.

Lemma length_zeros (n : nat) : String.length (Js.zeros n) = n.
Proof.
  induction n as [|n IH]; simpl; auto.
Qed.

Lemma length_string_append (s1 s2 : string) :
  String.length (s1 ++ s2)%string
  = (String.length s1 + String.length s2)%nat.
Proof.
  induction s1 as [|c s1 IH]; simpl; auto.
Qed.

(** A code has as many characters as [hotp] was asked for, all of them
    digits. *)
Lemma hotp_shape (o : Speakeasy.options) (counter : Z) :
  String.length (Speakeasy.hotp o counter) = Z.to_nat (Speakeasy.hotp_digits o)
  /\ all_digits (Speakeasy.hotp o counter) = true.
Proof.
  unfold Speakeasy.hotp, Js.last_chars. split.
  - rewrite length_drop, length_string_append, length_zeros. lia.
  - apply all_digits_drop, all_digits_append.
    + apply all_digits_zeros.
    + apply all_digits_to_decimal.
Qed.

(** A string of digits has one code unit to the byte. *)
Lemma length_of_digits (s : string) :
  all_digits s = true -> Js.length s = String.length s.
Proof.
  induction s as [|c s IH]; simpl.
  - reflexivity.
  - intros H. apply andb_true_iff in H. destruct H as [Hc Hs].
    rewrite (IH Hs). f_equal.
    destruct c as [[] [] [] [] [] [] [] []]; try discriminate Hc; reflexivity.
Qed.

Lemma digits_prefix_some (s : string) (a : Z) :
  exists v, Js.digits_prefix (Some a) s = Some v.
Proof.
  revert a.
  induction s as [|c s IH]; intros a; simpl.
  - eauto.
  - destruct (Js.is_digit c); eauto.
Qed.

(** [parseInt] of a string that starts with a digit is a number. *)
Lemma parseInt_digit (c : ascii) (s : string) :
  Js.is_digit c = true -> exists v, Js.parseInt (String c s) = Js.Num v.
Proof.
  intros Hc.
  assert (Hsp : Js.is_space c = false).
  { destruct c as [[] [] [] [] [] [] [] []]; try discriminate Hc; reflexivity. }
  unfold Js.parseInt. simpl Js.skip_spaces. rewrite Hsp.
  destruct (digits_prefix_some s (10 * 0 + Js.digit_value c)) as [v Hv].
  destruct c as [[] [] [] [] [] [] [] []]; try discriminate Hc;
    simpl in Hv |- *; rewrite Hv; eauto.
Qed.

Lemma strict_eq_true (a b : Js.number) :
  Js.strict_eq a b = true <-> exists v, a = Js.Num v /\ b = Js.Num v.
Proof.
  destruct a as [|x], b as [|y]; simpl; split;
    try discriminate; try (intros (v & H1 & H2); discriminate).
  - intros H. apply Z.eqb_eq in H. subst. eauto.
  - intros (v & H1 & H2). injection H1 as ->. injection H2 as ->.
    apply Z.eqb_refl.
Qed.

(** [speakeasy.totp.verify] as [AuthService] calls it, without a window:
    the token must have the configured number of characters and parse to
    the integer the code of the current step parses to.  No other counter
    is tried. *)
Lemma totp_verify_without_window
      (secret token : string) (c : AuthService.OtpConfig) (t : Z) :
  Speakeasy.totp_verify (AuthService.verify_options secret token c) t
  = (Z.of_nat (Js.length token)
     =? Js.or_default (Js.Num (AuthService.digits c)) 6)
    && Js.strict_eq
         (Js.parseInt
            (Speakeasy.hotp (AuthService.verify_options secret "" c)
               (Speakeasy.totp_counter
                  (AuthService.verify_options "" "" c) t)))
         (Js.parseInt token).
Proof.
  unfold Speakeasy.totp_verify, Speakeasy.totp_verifyDelta,
    Speakeasy.hotp_verifyDelta.
  cbn [AuthService.verify_options Speakeasy.window Speakeasy.digits
       Speakeasy.token Js.or_default].
  change (Z.to_nat (0 + 1)) with 1%nat.
  cbn [Speakeasy.scan].
  rewrite Z.sub_0_r.
  change (Speakeasy.totp_counter (AuthService.verify_options secret token c) t)
    with (Speakeasy.totp_counter (AuthService.verify_options "" "" c) t).
  change (Speakeasy.hotp (AuthService.verify_options secret token c))
    with (Speakeasy.hotp (AuthService.verify_options secret "" c)).
  destruct (Z.of_nat (Js.length token) =? _); simpl.
  - destruct (Js.parseInt token) as [|v]; simpl.
    + destruct (Js.parseInt _); reflexivity.
    + destruct (Js.strict_eq _ _); reflexivity.
  - reflexivity.
Qed.

(** The code of the current step, presented as it was computed, is
    valid. *)
Lemma totp_verify_current
      (secret : string) (c : AuthService.OtpConfig) (t : Z) :
  0 <= AuthService.digits c ->
  Speakeasy.totp_verify
    (AuthService.verify_options secret
       (Speakeasy.hotp (AuthService.verify_options secret "" c)
          (Speakeasy.totp_counter (AuthService.verify_options "" "" c) t))
       c) t
  = true.
Proof.
  intros Hd.
  rewrite totp_verify_without_window.
  set (o := AuthService.verify_options secret "" c).
  set (code := Speakeasy.hotp o _).
  destruct (hotp_shape o (Speakeasy.totp_counter
                            (AuthService.verify_options "" "" c) t))
    as [Hlen Hdig].
  fold code in Hlen, Hdig.
  assert (Hn : Speakeasy.hotp_digits o
               = Js.or_default (Js.Num (AuthService.digits c)) 6)
    by reflexivity.
  assert (Hpos : 0 < Js.or_default (Js.Num (AuthService.digits c)) 6).
  { simpl. destruct (Z.eqb_spec (AuthService.digits c) 0); lia. }
  apply andb_true_iff. split.
  - rewrite (length_of_digits code Hdig), Hlen, Hn. apply Z.eqb_eq. lia.
  - destruct code as [|ch rest] eqn:Hcode.
    + simpl in Hlen. rewrite Hn in Hlen. lia.
    + simpl in Hdig. apply andb_true_iff in Hdig.
      destruct (parseInt_digit ch rest (proj1 Hdig)) as [v Hv].
      rewrite Hv. simpl. apply Z.eqb_refl.
Qed.

(** *** Identifiers drawn from the supply are distinct *)

Lemma decimal_value_shift (s : string) (a : Z) :
  decimal_value a s
  = a * 10 ^ Z.of_nat (String.length s) + decimal_value 0 s.
Proof.
  revert a.
  induction s as [|c s IH]; intros a.
  - simpl. lia.
  - cbn [decimal_value String.length].
    rewrite IH, (IH (10 * 0 + Js.digit_value c)).
    rewrite Nat2Z.inj_succ, Z.pow_succ_r by lia. ring.
Qed.

Lemma digit_value_of_mod (n : Z) :
  Js.digit_value (ascii_of_nat (Z.to_nat (48 + n mod 10))) = n mod 10.
Proof.
  assert (H : 0 <= n mod 10 < 10) by (apply Z.mod_pos_bound; lia).
  unfold Js.digit_value. rewrite nat_ascii_embedding by lia. lia.
Qed.

Lemma decimal_value_to_decimal_aux (fuel : nat) (n : Z) (acc : string) :
  0 <= n < 10 ^ (Z.of_nat fuel + 1) ->
  decimal_value 0 (Js.to_decimal_aux fuel n acc)
  = n * 10 ^ Z.of_nat (String.length acc) + decimal_value 0 acc.
Proof.
  revert n acc.
  induction fuel as [|fuel IH]; intros n acc Hn; cbn [Js.to_decimal_aux].
  - cbn [decimal_value]. rewrite decimal_value_shift, digit_value_of_mod.
    change (Z.of_nat 0 + 1) with 1 in Hn. rewrite Z.pow_1_r in Hn.
    rewrite Z.mod_small by lia. ring.
  - destruct (Z.ltb_spec n 10) as [Hlt|Hge].
    + cbn [decimal_value]. rewrite decimal_value_shift, digit_value_of_mod.
      rewrite Z.mod_small by lia. ring.
    + rewrite IH.
      * cbn [decimal_value String.length].
        rewrite (decimal_value_shift acc), digit_value_of_mod.
        rewrite Nat2Z.inj_succ, Z.pow_succ_r by lia.
        pose proof (Z.div_mod n 10 ltac:(lia)) as Hdm.
        remember (n / 10) as q eqn:Hq. remember (n mod 10) as r eqn:Hr.
        clear Hq Hr IH Hn Hge. subst n. ring.
      * rewrite Nat2Z.inj_succ in Hn.
        replace (Z.succ (Z.of_nat fuel) + 1) with (Z.succ (Z.of_nat fuel + 1))
          in Hn by lia.
        rewrite Z.pow_succ_r in Hn by lia.
        split.
        -- apply Z.div_pos; lia.
        -- apply Z.div_lt_upper_bound; lia.
Qed.

(** Reading back the decimal form of a number gives the number. *)
Lemma decimal_value_to_decimal (n : Z) :
  0 <= n -> decimal_value 0 (Js.to_decimal n) = n.
Proof.
  intros Hn. unfold Js.to_decimal.
  rewrite decimal_value_to_decimal_aux.
  - simpl. lia.
  - split; [exact Hn|].
    destruct (Z.eq_dec n 0) as [->|Hnz].
    + simpl. lia.
    + rewrite Z2Nat.id by apply Z.log2_nonneg.
      assert (Hlog : n < 2 ^ (Z.log2 n + 1)).
      { replace (Z.log2 n + 1) with (Z.succ (Z.log2 n)) by lia.
        apply Z.log2_spec. lia. }
      assert (Hpow : 2 ^ (Z.log2 n + 1) <= 10 ^ (Z.log2 n + 1)).
      { apply Z.pow_le_mono_l. lia. }
      lia.
Qed.

Lemma to_decimal_injective (n m : Z) :
  0 <= n -> 0 <= m -> Js.to_decimal n = Js.to_decimal m -> n = m.
Proof.
  intros Hn Hm Heq.
  rewrite <- (decimal_value_to_decimal n Hn), <- (decimal_value_to_decimal m Hm).
  rewrite Heq. reflexivity.
Qed.

Lemma digits_prefix_all_digits (s : string) (a : Z) :
  all_digits s = true ->
  Js.digits_prefix (Some a) s = Some (decimal_value a s).
Proof.
  revert a.
  induction s as [|c s IH]; intros a; simpl.
  - reflexivity.
  - intros H. apply andb_true_iff in H. destruct H as [Hc Hs].
    rewrite Hc. apply IH. exact Hs.
Qed.

(** [parseInt] reads a string of digits as the number it writes. *)
Lemma parseInt_all_digits (c : ascii) (s : string) :
  Js.is_digit c = true ->
  all_digits s = true ->
  Js.parseInt (String c s) = Js.Num (decimal_value 0 (String c s)).
Proof.
  intros Hc Hs.
  pose proof (digits_prefix_all_digits s (10 * 0 + Js.digit_value c) Hs) as Hv.
  unfold Js.parseInt. cbn [decimal_value].
  destruct c as [[] [] [] [] [] [] [] []]; try discriminate Hc;
    simpl in Hv |- *; rewrite Hv; reflexivity.
Qed.

Lemma digit_value_range (c : ascii) :
  Js.is_digit c = true -> 0 <= Js.digit_value c <= 9.
Proof.
  unfold Js.is_digit, Js.digit_value. intros H.
  apply andb_true_iff in H. destruct H as [H1 H2].
  apply Nat.leb_le in H1. apply Nat.leb_le in H2. lia.
Qed.

Lemma digit_value_injective (c1 c2 : ascii) :
  Js.digit_value c1 = Js.digit_value c2 -> c1 = c2.
Proof.
  unfold Js.digit_value. intros H.
  rewrite <- (ascii_nat_embedding c1), <- (ascii_nat_embedding c2).
  f_equal. lia.
Qed.

Lemma decimal_value_bound (s : string) :
  all_digits s = true ->
  0 <= decimal_value 0 s < 10 ^ Z.of_nat (String.length s).
Proof.
  induction s as [|c s IH]; cbn [all_digits decimal_value String.length].
  - intros _. simpl. lia.
  - intros H. apply andb_true_iff in H. destruct H as [Hc Hs].
    specialize (IH Hs). pose proof (digit_value_range c Hc) as Hd.
    rewrite decimal_value_shift.
    rewrite Nat2Z.inj_succ, Z.pow_succ_r by lia.
    nia.
Qed.

(** Two strings of as many digits that write the same number are the same
    string. *)
Lemma digits_same_value (s1 s2 : string) :
  all_digits s1 = true -> all_digits s2 = true ->
  String.length s1 = String.length s2 ->
  decimal_value 0 s1 = decimal_value 0 s2 ->
  s1 = s2.
Proof.
  revert s2.
  induction s1 as [|c1 s1 IH]; intros [|c2 s2];
    cbn [all_digits decimal_value String.length]; try discriminate.
  - reflexivity.
  - intros H1 H2 Hlen Hval.
    apply andb_true_iff in H1. destruct H1 as [Hc1 Hs1].
    apply andb_true_iff in H2. destruct H2 as [Hc2 Hs2].
    injection Hlen as Hlen.
    rewrite (decimal_value_shift s1), (decimal_value_shift s2) in Hval.
    rewrite Hlen in Hval.
    pose proof (decimal_value_bound s1 Hs1) as B1.
    pose proof (decimal_value_bound s2 Hs2) as B2.
    rewrite Hlen in B1.
    pose proof (digit_value_range c1 Hc1) as D1.
    pose proof (digit_value_range c2 Hc2) as D2.
    set (P := 10 ^ Z.of_nat (String.length s2)) in *.
    assert (Hd : Js.digit_value c1 = Js.digit_value c2) by nia.
    assert (Hv : decimal_value 0 s1 = decimal_value 0 s2) by nia.
    rewrite (digit_value_injective c1 c2 Hd). f_equal. auto.
Qed.

End Codes.

(** ** One-time passwords and two-factor enrolment *)

Section OtpAuthority.

Import AuthService.

(** [verifyOtp] in closed form. *)
Lemma verifyOtp_eq (w : World) (userId token : string) :
  verifyOtp userId token w
  = match find (fun u => String.eqb (User.id u) userId) (users w) with
    | None => (Throw (EntityNotFoundException "User" (Some userId)), w)
    | Some _ =>
        match find (fun o => String.eqb (Otp.userId o) userId) (otps w) with
        | None => (Throw (EntityNotFoundException "OTP" None), w)
        | Some otp =>
            if Otp.isExpired (clock w) otp
            then (Throw OtpExpiredException, w)
            else if isValid w (Otp.secret otp) token
            then (Ok true,
                  set_otps
                    (replace_where
                       (fun x => String.eqb (Otp.id x) (Otp.id otp))
                       (Otp.markAsVerified otp) (otps w))
                    w)
            else (Throw OtpInvalidException, w)
        end
    end.
Proof.
  unfold verifyOtp, UserRepository.findById, OtpRepository.findByUserId,
    OtpRepository.update, isValid.
  unfold now; unfold bind, gets, modify, ret, throw.
  destruct (find _ (users w)); [|reflexivity].
  destruct (find _ (otps w)) as [otp|]; [|reflexivity].
  destruct (Otp.isExpired (clock w) otp); [reflexivity|].
  destruct (Speakeasy.totp_verify _ _); reflexivity.
Qed.

Lemma findByUserId_after_verify (w : World) (userId : string) (otp : Otp.t) :
  find (fun o => String.eqb (Otp.userId o) userId) (otps w) = Some otp ->
  find (fun o => String.eqb (Otp.userId o) userId)
       (replace_where (fun x => String.eqb (Otp.id x) (Otp.id otp))
                      (Otp.markAsVerified otp) (otps w))
  = Some (Otp.markAsVerified otp).
Proof.
  intros H.
  apply find_replace_where with (old := otp).
  - exact H.
  - apply String.eqb_refl.
  - apply find_some_holds in H. exact H.
Qed.

(** C2.  [verifyOtp] throws [EntityNotFoundException] when the user does
    not exist, and when no one-time password is stored for the user; it
    throws [OtpExpiredException] when the stored one is past its expiry,
    whatever the token; before expiry, a token that [speakeasy] accepts
    makes it mark the one-time password verified, write it (the row then
    found for the user is the verified one) and return [true], and a token
    that is not accepted makes it throw [OtpInvalidException]. *)
Theorem verifyOtp_outcomes (w : World) (userId token : string) :
  (outcome (UserRepository.findById userId) w = Ok None ->
   verifyOtp userId token w
   = (Throw (EntityNotFoundException "User" (Some userId)), w))
  /\ (forall user,
       outcome (UserRepository.findById userId) w = Ok (Some user) ->
       outcome (OtpRepository.findByUserId userId) w = Ok None ->
       verifyOtp userId token w
       = (Throw (EntityNotFoundException "OTP" None), w))
  /\ (forall user otp,
       outcome (UserRepository.findById userId) w = Ok (Some user) ->
       outcome (OtpRepository.findByUserId userId) w = Ok (Some otp) ->
       Otp.expiresAt otp < clock w ->
       verifyOtp userId token w = (Throw OtpExpiredException, w))
  /\ (forall user otp,
       outcome (UserRepository.findById userId) w = Ok (Some user) ->
       outcome (OtpRepository.findByUserId userId) w = Ok (Some otp) ->
       clock w <= Otp.expiresAt otp ->
       isValid w (Otp.secret otp) token = true ->
       let w' := after (verifyOtp userId token) w in
       outcome (verifyOtp userId token) w = Ok true
       /\ outcome (OtpRepository.findByUserId userId) w'
          = Ok (Some (Otp.markAsVerified otp))
       /\ Otp.verified (Otp.markAsVerified otp) = true)
  /\ (forall user otp,
       outcome (UserRepository.findById userId) w = Ok (Some user) ->
       outcome (OtpRepository.findByUserId userId) w = Ok (Some otp) ->
       clock w <= Otp.expiresAt otp ->
       isValid w (Otp.secret otp) token = false ->
       verifyOtp userId token w = (Throw OtpInvalidException, w)).
Proof.
  unfold outcome, after. rewrite verifyOtp_eq.
  unfold UserRepository.findById, OtpRepository.findByUserId, gets.
  cbn [fst snd].
  split; [|split; [|split; [|split]]].
  - intros H. injection H as ->. reflexivity.
  - intros user Hu Ho. injection Hu as ->. injection Ho as ->. reflexivity.
  - intros user otp Hu Ho Hexp. injection Hu as ->. injection Ho as ->.
    unfold Otp.isExpired. apply Z.ltb_lt in Hexp. rewrite Hexp. reflexivity.
  - intros user otp Hu Ho Hlive Hvalid. injection Hu as ->. injection Ho as Ho.
    rewrite Ho. unfold Otp.isExpired.
    apply Z.ltb_ge in Hlive. rewrite Hlive, Hvalid.
    cbn [fst snd set_otps otps].
    rewrite (findByUserId_after_verify _ _ _ Ho). repeat split.
  - intros user otp Hu Ho Hlive Hvalid. injection Hu as ->. injection Ho as ->.
    unfold Otp.isExpired.
    apply Z.ltb_ge in Hlive. rewrite Hlive, Hvalid. reflexivity.
Qed.

(** C10.  A call of [verifyOtp] that throws has written nothing: the world
    it leaves is the world it found, and the exception is one of
    [EntityNotFoundException] (user or one-time password),
    [OtpExpiredException] and [OtpInvalidException].  In particular the
    [verified] flag is not set by a token that is not accepted. *)
Theorem verifyOtp_failure_writes_nothing
        (w w' : World) (userId token : string) (e : exn) :
  verifyOtp userId token w = (Throw e, w') ->
  w' = w
  /\ (e = EntityNotFoundException "User" (Some userId)
      \/ e = EntityNotFoundException "OTP" None
      \/ e = OtpExpiredException
      \/ e = OtpInvalidException).
Proof.
  rewrite verifyOtp_eq.
  destruct (find _ (users w)).
  - destruct (find _ (otps w)) as [otp|].
    + destruct (Otp.isExpired (clock w) otp).
      * intros H. injection H as <- <-. auto.
      * destruct (isValid w (Otp.secret otp) token).
        -- discriminate.
        -- intros H. injection H as <- <-. auto 6.
    + intros H. injection H as <- <-. auto.
  - intros H. injection H as <- <-. auto.
Qed.

(** Among the codes of one secret, the valid one is the code of the
    current step: a code computed at a counter is valid exactly when it is
    the code of the counter the clock is at. *)
Lemma code_valid_iff_current (w : World) (secret : string) (counter : Z) :
  0 <= digits (otpConfig (config w)) ->
  isValid w secret (code_at w secret counter) = true
  <-> code_at w secret counter = code_at w secret (current_counter w).
Proof.
  intros Hd. split.
  - unfold isValid, code_at, current_counter.
    rewrite totp_verify_without_window.
    set (o := verify_options secret "" (otpConfig (config w))).
    set (now_counter :=
           Speakeasy.totp_counter
             (verify_options "" "" (otpConfig (config w))) (clock w)).
    intros H. apply andb_true_iff in H. destruct H as [_ Heq].
    apply strict_eq_true in Heq. destruct Heq as (v & Hcur & Hpres).
    destruct (hotp_shape o counter) as [Hlen1 Hdig1].
    destruct (hotp_shape o now_counter) as [Hlen2 Hdig2].
    assert (Hpos : (0 < Z.to_nat (Speakeasy.hotp_digits o))%nat).
    { change (Speakeasy.hotp_digits o)
        with (Js.or_default (Js.Num (digits (otpConfig (config w)))) 6).
      unfold Js.or_default.
      destruct (Z.eqb_spec (digits (otpConfig (config w))) 0); lia. }
    apply digits_same_value; try assumption; [congruence|].
    destruct (Speakeasy.hotp o counter) as [|c1 s1];
      [simpl in Hlen1; lia|].
    destruct (Speakeasy.hotp o now_counter) as [|c2 s2];
      [simpl in Hlen2; lia|].
    simpl in Hdig1, Hdig2.
    apply andb_true_iff in Hdig1. apply andb_true_iff in Hdig2.
    rewrite parseInt_all_digits in Hcur, Hpres by tauto.
    congruence.
  - intros ->. unfold isValid, code_at, current_counter.
    apply totp_verify_current. exact Hd.
Qed.

(** C3, as the code has it.  [verifyOtp] hands [speakeasy] no window, so
    there is no tolerance: before expiry, and with a configured number of
    digits that is not negative, the code computed at the counter of the
    current time step is accepted, for every secret and every reading of
    the clock; and a code computed at any other counter, the step before
    and the step after among them, is accepted only when it is that same
    code. *)
Theorem verifyOtp_accepts_current_step
        (w : World) (userId : string) (user : User.t) (otp : Otp.t) :
  outcome (UserRepository.findById userId) w = Ok (Some user) ->
  outcome (OtpRepository.findByUserId userId) w = Ok (Some otp) ->
  Otp.isExpired (clock w) otp = false ->
  0 <= digits (otpConfig (config w)) ->
  outcome (verifyOtp userId (code_at w (Otp.secret otp) (current_counter w))) w
  = Ok true
  /\ (forall counter,
       outcome (verifyOtp userId (code_at w (Otp.secret otp) counter)) w
       = Ok true
       <-> code_at w (Otp.secret otp) counter
           = code_at w (Otp.secret otp) (current_counter w)).
Proof.
  unfold outcome. intros Hu Ho Hlive Hd.
  unfold UserRepository.findById, OtpRepository.findByUserId, gets in Hu, Ho.
  cbn [fst] in Hu, Ho. injection Hu as Hu. injection Ho as Ho.
  assert (Hrun : forall token,
    fst (verifyOtp userId token w) = Ok true
    <-> isValid w (Otp.secret otp) token = true).
  { intros token. rewrite verifyOtp_eq, Hu, Ho, Hlive.
    destruct (isValid w (Otp.secret otp) token); simpl; split;
      congruence. }
  split.
  - apply Hrun. apply code_valid_iff_current; [exact Hd|reflexivity].
  - intros counter. rewrite Hrun. apply code_valid_iff_current. exact Hd.
Qed.

(** [verifyTwoFactorToken] in closed form. *)
Lemma verifyTwoFactorToken_eq (w : World) (userId token : string) :
  verifyTwoFactorToken userId token w
  = match find (fun u => String.eqb (User.id u) userId) (users w) with
    | None => (Throw (EntityNotFoundException "User" (Some userId)), w)
    | Some user =>
        if negb (User.otpEnabled user) || Js.falsy (User.otpSecret user)
        then (Throw (AuthenticationException
                       "Two-factor authentication is not enabled for this user"),
              w)
        else if isValid w (Js.string_of (User.otpSecret user)) token
        then (Ok true, w)
        else (Throw OtpInvalidException, w)
    end.
Proof.
  unfold verifyTwoFactorToken, UserRepository.findById, isValid.
  unfold now; unfold bind, gets, ret, throw.
  destruct (find _ (users w)) as [user|]; [|reflexivity].
  destruct (negb (User.otpEnabled user) || Js.falsy (User.otpSecret user));
    [reflexivity|].
  destruct (Speakeasy.totp_verify _ _); reflexivity.
Qed.

Lemma findById_after_disable (w : World) (userId : string) (user : User.t) :
  find (fun u => String.eqb (User.id u) userId) (users w) = Some user ->
  find (fun u => String.eqb (User.id u) userId)
       (replace_where
          (fun x => String.eqb (User.id x) (User.id (User.disableOtp user)))
          (User.disableOtp user) (users w))
  = Some (User.disableOtp user).
Proof.
  intros H.
  apply find_replace_where with (old := user).
  - exact H.
  - apply String.eqb_refl.
  - apply find_some_holds in H. exact H.
Qed.

(** C7.  [verifyTwoFactorToken] throws [EntityNotFoundException] when the
    user is missing; it throws the [AuthenticationException] "not enabled"
    when [otpEnabled] is false or there is no secret ([undefined], or the
    empty string, which [!user.otpSecret] takes for absent as well);
    otherwise it throws [OtpInvalidException] for a token [speakeasy] does
    not accept and returns [true] for one it accepts, writing nothing.
    [disableTwoFactorAuth] on an existing user clears the flag and the
    secret and writes the user, and every later [verifyTwoFactorToken] for
    that user, whatever the token and the clock, throws "not enabled". *)
Theorem verifyTwoFactorToken_outcomes (w : World) (userId token : string) :
  (outcome (UserRepository.findById userId) w = Ok None ->
   verifyTwoFactorToken userId token w
   = (Throw (EntityNotFoundException "User" (Some userId)), w))
  /\ (forall user,
       outcome (UserRepository.findById userId) w = Ok (Some user) ->
       User.otpEnabled user = false \/ User.otpSecret user = None
       \/ User.otpSecret user = Some "" ->
       verifyTwoFactorToken userId token w
       = (Throw (AuthenticationException
                   "Two-factor authentication is not enabled for this user"),
          w))
  /\ (forall user secret,
       outcome (UserRepository.findById userId) w = Ok (Some user) ->
       User.otpEnabled user = true ->
       User.otpSecret user = Some secret ->
       secret <> "" ->
       verifyTwoFactorToken userId token w
       = if isValid w secret token
         then (Ok true, w)
         else (Throw OtpInvalidException, w))
  /\ (forall user,
       outcome (UserRepository.findById userId) w = Ok (Some user) ->
       let w' := after (disableTwoFactorAuth userId) w in
       outcome (disableTwoFactorAuth userId) w = Ok (User.disableOtp user)
       /\ outcome (UserRepository.findById userId) w'
          = Ok (Some (User.disableOtp user))
       /\ User.otpEnabled (User.disableOtp user) = false
       /\ User.otpSecret (User.disableOtp user) = None
       /\ forall token' later,
           verifyTwoFactorToken userId token' (set_clock later w')
           = (Throw (AuthenticationException
                       "Two-factor authentication is not enabled for this user"),
              set_clock later w')).
Proof.
  unfold outcome, after. rewrite verifyTwoFactorToken_eq.
  unfold UserRepository.findById at 1 2 3 4. unfold gets. cbn [fst snd].
  split; [|split; [|split]].
  - intros H. injection H as ->. reflexivity.
  - intros user Hu Hoff. injection Hu as ->.
    destruct Hoff as [Hoff|[Hoff|Hoff]]; rewrite Hoff; simpl.
    + reflexivity.
    + rewrite orb_true_r. reflexivity.
    + rewrite orb_true_r. reflexivity.
  - intros user secret Hu Hon Hsec Hne. injection Hu as ->.
    rewrite Hon, Hsec. simpl.
    destruct secret; [congruence|]. reflexivity.
  - intros user Hu. injection Hu as Hu.
    unfold disableTwoFactorAuth, UserRepository.findById,
      UserRepository.update.
    unfold bind, gets, modify, ret, throw. rewrite Hu. cbn [fst snd].
    pose proof (findById_after_disable _ _ _ Hu) as Hfound.
    cbn [set_users users]. rewrite Hfound.
    repeat split.
    intros token' later. rewrite verifyTwoFactorToken_eq.
    cbn [set_clock users set_users]. rewrite Hfound. reflexivity.
Qed.

End OtpAuthority.

(** ** The session guard *)

Section SessionGuard.

Import JwtStrategy.

(** C9.  On every validation of an access token, the user named by the
    subject of the payload is fetched again: the call throws
    [UnauthorizedException] when there is no such user or the user is not
    active, and answers the payload itself when the user exists and is
    active.  The world is left as it was in every case. *)
Theorem validate_liveness (w : World) (payload : Payload) :
  (outcome (UserRepository.findById (sub payload)) w = Ok None ->
   validate payload w
   = (Throw (UnauthorizedException "User no longer active or not found"), w))
  /\ (forall user,
       outcome (UserRepository.findById (sub payload)) w = Ok (Some user) ->
       User.isActive user = false ->
       validate payload w
       = (Throw (UnauthorizedException "User no longer active or not found"), w))
  /\ (forall user,
       outcome (UserRepository.findById (sub payload)) w = Ok (Some user) ->
       User.isActive user = true ->
       validate payload w = (Ok payload, w)).
Proof.
  unfold validate, UserRepository.findById. step.
  repeat split.
  - intros H. injection H as ->. reflexivity.
  - intros user H Hact. injection H as ->. rewrite Hact. reflexivity.
  - intros user H Hact. injection H as ->. rewrite Hact. reflexivity.
Qed.

End SessionGuard.

(** ** The refresh-token ledger *)

Section Ledger.

Import AuthService.

(** C5.  [validateRefreshToken] checks, in this order: that a stored token
    has the value (else "Invalid refresh token"), that it is not past its
    expiry (else "Refresh token has expired", whatever its revoked flag),
    that it is not revoked (else "Refresh token has been revoked"); a token
    that passes the three is returned.  Nothing is written. *)
Theorem validateRefreshToken_order (w : World) (token : string) :
  (outcome (RefreshTokenRepository.findByToken token) w = Ok None ->
   validateRefreshToken token w
   = (Throw (AuthenticationException "Invalid refresh token"), w))
  /\ (forall r,
       outcome (RefreshTokenRepository.findByToken token) w = Ok (Some r) ->
       RefreshToken.isExpired (clock w) r = true ->
       validateRefreshToken token w
       = (Throw (AuthenticationException "Refresh token has expired"), w))
  /\ (forall r,
       outcome (RefreshTokenRepository.findByToken token) w = Ok (Some r) ->
       RefreshToken.isExpired (clock w) r = false ->
       RefreshToken.revoked r = true ->
       validateRefreshToken token w
       = (Throw (AuthenticationException "Refresh token has been revoked"), w))
  /\ (forall r,
       outcome (RefreshTokenRepository.findByToken token) w = Ok (Some r) ->
       RefreshToken.isExpired (clock w) r = false ->
       RefreshToken.revoked r = false ->
       validateRefreshToken token w = (Ok r, w)).
Proof.
  unfold validateRefreshToken, RefreshTokenRepository.findByToken. step.
  repeat split.
  - intros H. injection H as ->. reflexivity.
  - intros r H Hexp. injection H as ->. rewrite Hexp. reflexivity.
  - intros r H Hexp Hrev. injection H as ->.
    unfold RefreshToken.isRevoked. rewrite Hexp, Hrev. reflexivity.
  - intros r H Hexp Hrev. injection H as ->.
    unfold RefreshToken.isRevoked. rewrite Hexp, Hrev. reflexivity.
Qed.

(** The ledger after [update] of a revoked copy of a row found by value. *)
Lemma findByToken_after_revoke (w : World) (token : string) (r : RefreshToken.t) :
  find (RefreshTokenRepository.has_token token) (refreshTokens w) = Some r ->
  find (RefreshTokenRepository.has_token token)
       (replace_where
          (fun x => String.eqb (RefreshToken.id x) (RefreshToken.id r))
          (RefreshToken.revoke r) (refreshTokens w))
  = Some (RefreshToken.revoke r).
Proof.
  intros H.
  apply find_replace_where with (old := r).
  - exact H.
  - apply String.eqb_refl.
  - apply find_some_holds in H. exact H.
Qed.

(** C6.  [revokeRefreshToken] throws "Invalid refresh token" when no stored
    token has the value.  On a stored token that is not revoked it sets the
    flag, writes the row and returns: the token then found under the value
    is the old one with [revoked = true].  On a revoked token it returns
    and leaves the world as it is; so a second call after a first one
    returns and changes nothing. *)
Theorem revokeRefreshToken_idempotent (w : World) (token : string) :
  (outcome (RefreshTokenRepository.findByToken token) w = Ok None ->
   revokeRefreshToken token w
   = (Throw (AuthenticationException "Invalid refresh token"), w))
  /\ (forall r,
       outcome (RefreshTokenRepository.findByToken token) w = Ok (Some r) ->
       RefreshToken.revoked r = false ->
       let w1 := after (revokeRefreshToken token) w in
       outcome (revokeRefreshToken token) w = Ok tt
       /\ outcome (RefreshTokenRepository.findByToken token) w1
          = Ok (Some (RefreshToken.revoke r))
       /\ RefreshToken.revoked (RefreshToken.revoke r) = true
       /\ revokeRefreshToken token w1 = (Ok tt, w1))
  /\ (forall r,
       outcome (RefreshTokenRepository.findByToken token) w = Ok (Some r) ->
       RefreshToken.revoked r = true ->
       revokeRefreshToken token w = (Ok tt, w)).
Proof.
  unfold revokeRefreshToken, RefreshTokenRepository.findByToken,
    RefreshTokenRepository.update. step.
  split; [|split].
  - intros H. injection H as ->. reflexivity.
  - intros r H Hrev. injection H as H.
    pose proof (findByToken_after_revoke _ _ _ H) as Hfound.
    unfold RefreshToken.isRevoked. rewrite H, Hrev. simpl.
    rewrite Hfound. simpl. repeat split.
  - intros r H Hrev. injection H as ->.
    unfold RefreshToken.isRevoked. rewrite Hrev. reflexivity.
Qed.

(** *** Replacement of a user's tokens *)

(** [createRefreshToken] in closed form: the rows left by
    [deleteByUserId], the new row, and the answer of [create]. *)
Lemma createRefreshToken_eq (w : World) (userId token : string) :
  createRefreshToken userId token w
  = let rows :=
      filter (fun r => negb (RefreshTokenRepository.owned_by userId r))
             (refreshTokens w) in
    let w2 := set_nextId (nextId w + 1) (set_refreshTokens rows w) in
    let r :=
      RefreshToken.new (Js.to_decimal (nextId w)) (clock w) userId token
        (Js.parseInt
           (Js.remove_first "d" (get (JWT_REFRESH_EXPIRATION (config w)) "7d"))) in
    if existsb (RefreshTokenRepository.has_token token) rows
    then (Throw (StoreFailure "unique:token"), w2)
    else (Ok r, set_refreshTokens (rows ++ [r])%list w2).
Proof.
  unfold createRefreshToken, RefreshTokenRepository.deleteByUserId,
    RefreshTokenRepository.create, tokenConfig, newId.
  unfold now; unfold bind, gets, modify, ret, throw.
  cbn [refreshTokens set_nextId set_refreshTokens nextId clock config
       refreshExpiration RefreshToken.token RefreshToken.new].
  destruct (existsb _ _); reflexivity.
Qed.

Lemma owned_by_eq (userId : string) (r : RefreshToken.t) :
  RefreshTokenRepository.owned_by userId r = true
  <-> RefreshToken.userId r = userId.
Proof.
  unfold RefreshTokenRepository.owned_by. apply String.eqb_eq.
Qed.

(** After [deleteByUserId], the user owns nothing... *)
Lemma owned_after_delete (userId : string) (l : list RefreshToken.t) :
  filter (RefreshTokenRepository.owned_by userId)
         (filter (fun r => negb (RefreshTokenRepository.owned_by userId r)) l)
  = [].
Proof.
  induction l as [|a l IH]; simpl.
  - reflexivity.
  - destruct (RefreshTokenRepository.owned_by userId a) eqn:Ha; simpl.
    + exact IH.
    + rewrite Ha. exact IH.
Qed.

(** ... and everybody else owns what they owned. *)
Lemma owned_other_after_delete (userId other : string)
      (l : list RefreshToken.t) :
  other <> userId ->
  filter (RefreshTokenRepository.owned_by other)
         (filter (fun r => negb (RefreshTokenRepository.owned_by userId r)) l)
  = filter (RefreshTokenRepository.owned_by other) l.
Proof.
  intros Hneq.
  induction l as [|a l IH]; simpl.
  - reflexivity.
  - destruct (RefreshTokenRepository.owned_by userId a) eqn:Ha; simpl.
    + destruct (RefreshTokenRepository.owned_by other a) eqn:Hb.
      * apply owned_by_eq in Ha. apply owned_by_eq in Hb. congruence.
      * exact IH.
    + destruct (RefreshTokenRepository.owned_by other a); [f_equal|]; exact IH.
Qed.

Lemma existsb_filter_false {A : Type} (p q : A -> bool) (l : list A) :
  existsb p l = false -> existsb p (filter q l) = false.
Proof.
  induction l as [|a l IH]; simpl.
  - reflexivity.
  - intros H. apply orb_false_iff in H. destruct H as [Ha Hl].
    destruct (q a); simpl.
    + rewrite Ha. auto.
    + auto.
Qed.

Lemma find_app_absent {A : Type} (p : A -> bool) (l : list A) (a : A) :
  existsb p l = false ->
  find p (l ++ [a])%list = if p a then Some a else None.
Proof.
  induction l as [|b l IH]; simpl.
  - reflexivity.
  - intros H. apply orb_false_iff in H. destruct H as [Hb Hl].
    rewrite Hb. auto.
Qed.

(** What a call that returned has left in the ledger. *)
Lemma createRefreshToken_ok (w w' : World) (userId token : string)
      (r : RefreshToken.t) :
  createRefreshToken userId token w = (Ok r, w') ->
  let rows :=
    filter (fun x => negb (RefreshTokenRepository.owned_by userId x))
           (refreshTokens w) in
  existsb (RefreshTokenRepository.has_token token) rows = false
  /\ refreshTokens w' = (rows ++ [r])%list
  /\ RefreshToken.userId r = userId
  /\ RefreshToken.token r = token
  /\ RefreshToken.revoked r = false.
Proof.
  rewrite createRefreshToken_eq. cbv zeta.
  destruct (existsb _ _) eqn:Hex.
  - discriminate.
  - intros H. injection H as <- <-. repeat split.
Qed.

(** The call returns whenever the value is not held by another user. *)
Lemma createRefreshToken_returns (w : World) (userId token : string) :
  (forall r,
      In r (refreshTokens w) ->
      RefreshToken.token r = token -> RefreshToken.userId r = userId) ->
  exists r, outcome (createRefreshToken userId token) w = Ok r.
Proof.
  intros Hfree. unfold outcome. rewrite createRefreshToken_eq. cbv zeta.
  destruct (existsb _ _) eqn:Hex.
  - apply existsb_exists in Hex. destruct Hex as (r & Hin & Htok).
    apply filter_In in Hin. destruct Hin as [Hin Hother].
    apply String.eqb_eq in Htok.
    apply Hfree in Htok; [|exact Hin].
    apply owned_by_eq in Htok. rewrite Htok in Hother. discriminate.
  - eexists. reflexivity.
Qed.

(** After the call the user owns the token returned, and nothing when the
    store refused it. *)
Lemma owned_after_create (w : World) (userId token : string) :
  owned userId (after (createRefreshToken userId token) w)
  = match outcome (createRefreshToken userId token) w with
    | Ok r => [r]
    | Throw _ => []
    end.
Proof.
  unfold owned, after, outcome. rewrite createRefreshToken_eq. cbv zeta.
  destruct (existsb _ _); simpl.
  - apply owned_after_delete.
  - rewrite filter_app, owned_after_delete. simpl.
    unfold RefreshTokenRepository.owned_by at 1. simpl.
    rewrite String.eqb_refl. reflexivity.
Qed.

Lemma owned_other_after_create (w : World) (userId token other : string) :
  other <> userId ->
  owned other (after (createRefreshToken userId token) w) = owned other w.
Proof.
  intros Hneq.
  unfold owned, after. rewrite createRefreshToken_eq. cbv zeta.
  destruct (existsb _ _); simpl.
  - apply owned_other_after_delete. exact Hneq.
  - rewrite filter_app, owned_other_after_delete by exact Hneq. simpl.
    unfold RefreshTokenRepository.owned_by at 2. simpl.
    destruct (String.eqb_spec userId other) as [Heq|_].
    + congruence.
    + apply app_nil_r.
Qed.

Lemma owned_after_create_le (w : World) (userId token : string) :
  (List.length (owned userId (after (createRefreshToken userId token) w)) <= 1)%nat.
Proof.
  rewrite owned_after_create. destruct (outcome _ _); simpl; lia.
Qed.

Lemma single_session_after_create (w : World) (userId token : string) :
  single_session w ->
  single_session (after (createRefreshToken userId token) w).
Proof.
  intros Hinv other.
  destruct (String.eqb_spec other userId) as [->|Hneq].
  - apply owned_after_create_le.
  - rewrite owned_other_after_create by exact Hneq. apply Hinv.
Qed.

(** *** The single session at every instant *)

(** [revokeRefreshToken] and [revokeAllRefreshTokens] in closed form. *)
Lemma revokeRefreshToken_eq (w : World) (token : string) :
  revokeRefreshToken token w
  = match find (RefreshTokenRepository.has_token token) (refreshTokens w) with
    | None => (Throw (AuthenticationException "Invalid refresh token"), w)
    | Some r =>
        if RefreshToken.revoked r then (Ok tt, w)
        else (Ok tt,
              set_refreshTokens
                (replace_where
                   (fun x => String.eqb (RefreshToken.id x) (RefreshToken.id r))
                   (RefreshToken.revoke r) (refreshTokens w))
                w)
    end.
Proof.
  unfold revokeRefreshToken, RefreshTokenRepository.findByToken,
    RefreshTokenRepository.update, RefreshToken.isRevoked.
  unfold bind, gets, modify, ret, throw.
  destruct (find _ (refreshTokens w)) as [r|]; [|reflexivity].
  destruct (RefreshToken.revoked r); reflexivity.
Qed.

Lemma revokeAllRefreshTokens_eq (w : World) (userId : string) :
  revokeAllRefreshTokens userId w
  = match find (fun u => String.eqb (User.id u) userId) (users w) with
    | None => (Throw (EntityNotFoundException "User" (Some userId)), w)
    | Some _ =>
        (Ok tt,
         set_refreshTokens
           (filter (fun r => negb (RefreshTokenRepository.owned_by userId r))
                   (refreshTokens w))
           w)
    end.
Proof.
  unfold revokeAllRefreshTokens, UserRepository.findById,
    RefreshTokenRepository.deleteByUserId.
  unfold bind, gets, modify, ret, throw.
  destruct (find _ (users w)); reflexivity.
Qed.

Lemma length_filter_filter {A : Type} (p q : A -> bool) (l : list A) :
  (List.length (filter p (filter q l)) <= List.length (filter p l))%nat.
Proof.
  induction l as [|a l IH]; simpl.
  - lia.
  - destruct (q a), (p a) eqn:Hp; simpl; try rewrite Hp; simpl; lia.
Qed.

(** Rewriting rows under an identifier that names one owner moves no row
    from one user to another. *)
Lemma owned_replace_length (v : string) (r : RefreshToken.t)
      (l : list RefreshToken.t) :
  (forall x, In x l ->
             RefreshToken.id x = RefreshToken.id r ->
             RefreshToken.userId x = RefreshToken.userId r) ->
  List.length
    (filter (RefreshTokenRepository.owned_by v)
       (replace_where
          (fun x => String.eqb (RefreshToken.id x) (RefreshToken.id r))
          (RefreshToken.revoke r) l))
  = List.length (filter (RefreshTokenRepository.owned_by v) l).
Proof.
  induction l as [|a l IH]; intros Hid.
  - reflexivity.
  - cbn [replace_where map filter].
    assert (IH' := IH (fun x Hx => Hid x (or_intror Hx))).
    unfold replace_where in IH'.
    destruct (String.eqb_spec (RefreshToken.id a) (RefreshToken.id r)) as [Heq|_].
    + assert (Hown : RefreshTokenRepository.owned_by v (RefreshToken.revoke r)
                     = RefreshTokenRepository.owned_by v a).
      { unfold RefreshTokenRepository.owned_by. simpl.
        rewrite (Hid a (or_introl eq_refl) Heq). reflexivity. }
      rewrite Hown.
      destruct (RefreshTokenRepository.owned_by v a); simpl; rewrite IH';
        reflexivity.
    + destruct (RefreshTokenRepository.owned_by v a); simpl; rewrite IH';
        reflexivity.
Qed.

Lemma In_replace_where {A : Type} (same : A -> bool) (new x : A) (l : list A) :
  In x (replace_where same new l) ->
  (x = new /\ exists y, In y l /\ same y = true) \/ In x l.
Proof.
  unfold replace_where. intros H. apply in_map_iff in H.
  destruct H as (y & Hy & Hin).
  destruct (same y) eqn:Hs.
  - left. split; [congruence|]. eauto.
  - right. congruence.
Qed.

Lemma ledger_ok_create (w : World) (userId token : string) :
  ledger_ok w -> ledger_ok (after (createRefreshToken userId token) w).
Proof.
  intros (H1 & H2 & H3 & H4).
  split; [apply single_session_after_create; exact H1|].
  unfold after. rewrite createRefreshToken_eq. cbv zeta.
  set (rows := filter _ (refreshTokens w)).
  assert (Hsub : forall x, In x rows -> In x (refreshTokens w)).
  { intros x Hx. apply filter_In in Hx. tauto. }
  destruct (existsb _ rows); cbn [snd refreshTokens nextId set_refreshTokens
                                  set_nextId].
  - split; [|split].
    + intros x y Hx Hy. apply H2; auto.
    + lia.
    + intros x Hx. destruct (H4 x (Hsub x Hx)) as (n & Hn & Hid).
      exists n. split; [lia|exact Hid].
  - set (r := RefreshToken.new _ _ _ _ _).
    assert (Hfresh : forall x, In x rows ->
                               RefreshToken.id x <> RefreshToken.id r).
    { intros x Hx Heq. destruct (H4 x (Hsub x Hx)) as (n & Hn & Hid).
      rewrite Hid in Heq. simpl in Heq.
      apply to_decimal_injective in Heq; lia. }
    split; [|split].
    + intros x y Hx Hy Heq.
      apply in_app_or in Hx. apply in_app_or in Hy.
      destruct Hx as [Hx|[<-|[]]], Hy as [Hy|[<-|[]]].
      * apply H2; auto.
      * exfalso. exact (Hfresh x Hx Heq).
      * exfalso. exact (Hfresh y Hy (eq_sym Heq)).
      * reflexivity.
    + lia.
    + intros x Hx. apply in_app_or in Hx. destruct Hx as [Hx|[<-|[]]].
      * destruct (H4 x (Hsub x Hx)) as (n & Hn & Hid).
        exists n. split; [lia|exact Hid].
      * exists (nextId w). split; [lia|reflexivity].
Qed.

Lemma ledger_ok_revoke (w : World) (token : string) :
  ledger_ok w -> ledger_ok (after (revokeRefreshToken token) w).
Proof.
  intros Hok. unfold after. rewrite revokeRefreshToken_eq.
  destruct (find _ (refreshTokens w)) as [r|] eqn:Hfind; [|exact Hok].
  destruct (RefreshToken.revoked r); [exact Hok|].
  destruct Hok as (H1 & H2 & H3 & H4).
  apply find_some in Hfind. destruct Hfind as [Hin _].
  cbn [snd]. unfold ledger_ok, single_session, owned.
  cbn [refreshTokens nextId set_refreshTokens].
  split; [|split; [|split]].
  - intros v. rewrite owned_replace_length.
    + apply H1.
    + intros x Hx Heq. apply H2; auto.
  - intros x y Hx Hy Heq.
    apply In_replace_where in Hx. apply In_replace_where in Hy.
    destruct Hx as [[-> _]|Hx], Hy as [[-> _]|Hy].
    + reflexivity.
    + simpl in Heq |- *. apply H2; auto.
    + simpl in Heq |- *. apply H2; auto.
    + apply H2; auto.
  - exact H3.
  - intros x Hx. apply In_replace_where in Hx.
    destruct Hx as [[-> _]|Hx].
    + simpl. apply H4. exact Hin.
    + apply H4. exact Hx.
Qed.

Lemma ledger_ok_revoke_all (w : World) (userId : string) :
  ledger_ok w -> ledger_ok (after (revokeAllRefreshTokens userId) w).
Proof.
  intros Hok. unfold after. rewrite revokeAllRefreshTokens_eq.
  destruct (find _ (users w)); [|exact Hok].
  destruct Hok as (H1 & H2 & H3 & H4).
  cbn [snd]. unfold ledger_ok, single_session, owned.
  cbn [refreshTokens nextId set_refreshTokens].
  assert (Hsub : forall x,
    In x (filter (fun r => negb (RefreshTokenRepository.owned_by userId r))
                 (refreshTokens w)) ->
    In x (refreshTokens w)).
  { intros x Hx. apply filter_In in Hx. tauto. }
  split; [|split; [|split]].
  - intros v.
    apply Nat.le_trans
      with (List.length (filter (RefreshTokenRepository.owned_by v)
                                (refreshTokens w))).
    + apply length_filter_filter.
    + apply H1.
  - intros x y Hx Hy. apply H2; auto.
  - exact H3.
  - intros x Hx. apply H4; auto.
Qed.

Lemma ledger_ok_step (w w' : World) :
  ledger_step w w' -> ledger_ok w -> ledger_ok w'.
Proof.
  intros Hstep. destruct Hstep as [u t w|t w|u w|w w' Hrows Hid].
  - apply ledger_ok_create.
  - apply ledger_ok_revoke.
  - apply ledger_ok_revoke_all.
  - unfold ledger_ok, single_session, owned. rewrite Hrows, Hid. tauto.
Qed.

(** The invariant of the data model: from an empty ledger, whatever is
    called and in whatever order, no user ever owns two refresh tokens. *)
Lemma ledger_reachable_single_session (w : World) :
  ledger_reachable w -> single_session w.
Proof.
  intros Hreach.
  assert (Hok : ledger_ok w).
  { induction Hreach as [w Hempty Hid|w w' _ IH Hstep].
    - unfold ledger_ok, single_session, owned. rewrite Hempty.
      split; [|split; [|split]].
      + intros v. simpl. lia.
      + intros x y [].
      + exact Hid.
      + intros x [].
    - exact (ledger_ok_step w w' Hstep IH). }
  exact (proj1 Hok).
Qed.

(** C1.  [createRefreshToken] deletes every token the user owns and then
    inserts one: in the world it leaves, the user owns exactly the token
    just returned (and nothing when the store refused the insertion), every
    other user owns what they owned before, so a ledger with at most one
    token per user stays so; and in every world reached from an empty
    ledger, by whatever calls, no user owns two tokens, before the call or
    after it.  The users table is never read: the call does the same
    whatever it holds. *)
Theorem createRefreshToken_single_session (w : World) (userId token : string) :
  let w' := after (createRefreshToken userId token) w in
  owned userId w'
  = match outcome (createRefreshToken userId token) w with
    | Ok r => [r]
    | Throw _ => []
    end
  /\ (List.length (owned userId w') <= 1)%nat
  /\ (forall r,
       outcome (createRefreshToken userId token) w = Ok r ->
       RefreshToken.userId r = userId /\ RefreshToken.token r = token)
  /\ (forall other, other <> userId -> owned other w' = owned other w)
  /\ (single_session w -> single_session w')
  /\ (ledger_reachable w -> single_session w /\ single_session w')
  /\ (forall us,
       createRefreshToken userId token (set_users us w)
       = (outcome (createRefreshToken userId token) w, set_users us w')).
Proof.
  cbv zeta.
  split; [apply owned_after_create|].
  split; [apply owned_after_create_le|].
  split; [|split; [|split; [|split]]].
  - intros r Hr. unfold outcome in Hr.
    destruct (createRefreshToken userId token w) as [res w'] eqn:Hrun.
    simpl in Hr. subst res.
    apply createRefreshToken_ok in Hrun. cbv zeta in Hrun. tauto.
  - intros other Hneq. apply owned_other_after_create. exact Hneq.
  - apply single_session_after_create.
  - intros Hreach. apply ledger_reachable_single_session in Hreach.
    split; [exact Hreach|]. apply single_session_after_create. exact Hreach.
  - intros us. unfold outcome, after.
    rewrite !createRefreshToken_eq. cbv zeta. simpl.
    destruct (existsb _ _); reflexivity.
Qed.

(** C4.  When [createRefreshToken(u, t1)] and then
    [createRefreshToken(u, t2)] have returned, with [t1] and [t2] distinct,
    [validateRefreshToken(t1)] throws "Invalid refresh token" (the first
    token was deleted by the replacement) and [validateRefreshToken(t2)]
    returns the second token, at any reading of the clock that is not past
    that token's expiry. *)
Theorem replaced_token_is_invalid
        (w w1 w2 : World) (u t1 t2 : string) (r1 r2 : RefreshToken.t)
        (later last : Z) :
  t1 <> t2 ->
  createRefreshToken u t1 w = (Ok r1, w1) ->
  createRefreshToken u t2 (set_clock later w1) = (Ok r2, w2) ->
  RefreshToken.isExpired last r2 = false ->
  validateRefreshToken t1 (set_clock last w2)
  = (Throw (AuthenticationException "Invalid refresh token"), set_clock last w2)
  /\ validateRefreshToken t2 (set_clock last w2) = (Ok r2, set_clock last w2).
Proof.
  intros Hneq H1 H2 Hlive.
  apply createRefreshToken_ok in H1. cbv zeta in H1.
  destruct H1 as (Hfree1 & Hrows1 & Hu1 & Ht1 & _).
  apply createRefreshToken_ok in H2. cbv zeta in H2.
  destruct H2 as (Hfree2 & Hrows2 & Hu2 & Ht2 & Hrev2).
  simpl in Hfree2, Hrows2. rewrite Hrows1 in Hfree2, Hrows2.
  rewrite filter_app in Hfree2, Hrows2. simpl in Hfree2, Hrows2.
  assert (Hown1 : RefreshTokenRepository.owned_by u r1 = true)
    by (apply owned_by_eq; exact Hu1).
  rewrite Hown1 in Hfree2, Hrows2. simpl in Hfree2, Hrows2.
  rewrite app_nil_r in Hfree2, Hrows2.
  set (rows := filter _ (filter _ (refreshTokens w))) in *.
  assert (Hno1 : existsb (RefreshTokenRepository.has_token t1) rows = false)
    by (apply existsb_filter_false; exact Hfree1).
  assert (Hfind1 :
    find (RefreshTokenRepository.has_token t1) (refreshTokens w2) = None).
  { rewrite Hrows2, find_app_absent by exact Hno1.
    unfold RefreshTokenRepository.has_token. rewrite Ht2.
    destruct (String.eqb_spec t2 t1); congruence. }
  assert (Hfind2 :
    find (RefreshTokenRepository.has_token t2) (refreshTokens w2) = Some r2).
  { rewrite Hrows2, find_app_absent by exact Hfree2.
    unfold RefreshTokenRepository.has_token. rewrite Ht2.
    rewrite String.eqb_refl. reflexivity. }
  unfold validateRefreshToken, RefreshTokenRepository.findByToken.
  unfold now; unfold bind, gets, ret, throw.
  cbn [set_clock refreshTokens clock].
  rewrite Hfind1, Hfind2. cbv beta iota. cbn [set_clock clock].
  unfold RefreshToken.isRevoked.
  rewrite Hlive, Hrev2. split; reflexivity.
Qed.

End Ledger.

(** ** The permission catalog *)

Section Catalog.

Import PermissionRepository.

Lemma filter_none {A : Type} (p : A -> bool) (l : list A) :
  existsb p l = false -> filter p l = [].
Proof.
  induction l as [|a l IH]; simpl.
  - reflexivity.
  - destruct (p a); simpl.
    + discriminate.
    + exact IH.
Qed.

(** [delete] in closed form: it answers whether a row had the id, and
    leaves the rows that do not have it. *)
Lemma delete_eq (w : World) (id : string) :
  delete id w
  = (Ok (existsb (PrismaPermission.has_id id) (permissions w)),
     if existsb (PrismaPermission.has_id id) (permissions w)
     then set_permissions
            (filter (fun r => negb (PrismaPermission.has_id id r))
                    (permissions w)) w
     else w).
Proof.
  unfold delete, PrismaPermission.delete.
  unfold try_catch, bind, gets, modify, ret, throw.
  destruct (find _ (permissions w)) as [old|] eqn:Hfind.
  - assert (H : existsb (PrismaPermission.has_id id) (permissions w) = true).
    { destruct (existsb _ _) eqn:Hex; [reflexivity|].
      apply find_none_existsb in Hex. congruence. }
    rewrite H. reflexivity.
  - apply find_none_existsb in Hfind. rewrite Hfind. reflexivity.
Qed.

(** C8.  The lookups of the catalog never throw and write nothing:
    [findById] and [findByName] answer [null] when no row has the id or
    the name, [findAll] and [findByResource] answer a list, empty when the
    table is empty or no row has the resource.  [delete] never throws
    either: it answers [false], leaving the world as it is, when no row has
    the id, and [true] when one had, after which the id is gone and a
    second [delete] answers [false]. *)
Theorem catalog_misses_are_soft (w : World) (id name resource : string) :
  (exists found,
      findById id w = (Ok found, w)
      /\ (existsb (PrismaPermission.has_id id) (permissions w) = false ->
          found = None))
  /\ (exists found,
         findByName name w = (Ok found, w)
         /\ (existsb (PrismaPermission.has_name name) (permissions w) = false ->
             found = None))
  /\ (exists found,
         findAll w = (Ok found, w)
         /\ (permissions w = [] -> found = []))
  /\ (exists found,
         findByResource resource w = (Ok found, w)
         /\ (existsb (PrismaPermission.has_resource resource) (permissions w)
             = false ->
             found = []))
  /\ (exists deleted, outcome (delete id) w = Ok deleted)
  /\ (existsb (PrismaPermission.has_id id) (permissions w) = false ->
      delete id w = (Ok false, w))
  /\ (existsb (PrismaPermission.has_id id) (permissions w) = true ->
      let w' := after (delete id) w in
      outcome (delete id) w = Ok true
      /\ outcome (findById id) w' = Ok None
      /\ delete id w' = (Ok false, w')).
Proof.
  split; [|split; [|split; [|split; [|split; [|split]]]]].
  - unfold findById, PrismaPermission.findUnique_id, bind, gets, ret.
    destruct (find _ (permissions w)) eqn:Hfind; eexists; split;
      try reflexivity.
    intros Hmiss. apply find_none_existsb in Hmiss. congruence.
  - unfold findByName, PrismaPermission.findUnique_name, bind, gets, ret.
    destruct (find _ (permissions w)) eqn:Hfind; eexists; split;
      try reflexivity.
    intros Hmiss. apply find_none_existsb in Hmiss. congruence.
  - unfold findAll, PrismaPermission.findMany, bind, gets, ret.
    eexists; split; [reflexivity|]. intros ->. reflexivity.
  - unfold findByResource, PrismaPermission.findMany_resource, bind, gets, ret.
    eexists; split; [reflexivity|].
    intros Hmiss. rewrite filter_none by exact Hmiss. reflexivity.
  - unfold outcome. rewrite delete_eq. eexists. reflexivity.
  - intros Hmiss. rewrite delete_eq, Hmiss. reflexivity.
  - intros Hhit. unfold outcome, after. rewrite delete_eq, Hhit.
    cbn [fst snd].
    assert (Hgone :
      existsb (PrismaPermission.has_id id)
              (filter (fun r => negb (PrismaPermission.has_id id r))
                      (permissions w)) = false)
      by apply existsb_filter_negb.
    repeat split.
    + unfold findById, PrismaPermission.findUnique_id, bind, gets, ret.
      cbn [set_permissions permissions].
      apply find_none_existsb in Hgone. rewrite Hgone. reflexivity.
    + rewrite delete_eq. cbn [set_permissions permissions].
      rewrite Hgone. reflexivity.
Qed.

End Catalog.

(** ** The methods on the sample worlds *)

Section Samples.

Import AuthService.

(** The stored one-time password is live at the clock of [skew_world],
    the clock is in the step of counter 1, and the codes for the counters
    0, 1 and 2 are those of RFC 4226; presented to [verifyOtp], the code
    of the step before and the code of the step after are both refused
    with [OtpInvalidException], the code of the current step alone is
    accepted. *)
Lemma verifyOtp_rejects_adjacent_steps :
  outcome (UserRepository.findById "u1") skew_world = Ok (Some alice)
  /\ outcome (OtpRepository.findByUserId "u1") skew_world = Ok (Some alice_otp)
  /\ Otp.isExpired (clock skew_world) alice_otp = false
  /\ current_counter skew_world = 1
  /\ code_at skew_world rfc_secret (current_counter skew_world - 1) = "755224"
  /\ code_at skew_world rfc_secret (current_counter skew_world) = "287082"
  /\ code_at skew_world rfc_secret (current_counter skew_world + 1) = "359152"
  /\ verifyOtp "u1" "755224" skew_world = (Throw OtpInvalidException, skew_world)
  /\ verifyOtp "u1" "359152" skew_world = (Throw OtpInvalidException, skew_world)
  /\ outcome (verifyOtp "u1" "287082") skew_world = Ok true.
Proof.
  repeat (split; [vm_compute; reflexivity|]).
  vm_compute. reflexivity.
Qed.

(** What the library does when it is given a window of one step, which
    [AuthService] does not give it: the codes of the steps before and after
    are found, one step away. *)
Lemma speakeasy_window_of_one_step :
  Speakeasy.totp_verifyDelta
    (Speakeasy.mkOptions rfc_secret (Some Speakeasy.EncBase32) "755224"
                         (Some 30) (Some 6) (Some 1)) 59000
  = Some (-1)
  /\ Speakeasy.totp_verifyDelta
       (Speakeasy.mkOptions rfc_secret (Some Speakeasy.EncBase32) "359152"
                            (Some 30) (Some 6) (Some 1)) 59000
     = Some 1
  /\ Speakeasy.window (verify_options rfc_secret "755224" (otpConfig default_config))
     = None.
Proof.
  split; [vm_compute; reflexivity|].
  split; [vm_compute; reflexivity|].
  reflexivity.
Qed.

Lemma verifyOtp_accepts_current_step_witness :
  0 <= digits (otpConfig (config skew_world))
  /\ outcome
       (verifyOtp "u1" (code_at skew_world rfc_secret (current_counter skew_world)))
       skew_world
     = Ok true
  /\ outcome
       (verifyOtp "u1"
          (code_at skew_world rfc_secret (current_counter skew_world - 1)))
       skew_world
     <> Ok true
  /\ outcome
       (verifyOtp "u1"
          (code_at skew_world rfc_secret (current_counter skew_world + 1)))
       skew_world
     <> Ok true.
Proof.
  assert (Hd : 0 <= digits (otpConfig (config skew_world)))
    by (vm_compute; discriminate).
  destruct (verifyOtp_accepts_current_step skew_world "u1" alice alice_otp
              eq_refl eq_refl eq_refl Hd) as [Hcurrent Honly].
  split; [exact Hd|]. split; [exact Hcurrent|]. split.
  - intros H. apply Honly in H. vm_compute in H. discriminate H.
  - intros H. apply Honly in H. vm_compute in H. discriminate H.
Defined.

Lemma verifyOtp_outcomes_witness :
  verifyOtp "u9" "287082" skew_world
  = (Throw (EntityNotFoundException "User" (Some "u9")), skew_world)
  /\ verifyOtp "u2" "287082" skew_world
     = (Throw (EntityNotFoundException "OTP" None), skew_world)
  /\ verifyOtp "u1" "287082" late_world = (Throw OtpExpiredException, late_world)
  /\ outcome (verifyOtp "u1" "287082") skew_world = Ok true
  /\ outcome (OtpRepository.findByUserId "u1")
             (after (verifyOtp "u1" "287082") skew_world)
     = Ok (Some (Otp.markAsVerified alice_otp))
  /\ verifyOtp "u1" "000000" skew_world = (Throw OtpInvalidException, skew_world).
Proof.
  split; [|split; [|split; [|split; [|split]]]].
  - apply (proj1 (verifyOtp_outcomes skew_world "u9" "287082")).
    reflexivity.
  - apply (proj1 (proj2 (verifyOtp_outcomes skew_world "u2" "287082")) bob);
      reflexivity.
  - apply (proj1 (proj2 (proj2 (verifyOtp_outcomes late_world "u1" "287082")))
             alice alice_otp);
      [ reflexivity | reflexivity | vm_compute; reflexivity ].
  - apply (proj1 (proj2 (proj2 (proj2
             (verifyOtp_outcomes skew_world "u1" "287082")))) alice alice_otp);
      [ reflexivity | reflexivity | vm_compute; discriminate
      | vm_compute; reflexivity ].
  - apply (proj1 (proj2 (proj2 (proj2
             (verifyOtp_outcomes skew_world "u1" "287082")))) alice alice_otp);
      [ reflexivity | reflexivity | vm_compute; discriminate
      | vm_compute; reflexivity ].
  - apply (proj2 (proj2 (proj2 (proj2
             (verifyOtp_outcomes skew_world "u1" "000000")))) alice alice_otp);
      [ reflexivity | reflexivity | vm_compute; discriminate
      | vm_compute; reflexivity ].
Defined.

Lemma verifyOtp_failure_writes_nothing_witness :
  verifyOtp "u1" "755224" skew_world
  = (Throw OtpInvalidException, after (verifyOtp "u1" "755224") skew_world)
  /\ after (verifyOtp "u1" "755224") skew_world = skew_world
  /\ outcome (OtpRepository.findByUserId "u1")
             (after (verifyOtp "u1" "755224") skew_world)
     = Ok (Some alice_otp)
  /\ Otp.verified alice_otp = false.
Proof.
  assert (H : verifyOtp "u1" "755224" skew_world
              = (Throw OtpInvalidException,
                 after (verifyOtp "u1" "755224") skew_world))
    by (vm_compute; reflexivity).
  split; [exact H|].
  destruct (verifyOtp_failure_writes_nothing _ _ _ _ _ H) as [Hsame _].
  split; [exact Hsame|].
  rewrite Hsame. split; reflexivity.
Defined.

Lemma verifyTwoFactorToken_outcomes_witness :
  verifyTwoFactorToken "u9" "287082" skew_world
  = (Throw (EntityNotFoundException "User" (Some "u9")), skew_world)
  /\ verifyTwoFactorToken "u2" "287082" skew_world
     = (Throw (AuthenticationException
                 "Two-factor authentication is not enabled for this user"),
        skew_world)
  /\ verifyTwoFactorToken "u1" "287082" skew_world = (Ok true, skew_world)
  /\ verifyTwoFactorToken "u1" "755224" skew_world
     = (Throw OtpInvalidException, skew_world)
  /\ verifyTwoFactorToken "u1" "287082"
       (set_clock 59000 (after (disableTwoFactorAuth "u1") skew_world))
     = (Throw (AuthenticationException
                 "Two-factor authentication is not enabled for this user"),
        set_clock 59000 (after (disableTwoFactorAuth "u1") skew_world)).
Proof.
  split; [|split; [|split; [|split]]].
  - apply (proj1 (verifyTwoFactorToken_outcomes skew_world "u9" "287082")).
    reflexivity.
  - apply (proj1 (proj2 (verifyTwoFactorToken_outcomes skew_world "u2" "287082"))
             bob).
    + reflexivity.
    + left. reflexivity.
  - assert (H := proj1 (proj2 (proj2
                   (verifyTwoFactorToken_outcomes skew_world "u1" "287082")))
                   alice rfc_secret).
    rewrite H.
    + vm_compute. reflexivity.
    + reflexivity.
    + reflexivity.
    + reflexivity.
    + discriminate.
  - assert (H := proj1 (proj2 (proj2
                   (verifyTwoFactorToken_outcomes skew_world "u1" "755224")))
                   alice rfc_secret).
    rewrite H.
    + vm_compute. reflexivity.
    + reflexivity.
    + reflexivity.
    + reflexivity.
    + discriminate.
  - apply (proj2 (proj2 (proj2
             (verifyTwoFactorToken_outcomes skew_world "u1" "287082"))) alice).
    reflexivity.
Defined.

Lemma validate_liveness_witness :
  JwtStrategy.validate ghost_payload skew_world
  = (Throw (UnauthorizedException "User no longer active or not found"),
     skew_world)
  /\ JwtStrategy.validate bob_payload skew_world
     = (Throw (UnauthorizedException "User no longer active or not found"),
        skew_world)
  /\ JwtStrategy.validate alice_payload skew_world = (Ok alice_payload, skew_world).
Proof.
  split; [|split].
  - apply (proj1 (validate_liveness skew_world ghost_payload)). reflexivity.
  - apply (proj1 (proj2 (validate_liveness skew_world bob_payload)) bob);
      reflexivity.
  - apply (proj2 (proj2 (validate_liveness skew_world alice_payload)) alice);
      reflexivity.
Defined.

Lemma validateRefreshToken_order_witness :
  validateRefreshToken "tok-9" ledger_world
  = (Throw (AuthenticationException "Invalid refresh token"), ledger_world)
  /\ validateRefreshToken "tok-2" (set_clock 2500 ledger_world)
     = (Throw (AuthenticationException "Refresh token has expired"),
        set_clock 2500 ledger_world)
  /\ validateRefreshToken "tok-2" ledger_world
     = (Throw (AuthenticationException "Refresh token has been revoked"),
        ledger_world)
  /\ validateRefreshToken "tok-1" ledger_world = (Ok token_1, ledger_world).
Proof.
  split; [|split; [|split]].
  - apply (proj1 (validateRefreshToken_order ledger_world "tok-9")).
    reflexivity.
  - apply (proj1 (proj2
             (validateRefreshToken_order (set_clock 2500 ledger_world) "tok-2"))
             token_2);
      reflexivity.
  - apply (proj1 (proj2 (proj2 (validateRefreshToken_order ledger_world "tok-2")))
             token_2);
      reflexivity.
  - apply (proj2 (proj2 (proj2 (validateRefreshToken_order ledger_world "tok-1")))
             token_1);
      reflexivity.
Defined.

Lemma revokeRefreshToken_idempotent_witness :
  revokeRefreshToken "tok-9" ledger_world
  = (Throw (AuthenticationException "Invalid refresh token"), ledger_world)
  /\ outcome (revokeRefreshToken "tok-1") ledger_world = Ok tt
  /\ outcome (RefreshTokenRepository.findByToken "tok-1")
             (after (revokeRefreshToken "tok-1") ledger_world)
     = Ok (Some (RefreshToken.mk "r1" "u1" "tok-1" (Js.Num 5000) true 0))
  /\ revokeRefreshToken "tok-1" (after (revokeRefreshToken "tok-1") ledger_world)
     = (Ok tt, after (revokeRefreshToken "tok-1") ledger_world)
  /\ revokeRefreshToken "tok-2" ledger_world = (Ok tt, ledger_world).
Proof.
  assert (H := proj1 (proj2 (revokeRefreshToken_idempotent ledger_world "tok-1"))
                 token_1 eq_refl eq_refl).
  cbv zeta in H. destruct H as (H1 & H2 & _ & H3).
  split; [|split; [exact H1|split; [exact H2|split; [exact H3|]]]].
  - apply (proj1 (revokeRefreshToken_idempotent ledger_world "tok-9")).
    reflexivity.
  - apply (proj2 (proj2 (revokeRefreshToken_idempotent ledger_world "tok-2"))
             token_2);
      reflexivity.
Defined.

Lemma createRefreshToken_single_session_witness :
  users ledger_world = []
  /\ owned "u1" ledger_world = [token_1; token_2]
  /\ createRefreshToken "u1" "tok-3" ledger_world = (Ok token_3, ledger_world_3)
  /\ owned "u1" (after (createRefreshToken "u1" "tok-3") ledger_world) = [token_3]
  /\ owned "u2" (after (createRefreshToken "u1" "tok-3") ledger_world) = [token_b]
  /\ single_session
       (after (createRefreshToken "u1" "tok-b")
              (after (createRefreshToken "u1" "tok-a") fresh_world)).
Proof.
  destruct (createRefreshToken_single_session ledger_world "u1" "tok-3")
    as (Hown & _ & _ & Hother & _ & _ & _).
  split; [reflexivity|].
  split; [reflexivity|].
  split; [vm_compute; reflexivity|].
  split; [|split].
  - rewrite Hown. vm_compute. reflexivity.
  - rewrite Hother.
    + reflexivity.
    + discriminate.
  - destruct (createRefreshToken_single_session
                (after (createRefreshToken "u1" "tok-a") fresh_world)
                "u1" "tok-b")
      as (_ & _ & _ & _ & _ & Hreach & _).
    apply Hreach.
    apply (reachable_step fresh_world).
    + apply reachable_empty.
      * reflexivity.
      * vm_compute. discriminate.
    + apply step_create.
Defined.

Lemma replaced_token_is_invalid_witness :
  createRefreshToken "u1" "tok-3" ledger_world = (Ok token_3, ledger_world_3)
  /\ createRefreshToken "u1" "tok-4" (set_clock 2000 ledger_world_3)
     = (Ok token_4, ledger_world_4)
  /\ validateRefreshToken "tok-3" (set_clock 3000 ledger_world_4)
     = (Throw (AuthenticationException "Invalid refresh token"),
        set_clock 3000 ledger_world_4)
  /\ validateRefreshToken "tok-4" (set_clock 3000 ledger_world_4)
     = (Ok token_4, set_clock 3000 ledger_world_4).
Proof.
  assert (H1 : createRefreshToken "u1" "tok-3" ledger_world
               = (Ok token_3, ledger_world_3))
    by (vm_compute; reflexivity).
  assert (H2 : createRefreshToken "u1" "tok-4" (set_clock 2000 ledger_world_3)
               = (Ok token_4, ledger_world_4))
    by (vm_compute; reflexivity).
  split; [exact H1|]. split; [exact H2|].
  apply (replaced_token_is_invalid ledger_world ledger_world_3 ledger_world_4
           "u1" "tok-3" "tok-4" token_3 token_4 2000 3000).
  - discriminate.
  - exact H1.
  - exact H2.
  - reflexivity.
Defined.

Lemma catalog_misses_are_soft_witness :
  PermissionRepository.findById "p9" catalog_world = (Ok None, catalog_world)
  /\ PermissionRepository.delete "p9" catalog_world = (Ok false, catalog_world)
  /\ outcome (PermissionRepository.delete "p1") catalog_world = Ok true
  /\ PermissionRepository.delete "p1"
       (after (PermissionRepository.delete "p1") catalog_world)
     = (Ok false, after (PermissionRepository.delete "p1") catalog_world).
Proof.
  destruct (catalog_misses_are_soft catalog_world "p9" "none" "none")
    as ((found & Hfind & Hmiss) & _ & _ & _ & _ & Hdel & _).
  destruct (catalog_misses_are_soft catalog_world "p1" "none" "none")
    as (_ & _ & _ & _ & _ & _ & Hhit).
  specialize (Hhit eq_refl). cbv zeta in Hhit.
  destruct Hhit as (Hone & _ & Htwo).
  split; [|split; [|split]].
  - rewrite Hfind, (Hmiss eq_refl). reflexivity.
  - apply Hdel. reflexivity.
  - exact Hone.
  - exact Htwo.
Defined.

End Samples.

(** * Further properties of the sources *)

(** ** The password policy *)

Section PasswordPolicy.

Import Password.

Lemma allowed_not_line_terminator (c : ascii) :
  allowed c = true -> line_terminator c = false.
Proof.
  destruct c as [[] [] [] [] [] [] [] []]; vm_compute; congruence.
Qed.

(** The body of the expression: allowed characters only, at least [n]. *)
Lemma body_iff (n : nat) (s : string) :
  body n s = true <-> (n <= String.length s)%nat /\ every allowed s = true.
Proof.
  revert n.
  induction s as [|c s IH]; intros n; simpl.
  - rewrite Nat.eqb_eq. split.
    + intros ->. split; [lia|reflexivity].
    + intros [H _]. lia.
  - rewrite andb_true_iff, IH, andb_true_iff. split.
    + intros (Hc & Hn & Hs). repeat split; [lia|exact Hc|exact Hs].
    + intros (Hn & Hc & Hs). repeat split; [exact Hc|lia|exact Hs].
Qed.

(** A look-ahead that succeeds has found a character of the class. *)
Lemma lookahead_occurs (class : ascii -> bool) (s : string) :
  lookahead class s = true -> occurs class s = true.
Proof.
  induction s as [|c s IH]; simpl.
  - discriminate.
  - destruct (class c); simpl.
    + reflexivity.
    + intros H. apply andb_true_iff in H. apply IH. tauto.
Qed.

(** Over allowed characters nothing stops the look-ahead. *)
Lemma occurs_lookahead (class : ascii -> bool) (s : string) :
  every allowed s = true -> occurs class s = true -> lookahead class s = true.
Proof.
  induction s as [|c s IH]; simpl.
  - discriminate.
  - intros Hall Hocc. apply andb_true_iff in Hall. destruct Hall as [Hc Hs].
    destruct (class c); simpl in *.
    + reflexivity.
    + rewrite (allowed_not_line_terminator c Hc). simpl. auto.
Qed.

(** The policy the regular expression enforces: [isValid] accepts exactly
    the strings of at least eight characters, all of them letters, digits
    or one of [@$!%*?&], among which a lower-case letter, an upper-case
    letter, a digit and one of the special characters occur. *)
Theorem password_policy (password : string) :
  isValid password = true
  <-> (8 <= String.length password)%nat
      /\ every allowed password = true
      /\ occurs lower password = true
      /\ occurs upper password = true
      /\ occurs digit password = true
      /\ occurs special password = true.
Proof.
  unfold isValid. rewrite !andb_true_iff, body_iff. split.
  - intros ((((Hl & Hu) & Hd) & Hs) & Hn & Hall).
    repeat split; auto using lookahead_occurs.
  - intros (Hn & Hall & Hl & Hu & Hd & Hs).
    repeat split; auto using occurs_lookahead.
Qed.

(** [new Password(p)] throws the policy's [Error] unless [p] passes the
    policy; when it does, [getValue] gives [p] back unchanged, so every
    password object holds at least eight characters, none of them outside
    the allowed ones. *)
Theorem password_round_trip (password : string) :
  (isValid password = false -> new password = inl message)
  /\ (isValid password = true ->
      exists p, new password = inr p /\ getValue p = password)
  /\ (forall p,
        new password = inr p ->
        getValue p = password
        /\ (8 <= String.length (getValue p))%nat
        /\ every allowed (getValue p) = true).
Proof.
  unfold new. split; [|split].
  - intros ->. reflexivity.
  - intros ->. eexists. split; reflexivity.
  - intros p. destruct (isValid password) eqn:Hvalid; simpl.
    + intros H. injection H as <-. simpl.
      unfold isValid in Hvalid. rewrite !andb_true_iff in Hvalid.
      destruct Hvalid as [_ Hbody]. apply body_iff in Hbody. tauto.
    + discriminate.
Qed.

Lemma password_round_trip_witness :
  new "Abcdef1!" = inr (mk "Abcdef1!")
  /\ getValue (mk "Abcdef1!") = "Abcdef1!"
  /\ new "Abcdef1#" = inl message
  /\ new "Abc1!" = inl message
  /\ new "" = inl message.
Proof.
  destruct (proj1 (proj2 (password_round_trip "Abcdef1!")) eq_refl)
    as (p & Hnew & Hget).
  split; [reflexivity|]. split; [reflexivity|].
  split; [apply (proj1 (password_round_trip "Abcdef1#")); reflexivity|].
  split; [apply (proj1 (password_round_trip "Abc1!")); reflexivity|].
  apply (proj1 (password_round_trip "")). reflexivity.
Defined.

End PasswordPolicy.

(** ** The catalog: writes, lookups and uniqueness *)

Section CatalogWrites.

Import PermissionRepository.

Lemma create_eq (w : World) (p : Permission.t) :
  create p w
  = if existsb (PrismaPermission.has_id (Permission.id p)) (permissions w)
       || existsb (PrismaPermission.has_name (Permission.name p)) (permissions w)
    then (Throw (StoreFailure "P2002"), w)
    else (Ok (mapToModel (row_of p (clock w))),
          set_permissions (permissions w ++ [row_of p (clock w)])%list w).
Proof.
  unfold create, PrismaPermission.create.
  unfold now; unfold bind, gets, modify, ret, throw.
  destruct (existsb _ _ || existsb _ _); reflexivity.
Qed.

Lemma update_eq (w : World) (p : Permission.t) :
  update p w
  = match find (PrismaPermission.has_id (Permission.id p)) (permissions w) with
    | None => (Throw (StoreFailure "P2025"), w)
    | Some old =>
        if existsb
             (fun r => PrismaPermission.has_name (Permission.name p) r
                       && negb (PrismaPermission.has_id (Permission.id p) r))
             (permissions w)
        then (Throw (StoreFailure "P2002"), w)
        else
          let row :=
            PermissionRecord.mk (Permission.id p) (Permission.name p)
              (Permission.description p) (Permission.resource p)
              (Permission.action p) (PermissionRecord.createdAt old) (clock w) in
          (Ok (mapToModel row),
           set_permissions
             (replace_where (PrismaPermission.has_id (Permission.id p)) row
                            (permissions w))
             w)
    end.
Proof.
  unfold update, PrismaPermission.update.
  unfold now; unfold bind, gets, modify, ret, throw.
  destruct (find _ (permissions w)); [|reflexivity].
  destruct (existsb _ _); reflexivity.
Qed.

Lemma findById_eq (w : World) (id : string) :
  findById id w
  = (Ok (option_map mapToModel
           (find (PrismaPermission.has_id id) (permissions w))), w).
Proof.
  unfold findById, PrismaPermission.findUnique_id, bind, gets, ret.
  destruct (find _ (permissions w)); reflexivity.
Qed.

Lemma findByName_eq (w : World) (name : string) :
  findByName name w
  = (Ok (option_map mapToModel
           (find (PrismaPermission.has_name name) (permissions w))), w).
Proof.
  unfold findByName, PrismaPermission.findUnique_name, bind, gets, ret.
  destruct (find _ (permissions w)); reflexivity.
Qed.

(** A query that the rewritten rows and the new row all fail is not
    disturbed by an update. *)
Lemma find_replace_where_other {A : Type} (p same : A -> bool) (new : A)
      (l : list A) :
  (forall x, same x = true -> p x = false) ->
  p new = false ->
  find p (replace_where same new l) = find p l.
Proof.
  intros Hsame Hnew.
  induction l as [|a l IH]; simpl.
  - reflexivity.
  - destruct (same a) eqn:Ha.
    + rewrite Hnew, (Hsame a Ha). exact IH.
    + destruct (p a); [reflexivity|exact IH].
Qed.

Lemma find_app_present {A : Type} (p : A -> bool) (l : list A) (a b : A) :
  find p l = Some b -> find p (l ++ [a])%list = Some b.
Proof.
  induction l as [|c l IH]; simpl.
  - discriminate.
  - destruct (p c); auto.
Qed.

(** Insert and look up: on a catalog where neither the id nor the name is
    taken, [create] returns a permission with the five fields it was given;
    afterwards [findById] and [findByName] both answer that permission, and
    [findAll] answers what it answered before followed by it. *)
Theorem create_then_lookup (w : World) (p : Permission.t) :
  existsb (PrismaPermission.has_id (Permission.id p)) (permissions w) = false ->
  existsb (PrismaPermission.has_name (Permission.name p)) (permissions w) = false ->
  exists created,
    let w' := after (create p) w in
    outcome (create p) w = Ok created
    /\ Permission.id created = Permission.id p
    /\ Permission.name created = Permission.name p
    /\ Permission.description created = Permission.description p
    /\ Permission.resource created = Permission.resource p
    /\ Permission.action created = Permission.action p
    /\ outcome (findById (Permission.id p)) w' = Ok (Some created)
    /\ outcome (findByName (Permission.name p)) w' = Ok (Some created)
    /\ forall before,
        outcome findAll w = Ok before ->
        outcome findAll w' = Ok (before ++ [created])%list.
Proof.
  intros Hid Hname.
  exists (mapToModel (row_of p (clock w))).
  unfold outcome, after. rewrite create_eq, Hid, Hname. cbn [orb fst snd].
  repeat split.
  - unfold findById, PrismaPermission.findUnique_id, bind, gets, ret.
    cbn [permissions set_permissions].
    rewrite find_app_absent by exact Hid.
    unfold PrismaPermission.has_id at 1. cbn [row_of PermissionRecord.id].
    rewrite String.eqb_refl. reflexivity.
  - unfold findByName, PrismaPermission.findUnique_name, bind, gets, ret.
    cbn [permissions set_permissions].
    rewrite find_app_absent by exact Hname.
    unfold PrismaPermission.has_name at 1. cbn [row_of PermissionRecord.name].
    rewrite String.eqb_refl. reflexivity.
  - intros before.
    unfold findAll, PrismaPermission.findMany, bind, gets, ret.
    cbn [fst permissions set_permissions].
    intros H. injection H as <-. rewrite map_app. reflexivity.
Qed.

Lemma create_then_lookup_witness :
  outcome (create manage_roles) catalog_world
  = Ok (Permission.mk "p3" "roles:manage" "Manage roles" "roles" "manage"
                      1000 1000)
  /\ outcome (findByName "roles:manage") (after (create manage_roles) catalog_world)
     = Ok (Some (Permission.mk "p3" "roles:manage" "Manage roles" "roles"
                               "manage" 1000 1000)).
Proof.
  destruct (create_then_lookup catalog_world manage_roles eq_refl eq_refl)
    as (created & Hc & _ & _ & _ & _ & _ & _ & Hname & _).
  assert (Hval : outcome (create manage_roles) catalog_world
                 = Ok (Permission.mk "p3" "roles:manage" "Manage roles" "roles"
                                     "manage" 1000 1000))
    by reflexivity.
  split; [exact Hval|].
  cbv zeta in Hc, Hname. rewrite Hval in Hc. injection Hc as <-.
  exact Hname.
Defined.

(** A write the store refuses is not caught and writes nothing: [create]
    throws when the id or the name is taken, [update] throws when no row has
    the id or when another row has the name, and the catalog is as it was.
    [delete] alone answers a refusal with [false]. *)
Theorem refused_writes_change_nothing (w : World) (p : Permission.t) :
  (existsb (PrismaPermission.has_id (Permission.id p)) (permissions w) = true
   \/ existsb (PrismaPermission.has_name (Permission.name p)) (permissions w)
      = true ->
   create p w = (Throw (StoreFailure "P2002"), w))
  /\ (existsb (PrismaPermission.has_id (Permission.id p)) (permissions w) = false ->
      update p w = (Throw (StoreFailure "P2025"), w)
      /\ delete (Permission.id p) w = (Ok false, w))
  /\ (forall e w', create p w = (Throw e, w') -> w' = w)
  /\ (forall e w', update p w = (Throw e, w') -> w' = w).
Proof.
  split; [|split; [|split]].
  - intros H. rewrite create_eq.
    destruct H as [H|H]; rewrite H; [|rewrite orb_true_r]; reflexivity.
  - intros H. rewrite update_eq, delete_eq, H.
    apply find_none_existsb in H. rewrite H. split; reflexivity.
  - intros e w'. rewrite create_eq.
    destruct (existsb _ _ || existsb _ _).
    + intros H. injection H as _ <-. reflexivity.
    + discriminate.
  - intros e w'. rewrite update_eq.
    destruct (find _ (permissions w)).
    + destruct (existsb _ _).
      * intros H. injection H as _ <-. reflexivity.
      * discriminate.
    + intros H. injection H as _ <-. reflexivity.
Qed.

Lemma refused_writes_change_nothing_witness :
  create (Permission.mk "p9" "users:read" "" "users" "read" 0 0) catalog_world
  = (Throw (StoreFailure "P2002"), catalog_world)
  /\ update manage_roles catalog_world
     = (Throw (StoreFailure "P2025"), catalog_world).
Proof.
  split.
  - apply (proj1 (refused_writes_change_nothing catalog_world
                    (Permission.mk "p9" "users:read" "" "users" "read" 0 0))).
    right. reflexivity.
  - apply (proj1 (proj2 (refused_writes_change_nothing catalog_world manage_roles))).
    reflexivity.
Defined.

(** [update] rewrites the row of the id: it returns the permission with
    the four fields it was given, under the same id and with the creation
    stamp of the old row; afterwards [findById] answers it, and [findById]
    of any other id answers what it answered before. *)
Theorem update_then_lookup (w : World) (p : Permission.t)
        (old : Permission.t) :
  outcome (findById (Permission.id p)) w = Ok (Some old) ->
  existsb (fun r => PrismaPermission.has_name (Permission.name p) r
                    && negb (PrismaPermission.has_id (Permission.id p) r))
          (permissions w) = false ->
  exists updated,
    let w' := after (update p) w in
    outcome (update p) w = Ok updated
    /\ Permission.id updated = Permission.id p
    /\ Permission.name updated = Permission.name p
    /\ Permission.description updated = Permission.description p
    /\ Permission.resource updated = Permission.resource p
    /\ Permission.action updated = Permission.action p
    /\ Permission.createdAt updated = Permission.createdAt old
    /\ outcome (findById (Permission.id p)) w' = Ok (Some updated)
    /\ (forall id,
          id <> Permission.id p ->
          outcome (findById id) w' = outcome (findById id) w)
    /\ List.length (permissions w') = List.length (permissions w).
Proof.
  unfold outcome, after.
  unfold findById at 1, PrismaPermission.findUnique_id, bind, gets, ret.
  destruct (find _ (permissions w)) as [row|] eqn:Hfind; cbn [fst];
    [|discriminate].
  intros Hold Hname. injection Hold as <-.
  rewrite update_eq, Hfind, Hname. cbv zeta. cbn [fst snd].
  eexists. repeat split.
  - unfold findById, PrismaPermission.findUnique_id, bind, gets, ret.
    cbn [permissions set_permissions].
    erewrite find_replace_where.
    + reflexivity.
    + exact Hfind.
    + apply find_some_holds in Hfind. exact Hfind.
    + unfold PrismaPermission.has_id. simpl. apply String.eqb_refl.
  - intros id Hneq. rewrite !findById_eq.
    cbn [fst permissions set_permissions].
    rewrite find_replace_where_other.
    + reflexivity.
    + intros x Hx. unfold PrismaPermission.has_id in *.
      apply String.eqb_eq in Hx. rewrite Hx.
      apply String.eqb_neq. congruence.
    + unfold PrismaPermission.has_id. simpl.
      apply String.eqb_neq. congruence.
  - cbn [permissions set_permissions]. unfold replace_where.
    apply length_map.
Qed.

Lemma update_then_lookup_witness :
  outcome (update (Permission.mk "p1" "users:list" "List users" "users" "list"
                                 0 0))
          catalog_world
  = Ok (Permission.mk "p1" "users:list" "List users" "users" "list" 10 1000)
  /\ outcome (findById "p2")
        (after (update (Permission.mk "p1" "users:list" "List users" "users"
                                      "list" 0 0))
               catalog_world)
     = outcome (findById "p2") catalog_world.
Proof.
  destruct (update_then_lookup catalog_world
              (Permission.mk "p1" "users:list" "List users" "users" "list" 0 0)
              (mapToModel read_users) eq_refl eq_refl)
    as (updated & _ & _ & _ & _ & _ & _ & _ & _ & Hother & _).
  split; [reflexivity|].
  apply Hother. discriminate.
Defined.

(** *** Unique ids and names *)

Lemma existsb_false_not_in {A : Type} (f : A -> string) (v : string)
      (l : list A) :
  existsb (fun r => String.eqb (f r) v) l = false -> ~ In v (map f l).
Proof.
  intros Hex Hin. apply in_map_iff in Hin. destruct Hin as (r & Hr & Hin).
  assert (H : existsb (fun r => String.eqb (f r) v) l = true).
  { apply existsb_exists. exists r. split; [exact Hin|].
    apply String.eqb_eq. exact Hr. }
  congruence.
Qed.

Lemma NoDup_map_snoc {A : Type} (f : A -> string) (l : list A) (a : A) :
  NoDup (map f l) -> ~ In (f a) (map f l) -> NoDup (map f (l ++ [a])%list).
Proof.
  intros Hnd Hin. rewrite map_app. simpl.
  apply NoDup_app; [exact Hnd|repeat constructor; intros []|].
  intros x Hx [<-|[]]. exact (Hin Hx).
Qed.

Lemma NoDup_map_filter {A B : Type} (f : A -> B) (q : A -> bool) (l : list A) :
  NoDup (map f l) -> NoDup (map f (filter q l)).
Proof.
  induction l as [|a l IH]; simpl; intros Hnd.
  - constructor.
  - inversion Hnd as [|x xs Hnot Hrest]; subst.
    destruct (q a); simpl.
    + constructor.
      * intros Hin. apply Hnot. apply in_map_iff in Hin.
        destruct Hin as (r & Hr & Hin). apply filter_In in Hin.
        apply in_map_iff. exists r. tauto.
      * auto.
    + auto.
Qed.

(** Rows rewritten under an id keep their ids. *)
Lemma map_id_replace_where (id : string) (row : PermissionRecord.t)
      (l : list PermissionRecord.t) :
  PermissionRecord.id row = id ->
  map PermissionRecord.id (replace_where (PrismaPermission.has_id id) row l)
  = map PermissionRecord.id l.
Proof.
  intros Hrow.
  induction l as [|a l IH]; simpl.
  - reflexivity.
  - rewrite IH. f_equal.
    unfold PrismaPermission.has_id.
    destruct (String.eqb_spec (PermissionRecord.id a) id); congruence.
Qed.

Lemma replace_where_absent (id : string) (row : PermissionRecord.t)
      (l : list PermissionRecord.t) :
  ~ In id (map PermissionRecord.id l) ->
  replace_where (PrismaPermission.has_id id) row l = l.
Proof.
  induction l as [|a l IH]; simpl; intros Hnot.
  - reflexivity.
  - unfold PrismaPermission.has_id at 1.
    destruct (String.eqb_spec (PermissionRecord.id a) id) as [Heq|_].
    + exfalso. apply Hnot. left. exact Heq.
    + f_equal. apply IH. intros Hin. apply Hnot. right. exact Hin.
Qed.

(** Renaming the one row of an id to a name no other row has keeps names
    apart. *)
Lemma NoDup_names_replace_where (row : PermissionRecord.t)
      (l : list PermissionRecord.t) :
  NoDup (map PermissionRecord.id l) ->
  NoDup (map PermissionRecord.name l) ->
  (forall r, In r l ->
             PermissionRecord.name r = PermissionRecord.name row ->
             PermissionRecord.id r = PermissionRecord.id row) ->
  NoDup (map PermissionRecord.name
             (replace_where (PrismaPermission.has_id (PermissionRecord.id row))
                            row l)).
Proof.
  induction l as [|a l IH]; simpl; intros Hids Hnames Hother.
  - constructor.
  - inversion Hids as [|x xs Hid_not Hids']; subst.
    inversion Hnames as [|x xs Hname_not Hnames']; subst.
    unfold PrismaPermission.has_id at 1.
    destruct (String.eqb_spec (PermissionRecord.id a) (PermissionRecord.id row))
      as [Heq|Hneq].
    + rewrite <- Heq. rewrite replace_where_absent by exact Hid_not.
      constructor; [|exact Hnames'].
      intros Hin. apply in_map_iff in Hin. destruct Hin as (r & Hr & Hin).
      apply Hid_not. apply in_map_iff. exists r. split; [|exact Hin].
      rewrite Heq. apply Hother; [right; exact Hin|exact Hr].
    + constructor.
      * intros Hin. apply in_map_iff in Hin. destruct Hin as (r & Hr & Hin).
        apply In_replace_where in Hin. destruct Hin as [[-> _]|Hin].
        -- apply Hneq. apply Hother; [left; reflexivity|congruence].
        -- apply Hname_not. apply in_map_iff. exists r. tauto.
      * apply IH; auto.
Qed.

Lemma catalog_unique_step (w w' : World) :
  catalog_step w w' -> catalog_unique w -> catalog_unique w'.
Proof.
  intros Hstep [Hids Hnames].
  destruct Hstep as [p w|p w|id w|w w' Hsame]; unfold catalog_unique, after.
  - rewrite create_eq.
    destruct (existsb _ _ || existsb _ _) eqn:Htaken;
      cbn [snd permissions set_permissions]; [split; assumption|].
    apply orb_false_iff in Htaken. destruct Htaken as [Hid Hname].
    split; apply NoDup_map_snoc; auto.
    + exact (existsb_false_not_in PermissionRecord.id _ _ Hid).
    + exact (existsb_false_not_in PermissionRecord.name _ _ Hname).
  - rewrite update_eq.
    destruct (find _ (permissions w)) as [old|]; [|split; assumption].
    destruct (existsb _ _) eqn:Hname; cbv zeta;
      cbn [snd permissions set_permissions]; [split; assumption|].
    split.
    + rewrite map_id_replace_where by reflexivity. exact Hids.
    + set (row := PermissionRecord.mk _ _ _ _ _ _ _).
      change (Permission.id p) with (PermissionRecord.id row).
      apply NoDup_names_replace_where; auto.
      intros r Hin Hr.
      destruct (String.eqb_spec (PermissionRecord.id r) (PermissionRecord.id row))
        as [Heq|Hneq]; [exact Heq|].
      exfalso.
      assert (H : existsb
                    (fun r => PrismaPermission.has_name (Permission.name p) r
                              && negb (PrismaPermission.has_id (Permission.id p) r))
                    (permissions w) = true).
      { apply existsb_exists. exists r. split; [exact Hin|].
        unfold PrismaPermission.has_name, PrismaPermission.has_id.
        apply andb_true_iff. split.
        - apply String.eqb_eq. exact Hr.
        - apply negb_true_iff. apply String.eqb_neq. exact Hneq. }
      congruence.
  - rewrite delete_eq.
    destruct (existsb _ _); cbn [snd permissions set_permissions];
      [|split; assumption].
    split; apply NoDup_map_filter; assumption.
  - rewrite Hsame. split; assumption.
Qed.

Lemma find_unique {A : Type} (f : A -> string) (l : list A) (r : A) :
  NoDup (map f l) -> In r l ->
  find (fun x => String.eqb (f x) (f r)) l = Some r.
Proof.
  induction l as [|a l IH]; simpl; intros Hnd Hin.
  - destruct Hin.
  - inversion Hnd as [|x xs Hnot Hrest]; subst.
    destruct Hin as [->|Hin].
    + rewrite String.eqb_refl. reflexivity.
    + destruct (String.eqb_spec (f a) (f r)) as [Heq|_].
      * exfalso. apply Hnot. rewrite Heq. apply in_map. exact Hin.
      * auto.
Qed.

(** From an empty catalog, whatever the repository is asked to create,
    update and delete, no two permissions share an id or a name; so the
    permission [findByName] answers is the one [findById] answers for its
    id. *)
Theorem catalog_stays_unique (w : World) :
  catalog_reachable w ->
  catalog_unique w
  /\ forall name found,
       outcome (findByName name) w = Ok (Some found) ->
       Permission.name found = name
       /\ outcome (findById (Permission.id found)) w = Ok (Some found).
Proof.
  intros Hreach.
  assert (Huniq : catalog_unique w).
  { induction Hreach as [w Hempty|w w' _ IH Hstep].
    - unfold catalog_unique. rewrite Hempty. split; constructor.
    - exact (catalog_unique_step w w' Hstep IH). }
  split; [exact Huniq|].
  intros name found.
  unfold outcome, findByName, findById, PrismaPermission.findUnique_name,
    PrismaPermission.findUnique_id, bind, gets, ret.
  destruct (find _ (permissions w)) as [row|] eqn:Hfind; cbn [fst];
    [|discriminate].
  intros H. injection H as <-.
  pose proof (find_some _ _ Hfind) as [Hin Hname].
  split.
  - apply String.eqb_eq in Hname. exact Hname.
  - change (Permission.id (mapToModel row)) with (PermissionRecord.id row).
    unfold PrismaPermission.has_id.
    rewrite (find_unique PermissionRecord.id _ row (proj1 Huniq) Hin).
    reflexivity.
Qed.

Lemma catalog_stays_unique_witness :
  catalog_unique
    (after (update (Permission.mk "p3" "roles:admin" "" "roles" "admin" 0 0))
           (after (create manage_roles) plain_world)).
Proof.
  apply catalog_stays_unique.
  apply (catalog_next (after (create manage_roles) plain_world)).
  - apply (catalog_next plain_world).
    + apply catalog_empty. reflexivity.
    + apply catalog_create.
  - apply catalog_update.
Defined.

(** [findByResource] answers the permissions [findAll] answers that have
    the resource, in the same order, and nothing else. *)
Theorem findByResource_filters_findAll (w : World) (resource : string) :
  exists all found,
    findAll w = (Ok all, w)
    /\ findByResource resource w = (Ok found, w)
    /\ found
       = filter (fun p => String.eqb (Permission.resource p) resource) all
    /\ Forall (fun p => Permission.resource p = resource) found.
Proof.
  unfold findAll, findByResource, PrismaPermission.findMany,
    PrismaPermission.findMany_resource, bind, gets, ret.
  do 2 eexists. split; [reflexivity|]. split; [reflexivity|].
  assert (Hmap :
    map mapToModel (filter (PrismaPermission.has_resource resource) (permissions w))
    = filter (fun p => String.eqb (Permission.resource p) resource)
             (map mapToModel (permissions w))).
  { induction (permissions w) as [|a l IH]; simpl.
    - reflexivity.
    - unfold PrismaPermission.has_resource at 1.
      destruct (String.eqb _ resource); simpl; rewrite IH; reflexivity. }
  split; [exact Hmap|].
  rewrite Hmap. apply Forall_forall. intros p Hp.
  apply filter_In in Hp. apply String.eqb_eq. tauto.
Qed.

Lemma find_filter_other (id other : string) (l : list PermissionRecord.t) :
  other <> id ->
  find (PrismaPermission.has_id other)
       (filter (fun r => negb (PrismaPermission.has_id id r)) l)
  = find (PrismaPermission.has_id other) l.
Proof.
  intros Hneq.
  induction l as [|a l IH]; simpl.
  - reflexivity.
  - destruct (PrismaPermission.has_id id a) eqn:Hid,
             (PrismaPermission.has_id other a) eqn:Hother; simpl;
      try rewrite Hother; auto.
    unfold PrismaPermission.has_id in Hid, Hother.
    apply String.eqb_eq in Hid. apply String.eqb_eq in Hother. congruence.
Qed.

Lemma map_filter_kept (id : string) (l : list PermissionRecord.t) :
  map mapToModel (filter (fun r => negb (PrismaPermission.has_id id r)) l)
  = filter (fun p => negb (String.eqb (Permission.id p) id)) (map mapToModel l).
Proof.
  induction l as [|a l IH]; simpl.
  - reflexivity.
  - change (Permission.id (mapToModel a)) with (PermissionRecord.id a).
    change (PrismaPermission.has_id id a)
      with (String.eqb (PermissionRecord.id a) id).
    destruct (String.eqb (PermissionRecord.id a) id); simpl; rewrite IH;
      reflexivity.
Qed.

Lemma filter_kept_all (id : string) (l : list PermissionRecord.t) :
  existsb (PrismaPermission.has_id id) l = false ->
  filter (fun r => negb (PrismaPermission.has_id id r)) l = l.
Proof.
  induction l as [|a l IH]; simpl.
  - reflexivity.
  - intros H. apply orb_false_iff in H. destruct H as [Ha Hl].
    rewrite Ha. simpl. f_equal. auto.
Qed.

(** [delete] removes the permission of the id and no other: afterwards
    [findById] of any other id answers what it answered before, and
    [findAll] answers what it answered before without the permissions of
    the id. *)
Theorem delete_removes_only_the_id (w : World) (id : string) :
  let w' := after (delete id) w in
  (forall other,
      other <> id ->
      outcome (findById other) w' = outcome (findById other) w)
  /\ (forall before,
        outcome findAll w = Ok before ->
        outcome findAll w'
        = Ok (filter (fun p => negb (String.eqb (Permission.id p) id)) before)).
Proof.
  cbv zeta.
  assert (Hrows :
    permissions (after (delete id) w)
    = filter (fun r => negb (PrismaPermission.has_id id r)) (permissions w)).
  { unfold after. rewrite delete_eq.
    destruct (existsb _ _) eqn:Hex; cbn [snd permissions set_permissions].
    - reflexivity.
    - symmetry. apply filter_kept_all. exact Hex. }
  split.
  - intros other Hneq. unfold outcome. rewrite !findById_eq. cbn [fst].
    rewrite Hrows, find_filter_other by exact Hneq. reflexivity.
  - intros before.
    unfold outcome, findAll, PrismaPermission.findMany, bind, gets, ret.
    cbn [fst]. intros H. injection H as <-.
    rewrite Hrows, map_filter_kept. reflexivity.
Qed.

End CatalogWrites.

(** ** Issuing one-time passwords *)

Section OtpIssuance.

Import AuthService AuthServiceIssuance.

(** The one-time password [generateOtp] stores in a world. *)
Lemma generateOtp_eq (w : World) (generated : SpeakeasyCodes.GeneratedSecret)
      (userId : string) :
  generateOtp generated userId w
  = match find (fun u => String.eqb (User.id u) userId) (users w) with
    | None => (Rejected (EntityNotFoundException "User" (Some userId)), w)
    | Some _ =>
        let otp :=
          Otp.new (Js.to_decimal (nextId w)) (clock w) userId
                  (SpeakeasyCodes.base32 generated)
                  (expiration (otpConfig (config w))) in
        let w' := set_otps (otp :: otps w) (set_nextId (nextId w + 1) w) in
        match SpeakeasyCodes.totp
                (totp_options (SpeakeasyCodes.base32 generated)
                              (otpConfig (config w)))
                (clock w)
        with
        | Some code => (Returned code, w')
        | None => (Crashed "RangeError", w')
        end
    end.
Proof.
  unfold generateOtp, UserRepository.findById, OtpRepository.create, newId.
  unfold now; unfold task_bind, lift, task_ret, task_reject, task_crash,
    bind, gets, modify, ret.
  destruct (find _ (users w)); [|reflexivity].
  cbn [config clock nextId otps set_nextId set_otps].
  destruct (SpeakeasyCodes.totp _ _); reflexivity.
Qed.

Lemma digits_or_six_positive (d : Z) :
  0 <= d -> 0 < Js.or_default (Js.Num d) 6.
Proof.
  intros Hd. unfold Js.or_default. destruct (Z.eqb_spec d 0); lia.
Qed.

(** With a number of digits that is not negative, a code is generated, and
    it is the one [Speakeasy.hotp] gives for the counter of the clock. *)
Lemma totp_generated (secret : string) (c : OtpConfig) (t : Z) :
  0 <= digits c ->
  SpeakeasyCodes.totp (totp_options secret c) t
  = Some (Speakeasy.hotp (verify_options secret "" c)
            (Speakeasy.totp_counter (verify_options "" "" c) t)).
Proof.
  intros Hd. unfold SpeakeasyCodes.totp, SpeakeasyCodes.hotp.
  assert (Hn : Speakeasy.hotp_digits (totp_options secret c)
               = Js.or_default (Js.Num (digits c)) 6) by reflexivity.
  assert (Hpos : 0 < Js.or_default (Js.Num (digits c)) 6)
    by (apply digits_or_six_positive; exact Hd).
  rewrite Hn.
  destruct (Z.ltb_spec (Js.or_default (Js.Num (digits c)) 6 + 1) 0); [lia|].
  destruct (Z.eqb_spec (Js.or_default (Js.Num (digits c)) 6) (-1)); [lia|].
  reflexivity.
Qed.

(** [generateOtp] for a user that does not exist is rejected with
    [EntityNotFoundException] and writes nothing.  For a user that exists,
    with a configured number of digits that is not negative, it returns a
    code of that many decimal digits (six when the number is zero) and has
    stored, in front of the one-time passwords there were, one that belongs
    to the user, holds the drawn secret, is not verified and expires the
    configured number of minutes after the clock; no other table changes. *)
Theorem generateOtp_issues (w : World)
        (generated : SpeakeasyCodes.GeneratedSecret) (userId : string) :
  (outcome (UserRepository.findById userId) w = Ok None ->
   generateOtp generated userId w
   = (Rejected (EntityNotFoundException "User" (Some userId)), w))
  /\ (forall user,
        outcome (UserRepository.findById userId) w = Ok (Some user) ->
        0 <= digits (otpConfig (config w)) ->
        let w' := left_by (generateOtp generated userId) w in
        exists code otp,
          answer (generateOtp generated userId) w = Returned code
          /\ Z.of_nat (String.length code)
             = Js.or_default (Js.Num (digits (otpConfig (config w)))) 6
          /\ all_digits code = true
          /\ otps w' = otp :: otps w
          /\ Otp.userId otp = userId
          /\ Otp.secret otp = SpeakeasyCodes.base32 generated
          /\ Otp.verified otp = false
          /\ Otp.expiresAt otp
             = clock w + expiration (otpConfig (config w)) * 60 * 1000
          /\ users w' = users w
          /\ refreshTokens w' = refreshTokens w
          /\ permissions w' = permissions w).
Proof.
  unfold outcome, answer, left_by. rewrite generateOtp_eq.
  unfold UserRepository.findById, gets. cbn [fst].
  split.
  - intros H. injection H as ->. reflexivity.
  - intros user H Hd. injection H as ->. cbv zeta.
    rewrite totp_generated by exact Hd. cbn [fst snd].
    destruct (hotp_shape
                (verify_options (SpeakeasyCodes.base32 generated) ""
                                (otpConfig (config w)))
                (Speakeasy.totp_counter
                   (verify_options "" "" (otpConfig (config w))) (clock w)))
      as [Hlen Hdig].
    do 2 eexists. split; [reflexivity|].
    split.
    { rewrite Hlen.
      change (Speakeasy.hotp_digits _)
        with (Js.or_default (Js.Num (digits (otpConfig (config w)))) 6).
      apply Z2Nat.id.
      pose proof (digits_or_six_positive _ Hd). lia. }
    split; [exact Hdig|].
    repeat split.
Qed.

Lemma generateOtp_issues_witness :
  generateOtp generated_secret "u9" plain_world
  = (Rejected (EntityNotFoundException "User" (Some "u9")), plain_world)
  /\ answer (generateOtp generated_secret "u1") plain_world = Returned "287082"
  /\ otps (left_by (generateOtp generated_secret "u1") plain_world)
     = [Otp.mk "0" "u1" rfc_secret 59000 359000 false].
Proof.
  split.
  - apply (proj1 (generateOtp_issues plain_world generated_secret "u9")).
    reflexivity.
  - split; vm_compute; reflexivity.
Defined.

(** Issue, then verify: the code [generateOtp] returned is accepted by
    [verifyOtp] at every later reading of the clock that is in the same
    time step and not past the expiry of the one-time password. *)
Theorem generateOtp_then_verifyOtp (w : World)
        (generated : SpeakeasyCodes.GeneratedSecret) (userId : string)
        (user : User.t) (later : Z) :
  outcome (UserRepository.findById userId) w = Ok (Some user) ->
  0 <= digits (otpConfig (config w)) ->
  current_counter (set_clock later w) = current_counter w ->
  later <= clock w + expiration (otpConfig (config w)) * 60 * 1000 ->
  exists code,
    answer (generateOtp generated userId) w = Returned code
    /\ outcome (verifyOtp userId code)
               (set_clock later (left_by (generateOtp generated userId) w))
       = Ok true.
Proof.
  unfold outcome, answer, left_by. rewrite generateOtp_eq.
  unfold UserRepository.findById, gets. cbn [fst].
  intros H Hd Hstep Hlive. injection H as Hu. rewrite Hu. cbv zeta.
  rewrite totp_generated by exact Hd. cbn [fst snd].
  eexists. split; [reflexivity|].
  rewrite verifyOtp_eq.
  cbn [users otps clock config set_clock set_otps set_nextId find].
  rewrite Hu.
  unfold Otp.new, Otp.isExpired. cbn [Otp.userId find].
  rewrite String.eqb_refl. cbn [Otp.expiresAt Otp.secret].
  apply Z.ltb_ge in Hlive. rewrite Hlive.
  unfold isValid. cbn [clock config set_clock set_otps set_nextId].
  unfold current_counter in Hstep. cbn [clock config set_clock] in Hstep.
  rewrite <- Hstep.
  rewrite totp_verify_current by exact Hd. reflexivity.
Qed.

Lemma generateOtp_then_verifyOtp_witness :
  answer (generateOtp generated_secret "u1") plain_world = Returned "287082"
  /\ outcome (verifyOtp "u1" "287082")
             (set_clock 59999
                (left_by (generateOtp generated_secret "u1") plain_world))
     = Ok true.
Proof.
  destruct (generateOtp_then_verifyOtp plain_world generated_secret "u1"
              plain_alice 59999)
    as (code & Hcode & Hverify).
  - reflexivity.
  - vm_compute. discriminate.
  - vm_compute. reflexivity.
  - vm_compute. discriminate.
  - assert (Hval : answer (generateOtp generated_secret "u1") plain_world
                   = Returned "287082") by (vm_compute; reflexivity).
    split; [exact Hval|].
    rewrite Hval in Hcode. injection Hcode as <-. exact Hverify.
Defined.

(** The world [generateOtp] leaves for a user that exists, whether or not
    a code could be generated. *)
Lemma left_by_generateOtp (w : World)
      (generated : SpeakeasyCodes.GeneratedSecret) (userId : string)
      (user : User.t) :
  find (fun u => String.eqb (User.id u) userId) (users w) = Some user ->
  left_by (generateOtp generated userId) w
  = set_otps
      (Otp.new (Js.to_decimal (nextId w)) (clock w) userId
               (SpeakeasyCodes.base32 generated)
               (expiration (otpConfig (config w))) :: otps w)
      (set_nextId (nextId w + 1) w).
Proof.
  intros Hu. unfold left_by. rewrite generateOtp_eq, Hu. cbv zeta.
  destruct (SpeakeasyCodes.totp _ _); reflexivity.
Qed.

(** The expiry of an issued one-time password is sharp: [verifyOtp] throws
    [OtpExpiredException], whatever the token, exactly when the clock is
    past the clock of the issue plus the configured minutes; up to and
    including that instant the token is compared. *)
Theorem issued_otp_expiry (w : World)
        (generated : SpeakeasyCodes.GeneratedSecret) (userId token : string)
        (user : User.t) (later : Z) :
  outcome (UserRepository.findById userId) w = Ok (Some user) ->
  let w' := set_clock later (left_by (generateOtp generated userId) w) in
  let expiry := clock w + expiration (otpConfig (config w)) * 60 * 1000 in
  (expiry < later -> verifyOtp userId token w' = (Throw OtpExpiredException, w'))
  /\ (later <= expiry ->
      outcome (verifyOtp userId token) w'
      = if isValid w' (SpeakeasyCodes.base32 generated) token
        then Ok true
        else Throw OtpInvalidException).
Proof.
  unfold outcome, UserRepository.findById, gets. cbn [fst].
  intros H. injection H as Hu. cbv zeta.
  rewrite (left_by_generateOtp w generated userId user Hu).
  rewrite !verifyOtp_eq.
  cbn [users otps clock config set_clock set_otps set_nextId].
  rewrite Hu.
  unfold Otp.new, Otp.isExpired. cbn [Otp.userId find].
  rewrite String.eqb_refl. cbn [Otp.expiresAt Otp.secret].
  split.
  - intros Hpast. apply Z.ltb_lt in Hpast. rewrite Hpast. reflexivity.
  - intros Hlive. apply Z.ltb_ge in Hlive. rewrite Hlive.
    destruct (isValid _ _ _); reflexivity.
Qed.

Lemma issued_otp_expiry_witness :
  outcome (verifyOtp "u1" "287082")
          (set_clock 359000
             (left_by (generateOtp generated_secret "u1") plain_world))
  <> Throw OtpExpiredException
  /\ verifyOtp "u1" "287082"
       (set_clock 359001
          (left_by (generateOtp generated_secret "u1") plain_world))
     = (Throw OtpExpiredException,
        set_clock 359001
          (left_by (generateOtp generated_secret "u1") plain_world)).
Proof.
  split.
  - rewrite (proj2 (issued_otp_expiry plain_world generated_secret "u1"
                      "287082" plain_alice 359000 eq_refl)).
    + destruct (isValid _ _ _); discriminate.
    + vm_compute. discriminate.
  - apply (proj1 (issued_otp_expiry plain_world generated_secret "u1"
                    "287082" plain_alice 359001 eq_refl)).
    vm_compute. reflexivity.
Defined.

End OtpIssuance.

(** ** Verification: replays and malformed tokens *)

Section Verification.

Import AuthService.

Lemma replace_where_idempotent {A : Type} (same : A -> bool) (a : A)
      (l : list A) :
  same a = true ->
  replace_where same a (replace_where same a l) = replace_where same a l.
Proof.
  intros Ha.
  induction l as [|x l IH]; simpl.
  - reflexivity.
  - rewrite IH. destruct (same x) eqn:Hx.
    + rewrite Ha. reflexivity.
    + rewrite Hx. reflexivity.
Qed.

(** [verifyOtp] does not read the [verified] flag: a token it accepted is
    accepted again at the same reading of the clock, and the second call
    leaves the world as the first one left it. *)
Theorem verifyOtp_accepts_replay (w : World) (userId token : string) :
  outcome (verifyOtp userId token) w = Ok true ->
  let w1 := after (verifyOtp userId token) w in
  verifyOtp userId token w1 = (Ok true, w1).
Proof.
  unfold outcome, after. rewrite verifyOtp_eq.
  destruct (find _ (users w)) as [user|] eqn:Hu; [|discriminate].
  destruct (find _ (otps w)) as [otp|] eqn:Ho; [|discriminate].
  destruct (Otp.isExpired (clock w) otp) eqn:Hexp; [discriminate|].
  destruct (isValid w (Otp.secret otp) token) eqn:Hvalid; [|discriminate].
  intros _. cbv zeta. cbn [snd].
  rewrite verifyOtp_eq. cbn [users otps clock set_otps]. rewrite Hu.
  rewrite (findByUserId_after_verify _ _ _ Ho).
  change (Otp.isExpired (clock w) (Otp.markAsVerified otp))
    with (Otp.isExpired (clock w) otp).
  rewrite Hexp.
  change (isValid (set_otps _ w) (Otp.secret (Otp.markAsVerified otp)) token)
    with (isValid w (Otp.secret otp) token).
  rewrite Hvalid.
  change (Otp.id (Otp.markAsVerified otp)) with (Otp.id otp).
  change (Otp.markAsVerified (Otp.markAsVerified otp))
    with (Otp.markAsVerified otp).
  rewrite replace_where_idempotent by apply String.eqb_refl.
  reflexivity.
Qed.

Lemma verifyOtp_accepts_replay_witness :
  outcome (verifyOtp "u1" "287082") skew_world = Ok true
  /\ outcome (verifyOtp "u1" "287082")
             (after (verifyOtp "u1" "287082") skew_world)
     = Ok true.
Proof.
  assert (H : outcome (verifyOtp "u1" "287082") skew_world = Ok true)
    by (vm_compute; reflexivity).
  split; [exact H|].
  unfold outcome at 1.
  rewrite (verifyOtp_accepts_replay skew_world "u1" "287082" H).
  reflexivity.
Defined.

(** A token whose length, in UTF-16 code units as [token.length] counts
    it, is not the configured number of digits (six when the number is
    zero), or that [parseInt] does not read as a number once the white
    space JavaScript skips is skipped, is never valid: before expiry
    [verifyOtp] throws [OtpInvalidException] for it, and so does
    [verifyTwoFactorToken] for an enrolled user; the empty token is one
    such. *)
Theorem malformed_tokens_are_invalid (w : World) (userId token : string) :
  Z.of_nat (Js.length token)
  <> Js.or_default (Js.Num (digits (otpConfig (config w)))) 6
  \/ Js.parseInt token = Js.NaN ->
  (forall secret, isValid w secret token = false)
  /\ (forall user otp,
        outcome (UserRepository.findById userId) w = Ok (Some user) ->
        outcome (OtpRepository.findByUserId userId) w = Ok (Some otp) ->
        Otp.isExpired (clock w) otp = false ->
        verifyOtp userId token w = (Throw OtpInvalidException, w))
  /\ (forall user,
        outcome (UserRepository.findById userId) w = Ok (Some user) ->
        User.otpEnabled user = true ->
        Js.falsy (User.otpSecret user) = false ->
        verifyTwoFactorToken userId token w = (Throw OtpInvalidException, w)).
Proof.
  intros Hbad.
  assert (Hinvalid : forall secret, isValid w secret token = false).
  { intros secret. unfold isValid. rewrite totp_verify_without_window.
    destruct Hbad as [Hlen|Hnan].
    - apply Z.eqb_neq in Hlen. rewrite Hlen. reflexivity.
    - rewrite Hnan.
      assert (Hneq : forall a, Js.strict_eq a Js.NaN = false)
        by (intros []; reflexivity).
      rewrite Hneq. apply andb_false_r. }
  split; [exact Hinvalid|]. split.
  - intros user otp Hu Ho Hlive.
    unfold outcome, UserRepository.findById, OtpRepository.findByUserId, gets
      in Hu, Ho.
    cbn [fst] in Hu, Ho. injection Hu as Hu. injection Ho as Ho.
    rewrite verifyOtp_eq, Hu, Ho, Hlive, Hinvalid. reflexivity.
  - intros user Hu Hon Hsecret.
    unfold outcome, UserRepository.findById, gets in Hu.
    cbn [fst] in Hu. injection Hu as Hu.
    rewrite verifyTwoFactorToken_eq, Hu, Hon, Hsecret, Hinvalid. reflexivity.
Qed.

Lemma malformed_tokens_are_invalid_witness :
  verifyOtp "u1" "" skew_world = (Throw OtpInvalidException, skew_world)
  /\ verifyOtp "u1" "28708" skew_world = (Throw OtpInvalidException, skew_world)
  /\ verifyTwoFactorToken "u1" "abcdef" skew_world
     = (Throw OtpInvalidException, skew_world).
Proof.
  assert (Hshort : Z.of_nat (Js.length "28708")
                   <> Js.or_default
                        (Js.Num (digits (otpConfig (config skew_world)))) 6)
    by (vm_compute; discriminate).
  split; [|split].
  - apply (proj1 (proj2 (malformed_tokens_are_invalid skew_world "u1" ""
                           (or_intror eq_refl))) alice alice_otp);
      reflexivity.
  - apply (proj1 (proj2 (malformed_tokens_are_invalid skew_world "u1" "28708"
                           (or_introl Hshort))) alice alice_otp);
      reflexivity.
  - apply (proj2 (proj2 (malformed_tokens_are_invalid skew_world "u1" "abcdef"
                           (or_intror eq_refl))) alice);
      reflexivity.
Defined.

End Verification.

(** ** Two-factor enrolment *)

Section Enrolment.

Import AuthService AuthServiceIssuance.

Lemma setupTwoFactorAuth_eq (w : World)
      (generated : SpeakeasyCodes.GeneratedSecret)
      (toDataURL : string -> option string) (userId : string) :
  setupTwoFactorAuth generated toDataURL userId w
  = match find (fun u => String.eqb (User.id u) userId) (users w) with
    | None => (Rejected (EntityNotFoundException "User" (Some userId)), w)
    | Some user =>
        let enrolled := User.enableOtp (SpeakeasyCodes.base32 generated) user in
        let w' :=
          set_users
            (replace_where (fun x => String.eqb (User.id x) (User.id enrolled))
                           enrolled (users w))
            w in
        match toDataURL (SpeakeasyCodes.otpauth_url generated) with
        | Some url =>
            (Returned (mkTwoFactorSetup (SpeakeasyCodes.base32 generated) url),
             w')
        | None => (Crashed "QRCode", w')
        end
    end.
Proof.
  unfold setupTwoFactorAuth, UserRepository.findById, UserRepository.update.
  unfold task_bind, lift, task_ret, task_reject, task_crash,
    bind, gets, modify, ret.
  destruct (find _ (users w)); [|reflexivity].
  cbv zeta. destruct (toDataURL _); reflexivity.
Qed.

Lemma disableTwoFactorAuth_eq (w : World) (userId : string) :
  disableTwoFactorAuth userId w
  = match find (fun u => String.eqb (User.id u) userId) (users w) with
    | None => (Throw (EntityNotFoundException "User" (Some userId)), w)
    | Some user =>
        (Ok (User.disableOtp user),
         set_users
           (replace_where
              (fun x => String.eqb (User.id x) (User.id (User.disableOtp user)))
              (User.disableOtp user) (users w))
           w)
    end.
Proof.
  unfold disableTwoFactorAuth, UserRepository.findById, UserRepository.update.
  unfold bind, gets, modify, ret, throw.
  destruct (find _ (users w)); reflexivity.
Qed.

(** The user found under an id after a rewritten copy of it was written. *)
Lemma findById_after_write (w : World) (userId : string) (user new : User.t) :
  find (fun u => String.eqb (User.id u) userId) (users w) = Some user ->
  User.id new = User.id user ->
  find (fun u => String.eqb (User.id u) userId)
       (replace_where (fun x => String.eqb (User.id x) (User.id new)) new
                      (users w))
  = Some new.
Proof.
  intros H Hid.
  apply find_replace_where with (old := user).
  - exact H.
  - rewrite Hid. apply String.eqb_refl.
  - apply find_some_holds in H. rewrite Hid. exact H.
Qed.

(** The world [setupTwoFactorAuth] leaves for a user that exists. *)
Lemma left_by_setup (w : World) (generated : SpeakeasyCodes.GeneratedSecret)
      (toDataURL : string -> option string) (userId : string) (user : User.t) :
  find (fun u => String.eqb (User.id u) userId) (users w) = Some user ->
  left_by (setupTwoFactorAuth generated toDataURL userId) w
  = set_users
      (replace_where
         (fun x => String.eqb
                     (User.id x)
                     (User.id (User.enableOtp (SpeakeasyCodes.base32 generated)
                                              user)))
         (User.enableOtp (SpeakeasyCodes.base32 generated) user) (users w))
      w.
Proof.
  intros Hu. unfold left_by. rewrite setupTwoFactorAuth_eq, Hu. cbv zeta.
  destruct (toDataURL _); reflexivity.
Qed.

(** [setupTwoFactorAuth] for a user that does not exist is rejected with
    [EntityNotFoundException] and writes nothing.  For a user that exists
    it writes the user with the flag set and the drawn secret before it has
    the provisioning URI rendered: the user found afterwards is enrolled
    whether the renderer answers, in which case the secret and the image
    are returned, or rejects its input, in which case the call fails. *)
Theorem setupTwoFactorAuth_enrols (w : World)
        (generated : SpeakeasyCodes.GeneratedSecret)
        (toDataURL : string -> option string) (userId : string) :
  (outcome (UserRepository.findById userId) w = Ok None ->
   setupTwoFactorAuth generated toDataURL userId w
   = (Rejected (EntityNotFoundException "User" (Some userId)), w))
  /\ (forall user,
        outcome (UserRepository.findById userId) w = Ok (Some user) ->
        let w' := left_by (setupTwoFactorAuth generated toDataURL userId) w in
        outcome (UserRepository.findById userId) w'
        = Ok (Some (User.enableOtp (SpeakeasyCodes.base32 generated) user))
        /\ answer (setupTwoFactorAuth generated toDataURL userId) w
           = match toDataURL (SpeakeasyCodes.otpauth_url generated) with
             | Some url =>
                 Returned
                   (mkTwoFactorSetup (SpeakeasyCodes.base32 generated) url)
             | None => Crashed "QRCode"
             end
        /\ otps w' = otps w
        /\ refreshTokens w' = refreshTokens w).
Proof.
  unfold outcome at 1 2. unfold UserRepository.findById at 1 2. unfold gets.
  cbn [fst]. split.
  - intros H. injection H as Hu. rewrite setupTwoFactorAuth_eq, Hu.
    reflexivity.
  - intros user H. injection H as Hu. cbv zeta.
    rewrite (left_by_setup w generated toDataURL userId user Hu).
    unfold answer. rewrite setupTwoFactorAuth_eq, Hu. cbv zeta.
    split; [|split; [|split; reflexivity]].
    + unfold outcome, UserRepository.findById, gets.
      cbn [fst users set_users].
      rewrite (findById_after_write w userId user) by (exact Hu || reflexivity).
      reflexivity.
    + destruct (toDataURL _); reflexivity.
Qed.

Lemma setupTwoFactorAuth_enrols_witness :
  setupTwoFactorAuth generated_secret sample_renderer "u9" plain_world
  = (Rejected (EntityNotFoundException "User" (Some "u9")), plain_world)
  /\ outcome (UserRepository.findById "u1")
       (left_by (setupTwoFactorAuth generated_secret (fun _ => None) "u1")
                plain_world)
     = Ok (Some alice)
  /\ answer (setupTwoFactorAuth generated_secret (fun _ => None) "u1") plain_world
     = Crashed "QRCode".
Proof.
  split.
  - apply (proj1 (setupTwoFactorAuth_enrols plain_world generated_secret
                    sample_renderer "u9")).
    reflexivity.
  - destruct (proj2 (setupTwoFactorAuth_enrols plain_world generated_secret
                       (fun _ => None) "u1") plain_alice eq_refl)
      as (Hfound & Hanswer & _).
    split; [exact Hfound|exact Hanswer].
Defined.

(** Enrol, then verify: once [setupTwoFactorAuth] has run for a user that
    exists with a secret that is not empty, [verifyTwoFactorToken] accepts
    the code of the current time step of that secret at every reading of
    the clock, and writes nothing. *)
Theorem setup_then_verifyTwoFactorToken (w : World)
        (generated : SpeakeasyCodes.GeneratedSecret)
        (toDataURL : string -> option string) (userId : string)
        (user : User.t) (later : Z) :
  outcome (UserRepository.findById userId) w = Ok (Some user) ->
  SpeakeasyCodes.base32 generated <> "" ->
  0 <= digits (otpConfig (config w)) ->
  let w' :=
    set_clock later (left_by (setupTwoFactorAuth generated toDataURL userId) w) in
  verifyTwoFactorToken userId
    (code_at w' (SpeakeasyCodes.base32 generated) (current_counter w')) w'
  = (Ok true, w').
Proof.
  unfold outcome, UserRepository.findById, gets. cbn [fst].
  intros H Hsecret Hd. injection H as Hu. cbv zeta.
  rewrite (left_by_setup w generated toDataURL userId user Hu).
  rewrite verifyTwoFactorToken_eq. cbn [users set_users set_clock].
  rewrite (findById_after_write w userId user) by (exact Hu || reflexivity).
  cbn [User.enableOtp User.otpEnabled User.otpSecret negb orb Js.string_of].
  destruct (SpeakeasyCodes.base32 generated) as [|c rest] eqn:Hb;
    [congruence|].
  cbn [Js.falsy].
  unfold isValid, code_at, current_counter. cbn [clock config].
  rewrite totp_verify_current by exact Hd. reflexivity.
Qed.

Lemma setup_then_verifyTwoFactorToken_witness :
  outcome
    (verifyTwoFactorToken "u1" "287082")
    (set_clock 59999
       (left_by (setupTwoFactorAuth generated_secret sample_renderer "u1")
                plain_world))
  = Ok true.
Proof.
  assert (H := setup_then_verifyTwoFactorToken plain_world generated_secret
                 sample_renderer "u1" plain_alice 59999 eq_refl).
  cbv zeta in H. unfold outcome.
  assert (Hcode :
    code_at
      (set_clock 59999
         (left_by (setupTwoFactorAuth generated_secret sample_renderer "u1")
                  plain_world))
      (SpeakeasyCodes.base32 generated_secret)
      (current_counter
         (set_clock 59999
            (left_by (setupTwoFactorAuth generated_secret sample_renderer "u1")
                     plain_world)))
    = "287082") by (vm_compute; reflexivity).
  rewrite Hcode in H. rewrite H.
  - reflexivity.
  - discriminate.
  - vm_compute. discriminate.
Defined.

(** Enrolment and its withdrawal undo each other: after
    [setupTwoFactorAuth] and then [disableTwoFactorAuth] every verification
    throws "not enabled"; after [disableTwoFactorAuth] and then
    [setupTwoFactorAuth] the user found is enrolled with the new secret. *)
Theorem setup_and_disable_compose (w : World)
        (generated : SpeakeasyCodes.GeneratedSecret)
        (toDataURL : string -> option string) (userId : string)
        (user : User.t) :
  outcome (UserRepository.findById userId) w = Ok (Some user) ->
  (forall token later,
      let w' :=
        set_clock later
          (after (disableTwoFactorAuth userId)
                 (left_by (setupTwoFactorAuth generated toDataURL userId) w)) in
      verifyTwoFactorToken userId token w'
      = (Throw (AuthenticationException
                  "Two-factor authentication is not enabled for this user"),
         w'))
  /\ (let w' :=
        left_by (setupTwoFactorAuth generated toDataURL userId)
                (after (disableTwoFactorAuth userId) w) in
      exists enrolled,
        outcome (UserRepository.findById userId) w' = Ok (Some enrolled)
        /\ User.otpEnabled enrolled = true
        /\ User.otpSecret enrolled = Some (SpeakeasyCodes.base32 generated)
        /\ User.id enrolled = User.id user
        /\ User.isActive enrolled = User.isActive user).
Proof.
  unfold outcome at 1. unfold UserRepository.findById at 1. unfold gets.
  cbn [fst]. intros H. injection H as Hu.
  split.
  - intros token later. cbv zeta.
    rewrite (left_by_setup w generated toDataURL userId user Hu).
    set (enrolled := User.enableOtp (SpeakeasyCodes.base32 generated) user).
    set (w1 := set_users _ w).
    assert (H1 : find (fun u => String.eqb (User.id u) userId) (users w1)
                 = Some enrolled).
    { subst w1. cbn [users set_users].
      apply (findById_after_write w userId user); [exact Hu|reflexivity]. }
    unfold after. rewrite disableTwoFactorAuth_eq, H1. cbn [snd].
    rewrite verifyTwoFactorToken_eq. cbn [users set_users set_clock].
    rewrite (findById_after_write w1 userId enrolled)
      by (exact H1 || reflexivity).
    reflexivity.
  - cbv zeta. unfold after. rewrite disableTwoFactorAuth_eq, Hu. cbn [snd].
    set (w1 := set_users _ w).
    assert (H1 : find (fun u => String.eqb (User.id u) userId) (users w1)
                 = Some (User.disableOtp user)).
    { subst w1. cbn [users set_users].
      apply (findById_after_write w userId user); [exact Hu|reflexivity]. }
    rewrite (left_by_setup w1 generated toDataURL userId _ H1).
    eexists. split.
    + unfold outcome, UserRepository.findById, gets. cbn [fst users set_users].
      rewrite (findById_after_write w1 userId (User.disableOtp user))
        by (exact H1 || reflexivity).
      reflexivity.
    + repeat split.
Qed.

Lemma setup_and_disable_compose_witness :
  verifyTwoFactorToken "u1" "287082"
    (set_clock 59999
       (after (disableTwoFactorAuth "u1")
              (left_by (setupTwoFactorAuth generated_secret sample_renderer "u1")
                       plain_world)))
  = (Throw (AuthenticationException
              "Two-factor authentication is not enabled for this user"),
     set_clock 59999
       (after (disableTwoFactorAuth "u1")
              (left_by (setupTwoFactorAuth generated_secret sample_renderer "u1")
                       plain_world))).
Proof.
  apply (proj1 (setup_and_disable_compose plain_world generated_secret
                  sample_renderer "u1" plain_alice eq_refl)).
Defined.

End Enrolment.

(** ** The command that disables two-factor authentication *)

Section Disable2FA.

Import AuthService Disable2FACommandHandler.

Context {UserBaseResponse : Type}.
Variable toBaseResponse : User.t -> UserBaseResponse.

(** [Disable2FACommandHandler.execute] answers the mapper's response for
    the user with the flag and the secret cleared, and from then on every
    [verifyTwoFactorToken] for the user of the command throws "not
    enabled"; for a user that does not exist it throws
    [EntityNotFoundException], the mapper is not reached and nothing is
    written. *)
Theorem execute_disables (w : World) (command : Disable2FACommand) :
  (outcome (UserRepository.findById (userId command)) w = Ok None ->
   execute toBaseResponse command w
   = (Throw (EntityNotFoundException "User" (Some (userId command))), w))
  /\ (forall user,
        outcome (UserRepository.findById (userId command)) w = Ok (Some user) ->
        let w' := after (execute toBaseResponse command) w in
        outcome (execute toBaseResponse command) w
        = Ok (toBaseResponse (User.disableOtp user))
        /\ forall token later,
            verifyTwoFactorToken (userId command) token (set_clock later w')
            = (Throw (AuthenticationException
                        "Two-factor authentication is not enabled for this user"),
               set_clock later w')).
Proof.
  unfold outcome, after, execute, bind, ret.
  rewrite disableTwoFactorAuth_eq.
  unfold UserRepository.findById, gets. cbn [fst].
  split.
  - intros H. injection H as ->. reflexivity.
  - intros user H. injection H as Hu. rewrite Hu. cbn [fst snd].
    split; [reflexivity|].
    intros token later. rewrite verifyTwoFactorToken_eq.
    cbn [users set_users set_clock].
    rewrite (findById_after_write w (userId command) user)
      by (exact Hu || reflexivity).
    reflexivity.
Qed.

End Disable2FA.

Lemma execute_disables_witness :
  outcome (Disable2FACommandHandler.execute User.email
             (Disable2FACommandHandler.mkDisable2FACommand "u1"))
          skew_world
  = Ok "alice@example.com"
  /\ Disable2FACommandHandler.execute User.email
       (Disable2FACommandHandler.mkDisable2FACommand "u9") skew_world
     = (Throw (EntityNotFoundException "User" (Some "u9")), skew_world).
Proof.
  split.
  - apply (proj1 (proj2 (execute_disables User.email skew_world
                           (Disable2FACommandHandler.mkDisable2FACommand "u1"))
                    alice eq_refl)).
  - apply (proj1 (execute_disables User.email skew_world
                    (Disable2FACommandHandler.mkDisable2FACommand "u9"))).
    reflexivity.
Defined.

(** ** The ledger: revocation and lifetime *)

Section LedgerMore.

Import AuthService.

Lemma validateRefreshToken_eq (w : World) (token : string) :
  validateRefreshToken token w
  = match find (RefreshTokenRepository.has_token token) (refreshTokens w) with
    | None => (Throw (AuthenticationException "Invalid refresh token"), w)
    | Some r =>
        if RefreshToken.isExpired (clock w) r
        then (Throw (AuthenticationException "Refresh token has expired"), w)
        else if RefreshToken.revoked r
        then (Throw (AuthenticationException "Refresh token has been revoked"),
              w)
        else (Ok r, w)
    end.
Proof.
  unfold validateRefreshToken, RefreshTokenRepository.findByToken,
    RefreshToken.isRevoked.
  unfold now; unfold bind, gets, ret, throw.
  destruct (find _ (refreshTokens w)) as [r|]; [|reflexivity].
  destruct (RefreshToken.isExpired (clock w) r); [reflexivity|].
  destruct (RefreshToken.revoked r); reflexivity.
Qed.

(** [revokeAllRefreshTokens] checks the user first, which
    [createRefreshToken] does not: for a user that does not exist it throws
    [EntityNotFoundException] and deletes nothing, even if rows of the
    ledger carry that user id.  For a user that exists it deletes every
    token the user owns and no other; a value that only the user held no
    longer validates. *)
Theorem revokeAllRefreshTokens_logs_out (w : World) (userId : string) :
  (outcome (UserRepository.findById userId) w = Ok None ->
   revokeAllRefreshTokens userId w
   = (Throw (EntityNotFoundException "User" (Some userId)), w))
  /\ (forall user,
        outcome (UserRepository.findById userId) w = Ok (Some user) ->
        let w' := after (revokeAllRefreshTokens userId) w in
        outcome (revokeAllRefreshTokens userId) w = Ok tt
        /\ owned userId w' = []
        /\ (forall other, other <> userId -> owned other w' = owned other w)
        /\ forall token later,
            (forall r, In r (refreshTokens w) ->
                       RefreshToken.token r = token ->
                       RefreshToken.userId r = userId) ->
            validateRefreshToken token (set_clock later w')
            = (Throw (AuthenticationException "Invalid refresh token"),
               set_clock later w')).
Proof.
  unfold outcome, after. rewrite revokeAllRefreshTokens_eq.
  unfold UserRepository.findById, gets. cbn [fst].
  split.
  - intros H. injection H as ->. reflexivity.
  - intros user H. injection H as ->. cbv zeta. cbn [fst snd].
    split; [reflexivity|]. split; [|split].
    + unfold owned. cbn [refreshTokens set_refreshTokens].
      apply owned_after_delete.
    + intros other Hneq. unfold owned. cbn [refreshTokens set_refreshTokens].
      apply owned_other_after_delete. exact Hneq.
    + intros token later Honly.
      rewrite validateRefreshToken_eq.
      cbn [refreshTokens set_refreshTokens set_clock].
      assert (Hnone :
        find (RefreshTokenRepository.has_token token)
             (filter (fun r => negb (RefreshTokenRepository.owned_by userId r))
                     (refreshTokens w)) = None).
      { apply find_none_existsb.
        destruct (existsb _ _) eqn:Hex; [|reflexivity].
        apply existsb_exists in Hex. destruct Hex as (r & Hin & Htok).
        apply filter_In in Hin. destruct Hin as [Hin Hnot].
        apply String.eqb_eq in Htok.
        apply Honly in Htok; [|exact Hin].
        apply owned_by_eq in Htok. rewrite Htok in Hnot. discriminate. }
      rewrite Hnone. reflexivity.
Qed.

Lemma revokeAllRefreshTokens_logs_out_witness :
  revokeAllRefreshTokens "u1" ledger_world
  = (Throw (EntityNotFoundException "User" (Some "u1")), ledger_world)
  /\ owned "u1" ledger_world = [token_1; token_2]
  /\ owned "u1"
       (after (revokeAllRefreshTokens "u1") (set_users [alice] ledger_world))
     = []
  /\ owned "u2"
       (after (revokeAllRefreshTokens "u1") (set_users [alice] ledger_world))
     = [token_b].
Proof.
  split; [|split; [reflexivity|]].
  - apply (proj1 (revokeAllRefreshTokens_logs_out ledger_world "u1")).
    reflexivity.
  - destruct (proj2 (revokeAllRefreshTokens_logs_out
                       (set_users [alice] ledger_world) "u1") alice eq_refl)
      as (_ & Hnone & Hother & _).
    split; [exact Hnone|].
    rewrite Hother by discriminate. reflexivity.
Defined.

(** Once [revokeRefreshToken] has returned for a value, that value never
    validates again: at every later reading of the clock
    [validateRefreshToken] throws, "expired" when the token is past its
    expiry and "revoked" otherwise. *)
Theorem revoked_token_never_validates (w : World) (token : string) (later : Z) :
  outcome (revokeRefreshToken token) w = Ok tt ->
  let w' := set_clock later (after (revokeRefreshToken token) w) in
  exists r,
    outcome (RefreshTokenRepository.findByToken token) w' = Ok (Some r)
    /\ RefreshToken.revoked r = true
    /\ validateRefreshToken token w'
       = (Throw (AuthenticationException
                   (if RefreshToken.isExpired later r
                    then "Refresh token has expired"
                    else "Refresh token has been revoked")),
          w').
Proof.
  unfold outcome, after. rewrite revokeRefreshToken_eq.
  destruct (find _ (refreshTokens w)) as [r|] eqn:Hfind; [|discriminate].
  intros _. cbv zeta.
  assert (Hafter : exists r',
    find (RefreshTokenRepository.has_token token)
         (refreshTokens
            (snd (if RefreshToken.revoked r
                  then (Ok tt, w)
                  else (Ok tt,
                        set_refreshTokens
                          (replace_where
                             (fun x => String.eqb (RefreshToken.id x)
                                                  (RefreshToken.id r))
                             (RefreshToken.revoke r) (refreshTokens w))
                          w))))
    = Some r' /\ RefreshToken.revoked r' = true).
  { destruct (RefreshToken.revoked r) eqn:Hrev; cbn [snd].
    - exists r. split; [exact Hfind|exact Hrev].
    - exists (RefreshToken.revoke r). split; [|reflexivity].
      cbn [refreshTokens set_refreshTokens].
      apply findByToken_after_revoke. exact Hfind. }
  destruct Hafter as (r' & Hfind' & Hrev').
  exists r'.
  rewrite validateRefreshToken_eq.
  unfold RefreshTokenRepository.findByToken, gets.
  cbn [fst refreshTokens set_clock clock]. rewrite Hfind', Hrev'.
  split; [reflexivity|]. split; [reflexivity|].
  destruct (RefreshToken.isExpired later r'); reflexivity.
Qed.

Lemma revoked_token_never_validates_witness :
  validateRefreshToken "tok-1" ledger_world = (Ok token_1, ledger_world)
  /\ outcome (validateRefreshToken "tok-1")
             (set_clock 1000 (after (revokeRefreshToken "tok-1") ledger_world))
     = Throw (AuthenticationException "Refresh token has been revoked").
Proof.
  split; [reflexivity|].
  destruct (revoked_token_never_validates ledger_world "tok-1" 1000 eq_refl)
    as (r & Hfind & _ & Hval).
  unfold outcome. rewrite Hval.
  assert (Hr : r = RefreshToken.revoke token_1).
  { assert (H : outcome (RefreshTokenRepository.findByToken "tok-1")
                        (set_clock 1000
                           (after (revokeRefreshToken "tok-1") ledger_world))
                = Ok (Some (RefreshToken.revoke token_1))) by reflexivity.
    rewrite H in Hfind. injection Hfind as <-. reflexivity. }
  rewrite Hr. reflexivity.
Defined.

(** *** The configured lifetime *)

Lemma to_decimal_aux_nonempty (fuel : nat) (n : Z) (acc : string) :
  exists c rest, Js.to_decimal_aux fuel n acc = String c rest.
Proof.
  revert n acc.
  induction fuel as [|fuel IH]; intros n acc; cbn [Js.to_decimal_aux].
  - eauto.
  - destruct (n <? 10); eauto.
Qed.

Lemma parseInt_to_decimal (n : Z) :
  0 <= n -> Js.parseInt (Js.to_decimal n) = Js.Num n.
Proof.
  intros Hn.
  pose proof (all_digits_to_decimal n) as Hdig.
  pose proof (decimal_value_to_decimal n Hn) as Hval.
  destruct (to_decimal_aux_nonempty (Z.to_nat (Z.log2 n)) n EmptyString)
    as (c & rest & Heq).
  unfold Js.to_decimal in *. rewrite Heq in *.
  simpl in Hdig. apply andb_true_iff in Hdig.
  rewrite parseInt_all_digits by tauto.
  rewrite Hval. reflexivity.
Qed.

Lemma remove_first_d (s : string) :
  all_digits s = true -> Js.remove_first "d" (s ++ "d")%string = s.
Proof.
  induction s as [|c s IH]; simpl.
  - reflexivity.
  - intros H. apply andb_true_iff in H. destruct H as [Hc Hs].
    assert (Hd : Ascii.eqb c "d" = false).
    { destruct c as [[] [] [] [] [] [] [] []]; try discriminate Hc;
        reflexivity. }
    rewrite Hd, IH by exact Hs. reflexivity.
Qed.

(** A lifetime configured as a number of days followed by [d], and seven
    days when nothing is configured. *)
Lemma tokenConfig_days (c : Config) (n : Z) :
  0 <= n ->
  JWT_REFRESH_EXPIRATION c = Some (Js.to_decimal n ++ "d")%string
  \/ (JWT_REFRESH_EXPIRATION c = None /\ n = 7) ->
  refreshExpiration (tokenConfig c) = Js.Num n.
Proof.
  intros Hn [Hc|[Hc ->]]; unfold tokenConfig; rewrite Hc;
    cbn [refreshExpiration get].
  - rewrite remove_first_d by apply all_digits_to_decimal.
    apply parseInt_to_decimal. exact Hn.
  - reflexivity.
Qed.

(** The lifetime of a refresh token is the configured number of days, seven
    by default, and its end is sharp: a token that [createRefreshToken]
    returned validates, unless revoked, at every reading of the clock up to
    and including the clock of the issue plus that many days, and is
    expired one millisecond later. *)
Theorem refresh_token_lifetime (w w' : World) (userId token : string)
        (r : RefreshToken.t) (days later : Z) :
  0 <= days ->
  JWT_REFRESH_EXPIRATION (config w) = Some (Js.to_decimal days ++ "d")%string
  \/ (JWT_REFRESH_EXPIRATION (config w) = None /\ days = 7) ->
  createRefreshToken userId token w = (Ok r, w') ->
  RefreshToken.expiresAt r = Js.Num (clock w + days * 24 * 60 * 60 * 1000)
  /\ validateRefreshToken token (set_clock later w')
     = if clock w + days * 24 * 60 * 60 * 1000 <? later
       then (Throw (AuthenticationException "Refresh token has expired"),
             set_clock later w')
       else (Ok r, set_clock later w').
Proof.
  intros Hdays Hconf Hrun.
  pose proof (tokenConfig_days (config w) days Hdays Hconf) as Hcfg.
  pose proof (createRefreshToken_ok _ _ _ _ _ Hrun) as Hok.
  cbv zeta in Hok. destruct Hok as (Hfree & Hrows & _ & Htok & Hrev).
  rewrite createRefreshToken_eq in Hrun. cbv zeta in Hrun.
  rewrite Hfree in Hrun. injection Hrun as Hr _.
  assert (Hexp : RefreshToken.expiresAt r
                 = Js.Num (clock w + days * 24 * 60 * 60 * 1000)).
  { rewrite <- Hr. unfold tokenConfig in Hcfg. cbn [refreshExpiration] in Hcfg.
    unfold RefreshToken.new. cbn [RefreshToken.expiresAt].
    rewrite Hcfg. reflexivity. }
  split; [exact Hexp|].
  rewrite validateRefreshToken_eq. cbn [refreshTokens clock set_clock].
  rewrite Hrows, find_app_absent by exact Hfree.
  unfold RefreshTokenRepository.has_token. rewrite Htok, String.eqb_refl.
  unfold RefreshToken.isExpired. rewrite Hexp, Hrev.
  destruct (_ <? later); reflexivity.
Qed.

Lemma refresh_token_lifetime_witness :
  validateRefreshToken "tok-3" (set_clock 604801000 ledger_world_3)
  = (Ok token_3, set_clock 604801000 ledger_world_3)
  /\ validateRefreshToken "tok-3" (set_clock 604801001 ledger_world_3)
     = (Throw (AuthenticationException "Refresh token has expired"),
        set_clock 604801001 ledger_world_3).
Proof.
  assert (Hrun : createRefreshToken "u1" "tok-3" ledger_world
                 = (Ok token_3, ledger_world_3)) by (vm_compute; reflexivity).
  assert (Hdays : 0 <= 7) by (vm_compute; discriminate).
  split.
  - rewrite (proj2 (refresh_token_lifetime ledger_world ledger_world_3 "u1"
                      "tok-3" token_3 7 604801000 Hdays
                      (or_intror (conj eq_refl eq_refl)) Hrun)).
    reflexivity.
  - rewrite (proj2 (refresh_token_lifetime ledger_world ledger_world_3 "u1"
                      "tok-3" token_3 7 604801001 Hdays
                      (or_intror (conj eq_refl eq_refl)) Hrun)).
    reflexivity.
Defined.

End LedgerMore.

(** ** What the services leave alone *)

Section Frames.

Import AuthService.

Lemma updateLastLogin_eq (w : World) (userId : string) :
  updateLastLogin userId w
  = match find (fun u => String.eqb (User.id u) userId) (users w) with
    | None => (Throw (EntityNotFoundException "User" (Some userId)), w)
    | Some user =>
        (Ok (User.updateLastLogin (clock w) user),
         set_users
           (replace_where
              (fun x => String.eqb (User.id x)
                          (User.id (User.updateLastLogin (clock w) user)))
              (User.updateLastLogin (clock w) user) (users w))
           w)
    end.
Proof.
  unfold updateLastLogin, UserRepository.findById, UserRepository.update.
  unfold now; unfold bind, gets, modify, ret, throw.
  destruct (find _ (users w)); reflexivity.
Qed.

Lemma jwt_validate_eq (w : World) (payload : JwtStrategy.Payload) :
  JwtStrategy.validate payload w
  = match find (fun u => String.eqb (User.id u) (JwtStrategy.sub payload))
               (users w) with
    | Some user =>
        if User.isActive user then (Ok payload, w)
        else (Throw (UnauthorizedException "User no longer active or not found"),
              w)
    | None =>
        (Throw (UnauthorizedException "User no longer active or not found"), w)
    end.
Proof.
  unfold JwtStrategy.validate, UserRepository.findById.
  unfold bind, gets, ret, throw.
  destruct (find _ (users w)) as [user|]; [|reflexivity].
  destruct (User.isActive user); reflexivity.
Qed.

(** The user found under any id after a copy of one user, with the same
    id, was written: the copy under its id, the old answer elsewhere. *)
Lemma findById_after_any_write (w : World) (userId other : string)
      (user new : User.t) :
  find (fun u => String.eqb (User.id u) userId) (users w) = Some user ->
  User.id new = User.id user ->
  find (fun u => String.eqb (User.id u) other)
       (replace_where (fun x => String.eqb (User.id x) (User.id new)) new
                      (users w))
  = if String.eqb other userId then Some new
    else find (fun u => String.eqb (User.id u) other) (users w).
Proof.
  intros Hu Hid.
  pose proof (find_some_holds _ _ _ Hu) as Hsame. cbv beta in Hsame.
  apply String.eqb_eq in Hsame.
  destruct (String.eqb_spec other userId) as [->|Hneq].
  - apply (findById_after_write w userId user); assumption.
  - apply find_replace_where_other.
    + intros x Hx. apply String.eqb_eq in Hx.
      apply String.eqb_neq. congruence.
    + apply String.eqb_neq. congruence.
Qed.

(** [updateLastLogin] throws [EntityNotFoundException] and writes nothing
    for a user that does not exist; for a user that exists it returns and
    stores the user with [lastLoginAt] at the clock, and changes nothing
    that sessions or two-factor verification depend on: for every payload
    [JwtStrategy.validate], and for every user and token
    [verifyTwoFactorToken], answer afterwards what they answered before. *)
Theorem updateLastLogin_only_stamps (w : World) (userId : string) :
  (outcome (UserRepository.findById userId) w = Ok None ->
   updateLastLogin userId w
   = (Throw (EntityNotFoundException "User" (Some userId)), w))
  /\ (forall user,
        outcome (UserRepository.findById userId) w = Ok (Some user) ->
        let w' := after (updateLastLogin userId) w in
        exists stamped,
          outcome (updateLastLogin userId) w = Ok stamped
          /\ outcome (UserRepository.findById userId) w' = Ok (Some stamped)
          /\ User.lastLoginAt stamped = Some (clock w)
          /\ (forall payload,
                outcome (JwtStrategy.validate payload) w'
                = outcome (JwtStrategy.validate payload) w)
          /\ (forall other token,
                outcome (verifyTwoFactorToken other token) w'
                = outcome (verifyTwoFactorToken other token) w)).
Proof.
  unfold outcome at 1 2. unfold UserRepository.findById at 1 2. unfold gets.
  cbn [fst]. split.
  - intros H. injection H as Hu. rewrite updateLastLogin_eq, Hu. reflexivity.
  - intros user H. injection H as Hu. cbv zeta.
    unfold outcome at 1, after. rewrite updateLastLogin_eq, Hu. cbn [fst snd].
    set (stamped := User.updateLastLogin (clock w) user).
    assert (Hfind : forall other,
      find (fun u => String.eqb (User.id u) other)
           (replace_where (fun x => String.eqb (User.id x) (User.id stamped))
                          stamped (users w))
      = if String.eqb other userId then Some stamped
        else find (fun u => String.eqb (User.id u) other) (users w)).
    { intros other.
      apply (findById_after_any_write w userId other user);
        [exact Hu|reflexivity]. }
    exists stamped. split; [reflexivity|]. split; [|split; [reflexivity|split]].
    + unfold outcome, UserRepository.findById, gets. cbn [fst users set_users].
      rewrite Hfind, String.eqb_refl. reflexivity.
    + intros payload. unfold outcome. rewrite !jwt_validate_eq.
      cbn [users set_users]. rewrite Hfind.
      destruct (String.eqb_spec (JwtStrategy.sub payload) userId) as [->|_].
      * rewrite Hu. subst stamped. cbn [User.updateLastLogin User.isActive].
        destruct (User.isActive user); reflexivity.
      * destruct (find (fun u => String.eqb (User.id u) (JwtStrategy.sub payload))
                       (users w)) as [u|]; [|reflexivity].
        destruct (User.isActive u); reflexivity.
    + intros other token. unfold outcome. rewrite !verifyTwoFactorToken_eq.
      cbn [users set_users]. rewrite Hfind.
      destruct (String.eqb_spec other userId) as [->|_].
      * rewrite Hu. subst stamped.
        cbn [User.updateLastLogin User.otpEnabled User.otpSecret].
        destruct (negb (User.otpEnabled user) || Js.falsy (User.otpSecret user));
          [reflexivity|].
        change (isValid (set_users _ w)) with (isValid w).
        destruct (isValid w _ token); reflexivity.
      * destruct (find (fun u => String.eqb (User.id u) other) (users w))
          as [u|]; [|reflexivity].
        destruct (negb (User.otpEnabled u) || Js.falsy (User.otpSecret u));
          [reflexivity|].
        change (isValid (set_users _ w)) with (isValid w).
        destruct (isValid w _ token); reflexivity.
Qed.

Lemma updateLastLogin_only_stamps_witness :
  updateLastLogin "u9" skew_world
  = (Throw (EntityNotFoundException "User" (Some "u9")), skew_world)
  /\ outcome (updateLastLogin "u1") skew_world
     = Ok (User.mk "u1" "alice@example.com" true (Some rfc_secret) true
                   (Some 59000))
  /\ outcome (JwtStrategy.validate alice_payload)
             (after (updateLastLogin "u1") skew_world)
     = Ok alice_payload.
Proof.
  split; [|split].
  - apply (proj1 (updateLastLogin_only_stamps skew_world "u9")). reflexivity.
  - reflexivity.
  - destruct (proj2 (updateLastLogin_only_stamps skew_world "u1") alice eq_refl)
      as (stamped & _ & _ & _ & Hjwt & _).
    rewrite Hjwt. reflexivity.
Defined.

(** The checks only read: [validateRefreshToken], [verifyTwoFactorToken],
    [JwtStrategy.validate] and the four lookups of the catalog leave the
    world exactly as they found it, whatever they answer. *)
Theorem checks_write_nothing (w : World) (token userId name : string)
        (payload : JwtStrategy.Payload) :
  after (validateRefreshToken token) w = w
  /\ after (verifyTwoFactorToken userId token) w = w
  /\ after (JwtStrategy.validate payload) w = w
  /\ after (PermissionRepository.findById userId) w = w
  /\ after (PermissionRepository.findByName name) w = w
  /\ after PermissionRepository.findAll w = w
  /\ after (PermissionRepository.findByResource name) w = w.
Proof.
  unfold after.
  rewrite validateRefreshToken_eq, verifyTwoFactorToken_eq, jwt_validate_eq,
    findById_eq, findByName_eq.
  repeat split.
  - destruct (find _ (refreshTokens w)) as [r|]; [|reflexivity].
    destruct (RefreshToken.isExpired (clock w) r); [reflexivity|].
    destruct (RefreshToken.revoked r); reflexivity.
  - destruct (find _ (users w)) as [u|]; [|reflexivity].
    destruct (negb (User.otpEnabled u) || Js.falsy (User.otpSecret u));
      [reflexivity|].
    destruct (isValid w _ token); reflexivity.
  - destruct (find _ (users w)) as [u|]; [|reflexivity].
    destruct (User.isActive u); reflexivity.
Qed.

End Frames.

(** ** Tokens as JavaScript reads them *)

(** The token is compared as a number: with the code 026920 current, the
    five digits are accepted behind any one character of white space that
    [parseInt] skips, behind a sign, and before a character [parseInt]
    stops at, each making six code units; the five digits alone, or the six
    behind a space, are not. *)
Lemma verifyOtp_reads_the_token_as_a_number :
  code_at padded_world rfc_secret (current_counter padded_world) = "026920"
  /\ Js.length nbsp_token = 6%nat
  /\ Js.length ideographic_space_token = 6%nat
  /\ outcome (AuthService.verifyOtp "u1" "026920") padded_world = Ok true
  /\ outcome (AuthService.verifyOtp "u1" " 26920") padded_world = Ok true
  /\ outcome (AuthService.verifyOtp "u1" "+26920") padded_world = Ok true
  /\ outcome (AuthService.verifyOtp "u1" "26920x") padded_world = Ok true
  /\ outcome (AuthService.verifyOtp "u1" nbsp_token) padded_world = Ok true
  /\ outcome (AuthService.verifyOtp "u1" ideographic_space_token) padded_world
     = Ok true
  /\ outcome (AuthService.verifyOtp "u1" "26920") padded_world
     = Throw OtpInvalidException
  /\ outcome (AuthService.verifyOtp "u1" " 026920") padded_world
     = Throw OtpInvalidException.
Proof.
  repeat (split; [vm_compute; reflexivity|]).
  vm_compute. reflexivity.
Qed.
